(** * picoclaw: security policy engine and approval cycle over the message bus

    A shallow embedding of [pkg/security] (policy modes, [GetMode],
    [Evaluate], [requestApproval], [formatApprovalMessage], the reply
    keyword tables) and of the message router it talks to, together with
    the properties of the natural-language specification.

    Go values are modelled as follows.
    - [string]: a Go string is a sequence of bytes; Rocq's [string] is a
      list of 8-bit [ascii], so a literal such as ["批准"] denotes its six
      UTF-8 bytes, exactly as in the Go source file.
    - [int] and [time.Duration]: [Z], with the 64-bit two's complement
      wrap-around written out ([wrap64]).
    - [error]: an inductive type; [nil] is [None] of [option error].
    - the shared *[bus.MessageBus] and the result channel created by
      [requestApproval]: explicit state passed through every call. *)

From Stdlib Require Import ZArith List String Ascii Bool Lia.
Import ListNotations.
Local Open Scope string_scope.
Local Open Scope Z_scope.

(* ===================================================================== *)
(** ** Go strings as byte sequences *)
(* ===================================================================== *)

Module gostring.

(** [s[i]] seen as a number, for range tests on bytes. *)
Definition byteZ (c : ascii) : Z := Z.of_N (N_of_ascii c).

(** [byte(v)] for [0 <= v < 256]. *)
Definition byte_of (v : Z) : ascii := ascii_of_N (Z.to_N (v mod 256)).

(** The newline and double-quote escapes of Go string literals. *)
Definition nl : string := String "010"%char EmptyString.
Definition dq : string := String "034"%char EmptyString.

Definition len (s : string) : Z := Z.of_nat (String.length s).

(** [s[a:b]] for [0 <= a <= b <= len(s)]. *)
Definition slice (s : string) (a b : Z) : string :=
  String.substring (Z.to_nat a) (Z.to_nat (b - a)) s.

(** [s[i]] as a number; [0] out of range (never used there). *)
Definition at_ (s : string) (i : Z) : Z :=
  match String.get (Z.to_nat i) s with
  | Some c => byteZ c
  | None => 0
  end.

Fixpoint drop (n : nat) (s : string) : string :=
  match n, s with
  | O, _ => s
  | S n', String _ t => drop n' t
  | S _, EmptyString => EmptyString
  end.

Fixpoint rev (s : string) : string :=
  match s with
  | EmptyString => EmptyString
  | String c t => rev t ++ String c EmptyString
  end.

Fixpoint forallb (p : ascii -> bool) (s : string) : bool :=
  match s with
  | EmptyString => true
  | String c t => p c && forallb p t
  end.

Fixpoint existsb (p : ascii -> bool) (s : string) : bool :=
  match s with
  | EmptyString => false
  | String c t => p c || existsb p t
  end.

Fixpoint map (f : ascii -> ascii) (s : string) : string :=
  match s with
  | EmptyString => EmptyString
  | String c t => String (f c) (map f t)
  end.

(** [strings.HasPrefix(s, p)]. *)
Fixpoint HasPrefix (s p : string) : bool :=
  match p, s with
  | EmptyString, _ => true
  | String a p', String b s' => Ascii.eqb a b && HasPrefix s' p'
  | String _ _, EmptyString => false
  end.

(** [strings.Contains(s, sub)]: some suffix of [s] starts with [sub]. *)
Fixpoint Contains (s sub : string) : bool :=
  HasPrefix s sub ||
  match s with
  | EmptyString => false
  | String _ t => Contains t sub
  end.

(** The same as a proposition: [sub] occurs inside [s]. *)
Definition Occurs (sub s : string) : Prop :=
  exists pre post, s = pre ++ sub ++ post.

End gostring.

(* ===================================================================== *)
(** ** unicode/utf8, unicode and strings: the library calls of the closure *)
(* ===================================================================== *)

Module utf8.
Import gostring.

Definition RuneError : Z := 65533.   (* U+FFFD *)
Definition RuneSelf : Z := 128.
Definition MaxRune : Z := 1114111.   (* U+10FFFF *)
Definition UTFMax : Z := 4.

(** Continuation bytes are [0x80..0xBF] ([locb], [hicb]). *)
Definition iscont (b : Z) : bool := (128 <=? b) && (b <=? 191).

(** [first[s0] & 7]: the length announced by a leading byte; [0] for a
    byte that cannot start a sequence ([0x80..0xC1], [0xF5..0xFF]). *)
Definition seqlen (b0 : Z) : Z :=
  if b0 <? 128 then 1
  else if b0 <? 194 then 0
  else if b0 <? 224 then 2
  else if b0 <? 240 then 3
  else if b0 <? 245 then 4
  else 0.

(** [acceptRanges]: the bounds on the second byte. *)
Definition accept_lo (b0 : Z) : Z :=
  if b0 =? 224 then 160 else if b0 =? 240 then 144 else 128.
Definition accept_hi (b0 : Z) : Z :=
  if b0 =? 237 then 159 else if b0 =? 244 then 143 else 191.

(** [utf8.DecodeRuneInString]: the first rune of [s] and its width. *)
Definition DecodeRuneInString (s : string) : Z * Z :=
  let n := len s in
  if n <? 1 then (RuneError, 0)
  else
    let s0 := at_ s 0 in
    let sz := seqlen s0 in
    if s0 <? RuneSelf then (s0, 1)
    else if sz =? 0 then (RuneError, 1)
    else if n <? sz then (RuneError, 1)
    else
      let s1 := at_ s 1 in
      if (s1 <? accept_lo s0) || (accept_hi s0 <? s1) then (RuneError, 1)
      else if sz <=? 2 then
        (Z.lor (Z.shiftl (Z.land s0 31) 6) (Z.land s1 63), 2)
      else
        let s2 := at_ s 2 in
        if negb (iscont s2) then (RuneError, 1)
        else if sz <=? 3 then
          (Z.lor (Z.lor (Z.shiftl (Z.land s0 15) 12)
                        (Z.shiftl (Z.land s1 63) 6))
                 (Z.land s2 63), 3)
        else
          let s3 := at_ s 3 in
          if negb (iscont s3) then (RuneError, 1)
          else
            (Z.lor (Z.lor (Z.lor (Z.shiftl (Z.land s0 7) 18)
                                 (Z.shiftl (Z.land s1 63) 12))
                          (Z.shiftl (Z.land s2 63) 6))
                   (Z.land s3 63), 4).

(** [utf8.RuneStart]: not a continuation byte. *)
Definition RuneStart (b : Z) : bool := negb (Z.land b 192 =? 128).

(** The backward scan of [DecodeLastRuneInString]:
    [for start--; start >= lim; start-- { if RuneStart(s[start]) { break } }]
    entered with [start] already decremented; at most [UTFMax - 1] turns. *)
Fixpoint backscan (turns : nat) (s : string) (start lim : Z) : Z :=
  match turns with
  | O => start
  | S k =>
      if start <? lim then start
      else if RuneStart (at_ s start) then start
      else backscan k s (start - 1) lim
  end.

(** [utf8.DecodeLastRuneInString]: the last rune of [s] and its width. *)
Definition DecodeLastRuneInString (s : string) : Z * Z :=
  let end_ := len s in
  if end_ =? 0 then (RuneError, 0)
  else
    let r := at_ s (end_ - 1) in
    if r <? RuneSelf then (r, 1)
    else
      let lim := Z.max 0 (end_ - UTFMax) in
      let start := backscan 4 s (end_ - 2) lim in
      let start := if start <? 0 then 0 else start in
      let '(r, size) := DecodeRuneInString (slice s start end_) in
      if negb (start + size =? end_) then (RuneError, 1) else (r, size).

(** [utf8.AppendRune(nil, r)]: the encoding of [r]; surrogates and values
    outside [0..MaxRune] are written as U+FFFD. *)
Definition EncodeRune (r : Z) : string :=
  let three (r : Z) :=
    String (byte_of (Z.lor 224 (Z.shiftr r 12)))
   (String (byte_of (Z.lor 128 (Z.land (Z.shiftr r 6) 63)))
   (String (byte_of (Z.lor 128 (Z.land r 63))) EmptyString)) in
  if (r <? 0) || (MaxRune <? r) || ((55296 <=? r) && (r <=? 57343))
  then three RuneError
  else if r <=? 127 then String (byte_of r) EmptyString
  else if r <=? 2047 then
    String (byte_of (Z.lor 192 (Z.shiftr r 6)))
   (String (byte_of (Z.lor 128 (Z.land r 63))) EmptyString)
  else if r <=? 65535 then three r
  else
    String (byte_of (Z.lor 240 (Z.shiftr r 18)))
   (String (byte_of (Z.lor 128 (Z.land (Z.shiftr r 12) 63)))
   (String (byte_of (Z.lor 128 (Z.land (Z.shiftr r 6) 63)))
   (String (byte_of (Z.lor 128 (Z.land r 63))) EmptyString))).

End utf8.

Module unicode.

Definition MaxASCII : Z := 127.
Definition MaxLatin1 : Z := 255.

(** [unicode.IsSpace]: the Latin-1 switch, then the [White_Space] range
    table (U+1680, U+2000..U+200A, U+2028, U+2029, U+202F, U+205F,
    U+3000). *)
Definition IsSpace (r : Z) : bool :=
  if (0 <=? r) && (r <=? MaxLatin1) then
    (r =? 9) || (r =? 10) || (r =? 11) || (r =? 12) || (r =? 13) ||
    (r =? 32) || (r =? 133) || (r =? 160)
  else
    (r =? 5760) || ((8192 <=? r) && (r <=? 8202)) ||
    (r =? 8232) || (r =? 8233) || (r =? 8239) || (r =? 8287) ||
    (r =? 12288).

(** Runes of hiragana (U+3040..U+309F) and of the unified ideographs
    (U+4E00..U+9FFF): scripts without letter case. *)
Definition uncased (r : Z) : bool :=
  ((12352 <=? r) && (r <=? 12447)) || ((19968 <=? r) && (r <=? 40959)).

(** The case table of the Unicode version the program is built with,
    [unicode.To(unicode.LowerCase, r)], is consulted only above
    [MaxASCII]; it is a parameter of the development.  All that is asked
    of it is that it leaves the runes of the caseless scripts alone. *)
Class CaseTables := {
  To_LowerCase : Z -> Z;
  caseless : forall r, uncased r = true -> To_LowerCase r = r
}.

(** [unicode.ToLower]. *)
Definition ToLower `{CaseTables} (r : Z) : Z :=
  if r <=? MaxASCII then
    if (65 <=? r) && (r <=? 90) then r + 32 else r
  else To_LowerCase r.

End unicode.

Module strings.
Import gostring utf8.

(** [asciiSpace]: tab, newline, vertical tab, form feed, return, space. *)
Definition asciiSpace (c : Z) : bool :=
  (c =? 9) || (c =? 10) || (c =? 11) || (c =? 12) || (c =? 13) || (c =? 32).

(** [indexFunc(s, f, truth)]: [for i, r := range s], the byte offset of
    the first rune with [f(r) == truth], or [-1]. *)
Fixpoint indexFunc (fuel : nat) (s : string) (f : Z -> bool) (truth : bool)
    (i : Z) : Z :=
  match fuel with
  | O => -1
  | S k =>
      if len s <=? i then -1
      else
        let '(r, w) := DecodeRuneInString (slice s i (len s)) in
        if Bool.eqb (f r) truth then i else indexFunc k s f truth (i + w)
  end.

(** [lastIndexFunc(s, f, truth)], entered with [i = len(s)]. *)
Fixpoint lastIndexFunc (fuel : nat) (s : string) (f : Z -> bool)
    (truth : bool) (i : Z) : Z :=
  match fuel with
  | O => -1
  | S k =>
      if i <=? 0 then -1
      else
        let '(r, size) := DecodeLastRuneInString (slice s 0 i) in
        let i := i - size in
        if Bool.eqb (f r) truth then i else lastIndexFunc k s f truth i
  end.

Definition TrimLeftFunc (s : string) (f : Z -> bool) : string :=
  let i := indexFunc (String.length s) s f false 0 in
  if i =? -1 then "" else slice s i (len s).

Definition TrimRightFunc (s : string) (f : Z -> bool) : string :=
  let i := lastIndexFunc (String.length s) s f false (len s) in
  let i :=
    if (0 <=? i) && (RuneSelf <=? at_ s i)
    then i + snd (DecodeRuneInString (slice s i (len s)))
    else i + 1 in
  slice s 0 i.

Definition TrimFunc (s : string) (f : Z -> bool) : string :=
  TrimRightFunc (TrimLeftFunc s f) f.

(** The two byte loops of [TrimSpace]: each either stops at an index or
    meets a byte [>= RuneSelf] and hands over to the rune-aware functions. *)
Inductive scan : Type :=
  | Fallback (i : Z)
  | Stop (i : Z).

Fixpoint scanStart (fuel : nat) (s : string) (start : Z) : scan :=
  match fuel with
  | O => Stop start
  | S k =>
      if len s <=? start then Stop start
      else
        let c := at_ s start in
        if RuneSelf <=? c then Fallback start
        else if negb (asciiSpace c) then Stop start
        else scanStart k s (start + 1)
  end.

Fixpoint scanStop (fuel : nat) (s : string) (start stop : Z) : scan :=
  match fuel with
  | O => Stop stop
  | S k =>
      if stop <=? start then Stop stop
      else
        let c := at_ s (stop - 1) in
        if RuneSelf <=? c then Fallback stop
        else if negb (asciiSpace c) then Stop stop
        else scanStop k s start (stop - 1)
  end.

(** [strings.TrimSpace]. *)
Definition TrimSpace (s : string) : string :=
  match scanStart (String.length s) s 0 with
  | Fallback start => TrimFunc (slice s start (len s)) unicode.IsSpace
  | Stop start =>
      match scanStop (String.length s) s start (len s) with
      | Fallback stop => TrimRightFunc (slice s start stop) unicode.IsSpace
      | Stop stop => slice s start stop
      end
  end.

(** [for _, c := range s]: the runes of [s]; an invalid byte yields
    [RuneError] and advances by one. *)
Fixpoint runes (fuel : nat) (s : string) : list Z :=
  match fuel with
  | O => []
  | S k =>
      match s with
      | EmptyString => []
      | String _ _ =>
          let '(r, w) := DecodeRuneInString s in
          r :: runes k (drop (Z.to_nat w) s)
      end
  end.

(** [strings.Map(mapping, s)]: every rune of [s] is replaced by the
    encoding of its image, and dropped when the image is negative.  (The
    Go function returns [s] itself while nothing changes; re-encoding an
    unchanged, validly encoded rune gives the same bytes, and an invalid
    byte counts as changed.) *)
Definition Map (mapping : Z -> Z) (s : string) : string :=
  fold_right
    (fun c acc =>
       let r := mapping c in
       if 0 <=? r then (EncodeRune r ++ acc)%string else acc)
    "" (runes (String.length s) s).

Definition isUpperASCII (c : ascii) : bool :=
  (65 <=? byteZ c) && (byteZ c <=? 90).

(** [strings.ToLower]: a byte loop for ASCII-only strings, [Map] with
    [unicode.ToLower] otherwise. *)
Definition ToLower `{unicode.CaseTables} (s : string) : string :=
  let isASCII := forallb (fun c => byteZ c <? RuneSelf) s in
  let hasUpper := existsb isUpperASCII s in
  if isASCII then
    if negb hasUpper then s
    else map (fun c => if isUpperASCII c then byte_of (byteZ c + 32) else c) s
  else Map unicode.ToLower s.

End strings.

(* ===================================================================== *)
(** ** strconv, time and context: formatting verbs and the timeout *)
(* ===================================================================== *)

Module strconv.
Import gostring.

(** The decimal digits of [u >= 0], written in front of [acc]; twenty
    turns cover every 64-bit value. *)
Fixpoint digits (fuel : nat) (u : Z) (acc : string) : string :=
  match fuel with
  | O => acc
  | S k =>
      let acc' := String (byte_of (48 + u mod 10)) acc in
      if u / 10 =? 0 then acc' else digits k (u / 10) acc'
  end.

(** [strconv.Itoa], which is what the verb [%d] prints for an [int]. *)
Definition Itoa (i : Z) : string :=
  if i <? 0 then ("-" ++ digits 20 (- i) "")%string else digits 20 i "".

End strconv.

Module time.
Import gostring.

(** Conversion to [int64]: two's complement wrap-around. *)
Definition wrap64 (x : Z) : Z := (x + 2 ^ 63) mod 2 ^ 64 - 2 ^ 63.

(** The range of Go's [int] on the 64-bit targets. *)
Definition is_int (x : Z) : Prop := - 2 ^ 63 <= x < 2 ^ 63.

(** [type Duration int64], a count of nanoseconds. *)
Definition Duration := Z.
Definition Microsecond : Duration := 1000.
Definition Millisecond : Duration := 1000000.
Definition Second : Duration := 1000000000.

(** [a * b] on [Duration] values. *)
Definition mul (a b : Duration) : Duration := wrap64 (a * b).

(** [fmtFrac]: the fraction [v mod 10^prec] without trailing zeros, with
    its decimal point, in front of [buf]; returns [v / 10^prec] too. *)
Fixpoint fmtFrac_loop (prec : nat) (buf : string) (v : Z) (print : bool)
    : string * Z * bool :=
  match prec with
  | O => (buf, v, print)
  | S k =>
      let digit := v mod 10 in
      let print := print || negb (digit =? 0) in
      let buf := if print then String (byte_of (digit + 48)) buf else buf in
      fmtFrac_loop k buf (v / 10) print
  end.

Definition fmtFrac (buf : string) (v : Z) (prec : nat) : string * Z :=
  let '(buf, v, print) := fmtFrac_loop prec buf v false in
  ((if print then "." ++ buf else buf)%string, v).

(** [fmtInt]: the decimal digits of [v] in front of [buf]. *)
Definition fmtInt (buf : string) (v : Z) : string := strconv.digits 20 v buf.

(** [Duration.String], which is what the verb [%v] prints for a
    [time.Duration]: [1h2m3.5s], [1.5ms], [0s]. *)
Definition String_ (d : Duration) : string :=
  let neg := d <? 0 in
  let u := if neg then (- d) mod 2 ^ 64 else d in
  if u =? 0 then "0s"
  else
    let body :=
      if u <? Second then
        let '(unit_, prec) :=
          if u <? Microsecond then ("ns", 0%nat)
          else if u <? Millisecond then ("µs", 3%nat)
          else ("ms", 6%nat) in
        let '(buf, u) := fmtFrac unit_ u prec in
        fmtInt buf u
      else
        let '(buf, u) := fmtFrac "s" u 9 in
        let buf := fmtInt buf (u mod 60) in
        let u := u / 60 in
        if 0 <? u then
          let buf := fmtInt ("m" ++ buf)%string (u mod 60) in
          let u := u / 60 in
          if 0 <? u then fmtInt ("h" ++ buf)%string u else buf
        else buf in
    if neg then ("-" ++ body)%string else body.

End time.

Module context.

(** The non-nil values of [ctx.Err()] once [ctx.Done()] is closed. *)
Inductive err : Type :=
  | Canceled
  | DeadlineExceeded.

Definition Error (e : err) : string :=
  match e with
  | Canceled => "context canceled"
  | DeadlineExceeded => "context deadline exceeded"
  end.

End context.

(** Go's [error] values as this package produces them: a fresh error made
    by [fmt.Errorf] from a message, or the error of the caller's context
    passed on unchanged. [nil] is [None] of [option error]. *)
Inductive error : Type :=
  | Errorf (msg : string)
  | ContextErr (e : context.err).

Definition Error (e : error) : string :=
  match e with
  | Errorf msg => msg
  | ContextErr c => context.Error c
  end.

(* ===================================================================== *)
(** ** Package bus: message shapes and the router *)
(* ===================================================================== *)

Module bus.

Module InboundMessage.
Record t : Type := {
  Channel : string;
  SenderID : string;
  ChatID : string;
  Content : string;
  Media : list string;
  SessionKey : string;
  Metadata : list (string * string)
}.
End InboundMessage.

Module OutboundMessage.
Record t : Type := {
  Channel : string;
  ChatID : string;
  Content : string
}.
End OutboundMessage.

Section Router.

(** The variables captured by interceptor closures (a counter, a log, a
    result channel): an interceptor reads and updates them when called. *)
Context {H : Type}.

(** [type InboundInterceptor func(msg InboundMessage) bool]: [true] when
    the message was consumed and should not be enqueued. *)
Definition InboundInterceptor : Type := InboundMessage.t -> H -> bool * H.

(** What the router did, in order: the observable history against which
    ordering and exactly-once properties are stated. *)
Inductive event : Type :=
  | Added (id : nat)
  | Removed (id : nat)
  | Invoked (id : nat) (consumed : bool)
  | Enqueued (msg : InboundMessage.t)
  | Sent (msg : OutboundMessage.t).

(** Modelled from the spec: the router [MessageBus] itself (its file is
    not among the sources; only its tests and its callers are).  An
    ordered chain of interceptor registrations, each under the identifier
    its remove handle closes over; a first-in-first-out default queue of
    inbound messages; the queue of outbound messages. *)
Record MessageBus : Type := {
  interceptors : list (nat * InboundInterceptor);
  nextID : nat;
  inbound : list InboundMessage.t;
  outbound : list OutboundMessage.t;
  history : list event
}.

(** Modelled from the spec: [NewMessageBus], an empty router. *)
Definition NewMessageBus : MessageBus :=
  {| interceptors := []; nextID := O; inbound := []; outbound := [];
     history := [] |}.

(** Modelled from the spec: [AddInterceptor] appends the predicate to the
    chain and returns the handle (here the identifier given to
    [removeInterceptor]). *)
Definition AddInterceptor (f : InboundInterceptor) (mb : MessageBus)
    : nat * MessageBus :=
  let id := nextID mb in
  (id,
   {| interceptors := (interceptors mb ++ [(id, f)])%list;
      nextID := S id;
      inbound := inbound mb;
      outbound := outbound mb;
      history := (history mb ++ [Added id])%list |}).

(** Modelled from the spec: invoking the handle returned by
    [AddInterceptor]; no later publish invokes the predicate again. *)
Definition removeInterceptor (id : nat) (mb : MessageBus) : MessageBus :=
  {| interceptors :=
       filter (fun e => negb (Nat.eqb (fst e) id)) (interceptors mb);
     nextID := nextID mb;
     inbound := inbound mb;
     outbound := outbound mb;
     history := (history mb ++ [Removed id])%list |}.

(** Modelled from the spec: the interceptor walk of [PublishInbound], in
    chain order, stopping at the first predicate that returns [true].
    Returns whether the message was consumed, the captured variables
    afterwards, and the calls made with their results. *)
Fixpoint intercept (chain : list (nat * InboundInterceptor))
    (msg : InboundMessage.t) (h : H) : bool * H * list (nat * bool) :=
  match chain with
  | [] => (false, h, [])
  | (id, f) :: rest =>
      let '(consumed, h1) := f msg h in
      if consumed then (true, h1, [(id, true)])
      else
        let '(c, h2, calls) := intercept rest msg h1 in
        (c, h2, (id, false) :: calls)
  end.

Definition invoked (calls : list (nat * bool)) : list event :=
  List.map (fun c => Invoked (fst c) (snd c)) calls.

(** Modelled from the spec: [PublishInbound]; a consumed message is
    dropped, any other is enqueued for the default consumer. *)
Definition PublishInbound (msg : InboundMessage.t) (mb : MessageBus) (h : H)
    : MessageBus * H :=
  let '(consumed, h', calls) := intercept (interceptors mb) msg h in
  ({| interceptors := interceptors mb;
      nextID := nextID mb;
      inbound :=
        if consumed then inbound mb else (inbound mb ++ [msg])%list;
      outbound := outbound mb;
      history :=
        (history mb ++ invoked calls ++
         (if consumed then [] else [Enqueued msg]))%list |},
   h').

(** Modelled from the spec: [ConsumeInbound] takes the oldest queued
    message; [None] is the no-message result of a cancelled wait. *)
Definition ConsumeInbound (mb : MessageBus)
    : option InboundMessage.t * MessageBus :=
  match inbound mb with
  | [] => (None, mb)
  | msg :: rest =>
      (Some msg,
       {| interceptors := interceptors mb; nextID := nextID mb;
          inbound := rest; outbound := outbound mb;
          history := history mb |})
  end.

(** Modelled from the spec: [PublishOutbound]. *)
Definition PublishOutbound (msg : OutboundMessage.t) (mb : MessageBus)
    : MessageBus :=
  {| interceptors := interceptors mb;
     nextID := nextID mb;
     inbound := inbound mb;
     outbound := (outbound mb ++ [msg])%list;
     history := (history mb ++ [Sent msg])%list |}.

(** Modelled from the spec: [SubscribeOutbound]. *)
Definition SubscribeOutbound (mb : MessageBus)
    : option OutboundMessage.t * MessageBus :=
  match outbound mb with
  | [] => (None, mb)
  | msg :: rest =>
      (Some msg,
       {| interceptors := interceptors mb; nextID := nextID mb;
          inbound := inbound mb; outbound := rest;
          history := history mb |})
  end.

(** The identifiers of the registrations, in chain order. *)
Definition ids (mb : MessageBus) : list nat := List.map fst (interceptors mb).

(** Every identifier in use was issued: it is below the next one. *)
Definition wf (mb : MessageBus) : Prop :=
  Forall (fun id => (id < nextID mb)%nat) (ids mb).

End Router.

Arguments MessageBus : clear implicits.
Arguments InboundInterceptor : clear implicits.

End bus.

(* ===================================================================== *)
(** ** Package config: the security section of the configuration *)
(* ===================================================================== *)

Module config.

(** Modelled from the spec: the declaration of [SecurityConfig] (its
    file is not among the sources).  One mode string per category, each
    configured independently, and the approval timeout in seconds; the
    field names are the ones [GetMode], [requestApproval] and the tests
    use. *)
Record SecurityConfig : Type := {
  ExecGuard : string;
  SSRFProtection : string;
  PathValidation : string;
  SkillValidation : string;
  ApprovalTimeout : Z
}.

End config.

(* ===================================================================== *)
(** ** Package security: the policy engine *)
(* ===================================================================== *)

Module security.
Import gostring bus.

(** A [case] clause of a [switch] on a string: the tag equals one of the
    listed values. *)
Definition case_ (tag : string) (values : list string) : bool :=
  List.existsb (String.eqb tag) values.

(** [type PolicyMode string]. *)
Definition PolicyMode : Type := string.
Definition ModeOff : PolicyMode := "off".
Definition ModeBlock : PolicyMode := "block".
Definition ModeApprove : PolicyMode := "approve".

Definition IsOff (m : PolicyMode) : bool :=
  (m =? "")%string || (m =? ModeOff)%string.

Module Violation.
Record t : Type := {
  Category : string;
  Tool : string;
  Action : string;
  Reason : string;
  RuleName : string
}.
End Violation.

Module ApprovalResult.
Record t : Type := {
  Approved : bool;
  Reason : string
}.
End ApprovalResult.

(** [PolicyEngine]: the configuration.  Its second field is a pointer to
    the shared router; the router's state is part of the [World] that
    every operation below reads and returns. *)
Record PolicyEngine : Type := {
  config_ : config.SecurityConfig
}.

Definition NewPolicyEngine (cfg : config.SecurityConfig) : PolicyEngine :=
  {| config_ := cfg |}.

Definition GetMode (pe : PolicyEngine) (category : string) : PolicyMode :=
  let raw : option string :=
    if case_ category ["exec_guard"] then
      Some (config.ExecGuard (config_ pe))
    else if case_ category ["ssrf"] then
      Some (config.SSRFProtection (config_ pe))
    else if case_ category ["path_validation"] then
      Some (config.PathValidation (config_ pe))
    else if case_ category ["skill_validation"] then
      Some (config.SkillValidation (config_ pe))
    else None in
  match raw with
  | None => ModeOff
  | Some raw =>
      if case_ raw [ModeBlock] then ModeBlock
      else if case_ raw [ModeApprove] then ModeApprove
      else ModeOff
  end.

(** *** Reply keywords *)

Definition isApproveKeyword (lower : string) : bool :=
  if case_ lower ["approve"; "yes"; "allow"; "ok"; "y"] then true else false.

Definition isApproveKeywordCJK (s : string) : bool :=
  if case_ s ["批准"; "允许"; "通过"; "是"; "承認"; "許可"; "はい"]
  then true else false.

Definition isDenyKeyword (lower : string) : bool :=
  if case_ lower ["deny"; "no"; "reject"; "block"; "n"] then true else false.

Definition isDenyKeywordCJK (s : string) : bool :=
  if case_ s ["拒绝"; "否决"; "不"; "拒否"; "いいえ"] then true else false.

(** *** The approval prompt *)

Definition formatApprovalMessage (v : Violation.t) (timeoutSec : Z) : string :=
  let b := "" in
  let b := b ++ "⚠️ Security Approval Required / 安全审批请求" ++ nl ++ nl in
  let b := b ++ ("Category: " ++ Violation.Category v ++ nl) in
  let b :=
    if negb (Violation.Tool v =? "")%string
    then b ++ ("Tool: " ++ Violation.Tool v ++ nl) else b in
  let b :=
    if negb (Violation.Action v =? "")%string
    then b ++ ("Action: " ++ Violation.Action v ++ nl) else b in
  let b := b ++ ("Reason: " ++ Violation.Reason v ++ nl) in
  let b :=
    if negb (Violation.RuleName v =? "")%string
    then b ++ ("Rule: " ++ Violation.RuleName v ++ nl) else b in
  let b :=
    b ++ (nl ++ "Reply " ++ dq ++ "approve" ++ dq ++ " to allow or " ++
          dq ++ "deny" ++ dq ++ " to block." ++ nl) in
  let b :=
    b ++ ("回复 " ++ dq ++ "批准" ++ dq ++ " 允许执行，回复 " ++
          dq ++ "拒绝" ++ dq ++ " 阻止执行。" ++ nl) in
  let b :=
    if 0 <? timeoutSec
    then b ++ ("Auto-deny in " ++ strconv.Itoa timeoutSec ++ " seconds." ++ nl)
    else b in
  b.

(** *** The approval cycle *)

Section Engine.

Context `{unicode.CaseTables}.

(** State captured by the interceptors that other components registered
    on the same router. *)
Context {E : Type}.

(** The variables the registered closures capture: those of the other
    registrations, and [resultCh] of the approval cycle.  [resultCh] is
    [make(chan ApprovalResult, 1)]; it is modelled by the values sent and
    not yet received, oldest first (the one-slot buffer, then the values
    of senders waiting for the slot). *)
Record vars : Type := {
  others : E;
  resultCh : list ApprovalResult.t
}.

(** The router and the captured variables: everything an approval cycle
    reads or changes. *)
Record World : Type := {
  mbus : MessageBus vars;
  captured : vars
}.

(** [resultCh <- r]. *)
Definition send (r : ApprovalResult.t) (h : vars) : vars :=
  {| others := others h; resultCh := (resultCh h ++ [r])%list |}.

(** The closure [requestApproval] registers:
    [func(msg bus.InboundMessage) bool { ... }]. *)
Definition approvalInterceptor (channel chatID : string)
    : InboundInterceptor vars :=
  fun msg h =>
    if negb (InboundMessage.Channel msg =? channel)%string
       || negb (InboundMessage.ChatID msg =? chatID)%string
    then (false, h)
    else
      let content := strings.TrimSpace (InboundMessage.Content msg) in
      let lower := strings.ToLower content in
      if isApproveKeyword lower || isApproveKeywordCJK content then
        (true,
         send {| ApprovalResult.Approved := true;
                 ApprovalResult.Reason := "" |} h)
      else if isDenyKeyword lower || isDenyKeywordCJK content then
        (true,
         send {| ApprovalResult.Approved := false;
                 ApprovalResult.Reason := "denied by user" |} h)
      else (false, h).

(** What ends the wait when no reply resolves the cycle:
    [<-time.After(timeout)] or [<-ctx.Done()], whichever comes first. *)
Inductive wake : Type :=
  | TimerFires
  | ContextDone (e : context.err).

(** The surroundings of one call, standing for its [ctx] argument and for
    the connectors that run beside it: the inbound messages published
    while the call waits, in order, and the event that ends the wait
    should none of them resolve the cycle. *)
Record Run : Type := {
  arrivals : list InboundMessage.t;
  finally : wake
}.

(** The [case result := <-resultCh] arm of the [select]: the waiting call
    takes a result as soon as one was sent; until then the connectors
    publish the next arrival. [None]: no arrival resolved the cycle. *)
Fixpoint await (msgs : list InboundMessage.t) (st : World)
    : option ApprovalResult.t * World :=
  match resultCh (captured st) with
  | result :: rest =>
      (Some result,
       {| mbus := mbus st;
          captured := {| others := others (captured st);
                         resultCh := rest |} |})
  | [] =>
      match msgs with
      | [] => (None, st)
      | msg :: more =>
          let '(mb, h) := PublishInbound msg (mbus st) (captured st) in
          await more {| mbus := mb; captured := h |}
      end
  end.

(** [time.Duration(pe.config.ApprovalTimeout) * time.Second], replaced by
    [300 * time.Second] when it is not positive. *)
Definition approvalTimeout (pe : PolicyEngine) : time.Duration :=
  let timeout :=
    time.mul (time.wrap64 (config.ApprovalTimeout (config_ pe)))
             time.Second in
  if timeout <=? 0 then 300 * time.Second else timeout.

Definition requestApproval (pe : PolicyEngine) (ctx : Run) (v : Violation.t)
    (channel chatID : string) (st : World) : option error * World :=
  (* resultCh := make(chan ApprovalResult, 1) *)
  let h := {| others := others (captured st); resultCh := [] |} in
  (* removeInterceptor := pe.bus.AddInterceptor(func ...) *)
  let '(handle, mb) :=
    AddInterceptor (approvalInterceptor channel chatID) (mbus st) in
  (* pe.bus.PublishOutbound(...) *)
  let mb :=
    PublishOutbound
      {| OutboundMessage.Channel := channel;
         OutboundMessage.ChatID := chatID;
         OutboundMessage.Content :=
           formatApprovalMessage v (config.ApprovalTimeout (config_ pe)) |}
      mb in
  let timeout := approvalTimeout pe in
  (* select *)
  let '(received, st) := await (arrivals ctx) {| mbus := mb; captured := h |} in
  let err :=
    match received with
    | Some result =>
        if ApprovalResult.Approved result then None
        else Some (Errorf ("denied by user: " ++ ApprovalResult.Reason result))
    | None =>
        match finally ctx with
        | TimerFires =>
            Some (Errorf ("approval timed out after " ++ time.String_ timeout))
        | ContextDone e => Some (ContextErr e)
        end
    end in
  (* defer removeInterceptor() *)
  (err, {| mbus := removeInterceptor handle (mbus st);
           captured := captured st |}).

Definition Evaluate (pe : PolicyEngine) (ctx : Run) (mode : PolicyMode)
    (v : Violation.t) (channel chatID : string) (st : World)
    : option error * World :=
  if IsOff mode then (None, st)
  else if (mode =? ModeBlock)%string then
    (Some (Errorf ("blocked by security policy [" ++ Violation.Category v ++
                   "]: " ++ Violation.Reason v)), st)
  else if (mode =? ModeApprove)%string then
    if (channel =? "")%string || (channel =? "cli")%string then
      (Some (Errorf ("blocked by security policy [" ++ Violation.Category v ++
                     "]: " ++ Violation.Reason v ++
                     " (approve mode unavailable in CLI)")), st)
    else requestApproval pe ctx v channel chatID st
  else (None, st).

End Engine.

Arguments vars : clear implicits.
Arguments World : clear implicits.

End security.

(* ===================================================================== *)
(** ** The vocabulary of the specification *)
(* ===================================================================== *)

Module spec.
Import gostring bus security.

(** The four fixed categories. *)
Definition categories : list string :=
  ["exec_guard"; "ssrf"; "path_validation"; "skill_validation"].

(** The string configured for each of them. *)
Definition settings (cfg : config.SecurityConfig) : list (string * string) :=
  [("exec_guard", config.ExecGuard cfg);
   ("ssrf", config.SSRFProtection cfg);
   ("path_validation", config.PathValidation cfg);
   ("skill_validation", config.SkillValidation cfg)].

(** The table of accepted reply keywords. *)
Definition approveASCII : list string := ["approve"; "yes"; "allow"; "ok"; "y"].
Definition approveExact : list string :=
  ["批准"; "允许"; "通过"; "是"; "承認"; "許可"; "はい"].
Definition denyASCII : list string := ["deny"; "no"; "reject"; "block"; "n"].
Definition denyExact : list string := ["拒绝"; "否决"; "不"; "拒否"; "いいえ"].

(** Lower case of one ASCII byte. *)
Definition asciiLower (c : ascii) : ascii :=
  if strings.isUpperASCII c then byte_of (byteZ c + 32) else c.

Definition isASCII (s : string) : bool :=
  forallb (fun c => byteZ c <? utf8.RuneSelf) s.

Section Keywords.
Context `{unicode.CaseTables}.

(** Equal up to letter case. *)
Definition ci_eq (s k : string) : Prop :=
  strings.ToLower s = strings.ToLower k.

(** A reply, already trimmed, that is an approve (deny) keyword: in the
    ASCII set up to letter case, or in the other set as written. *)
Definition approves (content : string) : Prop :=
  (exists k, In k approveASCII /\ ci_eq content k) \/ In content approveExact.

Definition denies (content : string) : Prop :=
  (exists k, In k denyASCII /\ ci_eq content k) \/ In content denyExact.

(** The message is on the channel and the chat of the cycle. *)
Definition addressed (channel chatID : string) (msg : InboundMessage.t) : Prop :=
  InboundMessage.Channel msg = channel /\ InboundMessage.ChatID msg = chatID.

(** Ordinary conversation: not an accepted reply of the cycle. *)
Definition ordinary (channel chatID : string) (msg : InboundMessage.t) : Prop :=
  ~ (addressed channel chatID msg /\
     (approves (strings.TrimSpace (InboundMessage.Content msg)) \/
      denies (strings.TrimSpace (InboundMessage.Content msg)))).

End Keywords.

(** The outcome an approve (deny) reply resolves the cycle with. *)
Definition approved : ApprovalResult.t :=
  {| ApprovalResult.Approved := true; ApprovalResult.Reason := "" |}.
Definition denied : ApprovalResult.t :=
  {| ApprovalResult.Approved := false;
     ApprovalResult.Reason := "denied by user" |}.

(** A channel with an asynchronous reply path. *)
Definition interactive (channel : string) : Prop :=
  channel <> "" /\ channel <> "cli".

(** The prompt, line by line, as the specification composes it. *)
Definition header : string := "⚠️ Security Approval Required / 安全审批请求".

Definition field (label value : string) : list string :=
  if (value =? "")%string then [] else [label ++ value].

Definition replyLine : string :=
  "Reply " ++ dq ++ "approve" ++ dq ++ " to allow or " ++
  dq ++ "deny" ++ dq ++ " to block.".

Definition replyLineExact : string :=
  "回复 " ++ dq ++ "批准" ++ dq ++ " 允许执行，回复 " ++
  dq ++ "拒绝" ++ dq ++ " 阻止执行。".

Definition autoDenyLine (timeoutSec : Z) : string :=
  "Auto-deny in " ++ strconv.Itoa timeoutSec ++ " seconds.".

Definition promptLines (v : Violation.t) (timeoutSec : Z) : list string :=
  ([header; ""; ("Category: " ++ Violation.Category v)%string] ++
   field "Tool: " (Violation.Tool v) ++
   field "Action: " (Violation.Action v) ++
   [("Reason: " ++ Violation.Reason v)%string] ++
   field "Rule: " (Violation.RuleName v) ++
   [""; replyLine; replyLineExact] ++
   (if 0 <? timeoutSec then [autoDenyLine timeoutSec] else []))%list.

(** Every line followed by a newline. *)
Fixpoint unlines (ls : list string) : string :=
  match ls with
  | [] => ""
  | l :: rest => l ++ nl ++ unlines rest
  end.

(** The outbound prompt of a cycle. *)
Definition prompt (pe : PolicyEngine) (v : Violation.t)
    (channel chatID : string) : OutboundMessage.t :=
  {| OutboundMessage.Channel := channel;
     OutboundMessage.ChatID := chatID;
     OutboundMessage.Content :=
       formatApprovalMessage v (config.ApprovalTimeout (config_ pe)) |}.

(** The chain asked from its head on, no predicate consuming: each one is
    called with the message and with the captured variables as the call
    before it left them, and answers no. *)
Inductive refused {H : Type} (msg : InboundMessage.t)
    : list (nat * InboundInterceptor H) -> H -> H -> Prop :=
  | refused_nil (h : H) : refused msg [] h h
  | refused_cons (id : nat) (f : InboundInterceptor H)
      (rest : list (nat * InboundInterceptor H)) (h h1 h2 : H) :
      f msg h = (false, h1) ->
      refused msg rest h1 h2 ->
      refused msg ((id, f) :: rest) h h2.

(** What the history shows of such a run: one refusing call each. *)
Definition refusals {H : Type} (chain : list (nat * InboundInterceptor H))
    : list event :=
  List.map (fun e => Invoked (fst e) false) chain.

(** Router events caused by inbound traffic, as opposed to registrations,
    removals and outbound messages. *)
Definition isTraffic (e : event) : Prop :=
  match e with
  | Invoked _ _ | Enqueued _ => True
  | Added _ | Removed _ | Sent _ => False
  end.

(** Configured seconds whose count of nanoseconds fits a [Duration]:
    up to 9223372036 in absolute value (some 292 years). *)
Definition representable (timeoutSec : Z) : Prop :=
  - 9223372036 <= timeoutSec <= 9223372036.

(** The timeout of a cycle is the configured number of seconds, or 300
    seconds when that number is unset (zero) or not positive.  The
    products are those of the integers, not of the machine. *)
Definition timeoutAsConfigured (pe : PolicyEngine) : Prop :=
  let t := config.ApprovalTimeout (config_ pe) in
  (0 < t -> approvalTimeout pe = t * time.Second) /\
  (t <= 0 -> approvalTimeout pe = 300 * time.Second).

Section Cycle.
Context `{unicode.CaseTables} {E : Type}.

(** The state in which [requestApproval] reaches its [select]: a fresh
    result channel, the interceptor registered, the prompt published. *)
Definition pending (pe : PolicyEngine) (v : Violation.t)
    (channel chatID : string) (st : World E) : World E :=
  {| mbus :=
       PublishOutbound (prompt pe v channel chatID)
         (snd (AddInterceptor (approvalInterceptor channel chatID) (mbus st)));
     captured := {| others := others (captured st); resultCh := [] |} |}.

(** What the [select] receives from [resultCh], if anything. *)
Definition resolution (pe : PolicyEngine) (ctx : Run) (v : Violation.t)
    (channel chatID : string) (st : World E) : option ApprovalResult.t :=
  fst (await (arrivals ctx) (pending pe v channel chatID st)).

End Cycle.

End spec.

(* ===================================================================== *)
(** ** Fixtures: a case table, messages, configurations *)
(* ===================================================================== *)

Module fixtures.
Import gostring bus security.

(** An excerpt of the Unicode lower-case table: the Latin-1 capitals,
    the Kelvin sign (to [k]) and the dotted capital I (to [i]); every
    other rune is left as it is. *)
Definition lowerExcerpt (r : Z) : Z :=
  if ((192 <=? r) && (r <=? 222)) && negb (r =? 215) then r + 32
  else if r =? 8490 then 107
  else if r =? 304 then 105
  else r.

#[global] Instance excerpt : unicode.CaseTables.
Proof.
  refine {| unicode.To_LowerCase := lowerExcerpt |}.
  intros r Hr. unfold unicode.uncased in Hr. unfold lowerExcerpt.
  destruct ((192 <=? r) && (r <=? 222)) eqn:E1; [exfalso; lia|].
  destruct (r =? 8490) eqn:E2; [exfalso; lia|].
  destruct (r =? 304) eqn:E3; [exfalso; lia|].
  reflexivity.
Defined.

Definition inbound_ (channel chatID content : string) : InboundMessage.t :=
  {| InboundMessage.Channel := channel;
     InboundMessage.SenderID := "";
     InboundMessage.ChatID := chatID;
     InboundMessage.Content := content;
     InboundMessage.Media := [];
     InboundMessage.SessionKey := "";
     InboundMessage.Metadata := [] |}.

Definition violation (category reason : string) : Violation.t :=
  {| Violation.Category := category;
     Violation.Tool := "";
     Violation.Action := "";
     Violation.Reason := reason;
     Violation.RuleName := "" |}.

(** The violation of [TestFormatApprovalMessage]. *)
Definition rmViolation : Violation.t :=
  {| Violation.Category := "exec_guard";
     Violation.Tool := "exec";
     Violation.Action := "rm -rf /tmp";
     Violation.Reason := "dangerous pattern detected";
     Violation.RuleName := "\brm\s+-[rf]" |}.

(** The configuration of [TestPolicyEngine_GetMode], with a timeout. *)
Definition engine (timeoutSec : Z) : PolicyEngine :=
  NewPolicyEngine
    {| config.ExecGuard := "block";
       config.SSRFProtection := "approve";
       config.PathValidation := "off";
       config.SkillValidation := "";
       config.ApprovalTimeout := timeoutSec |}.

(** A configuration with an unrecognised value. *)
Definition misconfigured : PolicyEngine :=
  NewPolicyEngine
    {| config.ExecGuard := "unknown";
       config.SSRFProtection := "";
       config.PathValidation := "Block";
       config.SkillValidation := "approve ";
       config.ApprovalTimeout := 0 |}.

(** The two interceptors of [TestMessageBus_MultipleInterceptors]: both
    append their name to the captured slice [order]; the second consumes
    the message "stop-at-second". *)
Definition logFirst : InboundInterceptor (list string) :=
  fun _ order => (false, (order ++ ["first"])%list).

Definition logSecond : InboundInterceptor (list string) :=
  fun msg order =>
    ((InboundMessage.Content msg =? "stop-at-second")%string,
     (order ++ ["second"])%list).

Definition twoInterceptors : MessageBus (list string) :=
  snd (AddInterceptor logSecond (snd (AddInterceptor logFirst NewMessageBus))).

(** The surroundings of a call nobody cancels: the given arrivals, then
    the timer. *)
Definition timer (msgs : list InboundMessage.t) : Run :=
  {| arrivals := msgs; finally := TimerFires |}.

(** A new router and nothing captured yet. *)
Definition fresh : World unit :=
  {| mbus := NewMessageBus;
     captured := {| others := tt; resultCh := [] |} |}.

End fixtures.

(* ===================================================================== *)
(** ** Package security, test helpers: a substring search *)
(* ===================================================================== *)

Module security_test.
Import gostring.

(** [for i := 0; i <= len(s)-len(sub); i++ { if s[i:i+len(sub)] == sub
    { return true } }]; [return false]. *)
Fixpoint containsHelper_loop (fuel : nat) (s sub : string) (i : Z) : bool :=
  match fuel with
  | O => false
  | S k =>
      if i <=? len s - len sub then
        if (slice s i (i + len sub) =? sub)%string then true
        else containsHelper_loop k s sub (i + 1)
      else false
  end.

Definition containsHelper (s sub : string) : bool :=
  containsHelper_loop (S (String.length s)) s sub 0.

Definition containsSubstring (s sub : string) : bool :=
  (len sub <=? len s) &&
  ((s =? sub)%string || ((0 <? len s) && containsHelper s sub)).

End security_test.

(* ===================================================================== *)
(** ** Package net: IP addresses as the guard sees them *)
(* ===================================================================== *)

Module net.
Import gostring.

(** [type IP []byte]. *)
Definition IP : Type := list Byte.byte.

Definition b2z (b : Byte.byte) : Z := Z.of_N (Byte.to_N b).

Definition IPv4len : nat := 4.
Definition IPv6len : nat := 16.

(** [ip[i]] as a number. *)
Definition idx (ip : IP) (i : nat) : Z := b2z (nth i ip Byte.x00).

Definition v4InV6Prefix : IP :=
  (repeat Byte.x00 10 ++ [Byte.xff; Byte.xff])%list.

(** [net.IPv4(a, b, c, d)]: the 16-byte form of an IPv4 address. *)
Definition IPv4 (a b c d : Byte.byte) : IP :=
  (v4InV6Prefix ++ [a; b; c; d])%list.

Definition IPv4zero : IP := IPv4 Byte.x00 Byte.x00 Byte.x00 Byte.x00.
Definition IPv6unspecified : IP := repeat Byte.x00 16.
Definition IPv6loopback : IP := (repeat Byte.x00 15 ++ [Byte.x01])%list.

(** [bytealg.Equal]. *)
Fixpoint bytesEqual (a b : list Byte.byte) : bool :=
  match a, b with
  | [], [] => true
  | x :: a', y :: b' => Byte.eqb x y && bytesEqual a' b'
  | _, _ => false
  end.

Definition isZeros (p : list Byte.byte) : bool :=
  List.forallb (fun b => b2z b =? 0) p.

(** [ip.To4()]: the 4-byte form of an IPv4 address, [None] for [nil]. *)
Definition To4 (ip : IP) : option IP :=
  if Nat.eqb (List.length ip) IPv4len then Some ip
  else if Nat.eqb (List.length ip) IPv6len
          && isZeros (firstn 10 ip)
          && (idx ip 10 =? 255) && (idx ip 11 =? 255)
  then Some (firstn 4 (skipn 12 ip))
  else None.

(** [ip.Equal(x)]: an IPv4 address and its 16-byte form are equal. *)
Definition Equal (ip x : IP) : bool :=
  if Nat.eqb (List.length ip) (List.length x) then bytesEqual ip x
  else if Nat.eqb (List.length ip) IPv4len && Nat.eqb (List.length x) IPv6len
  then bytesEqual (firstn 12 x) v4InV6Prefix && bytesEqual ip (skipn 12 x)
  else if Nat.eqb (List.length ip) IPv6len && Nat.eqb (List.length x) IPv4len
  then bytesEqual (firstn 12 ip) v4InV6Prefix && bytesEqual (skipn 12 ip) x
  else false.

Definition IsLoopback (ip : IP) : bool :=
  match To4 ip with
  | Some ip4 => idx ip4 0 =? 127
  | None => Equal ip IPv6loopback
  end.

Definition IsPrivate (ip : IP) : bool :=
  match To4 ip with
  | Some ip4 =>
      (idx ip4 0 =? 10)
      || ((idx ip4 0 =? 172) && (Z.land (idx ip4 1) 240 =? 16))
      || ((idx ip4 0 =? 192) && (idx ip4 1 =? 168))
  | None =>
      Nat.eqb (List.length ip) IPv6len && (Z.land (idx ip 0) 254 =? 252)
  end.

Definition IsLinkLocalUnicast (ip : IP) : bool :=
  match To4 ip with
  | Some ip4 => (idx ip4 0 =? 169) && (idx ip4 1 =? 254)
  | None =>
      Nat.eqb (List.length ip) IPv6len
      && (idx ip 0 =? 254) && (Z.land (idx ip 1) 192 =? 128)
  end.

Definition IsLinkLocalMulticast (ip : IP) : bool :=
  match To4 ip with
  | Some ip4 => (idx ip4 0 =? 224) && (idx ip4 1 =? 0) && (idx ip4 2 =? 0)
  | None =>
      Nat.eqb (List.length ip) IPv6len
      && (idx ip 0 =? 255) && (Z.land (idx ip 1) 15 =? 2)
  end.

Definition IsUnspecified (ip : IP) : bool :=
  Equal ip IPv4zero || Equal ip IPv6unspecified.

(** *** [ip.String()], which is what the verb [%s] prints for an [IP] *)

Definition hexDigit (v : Z) : ascii :=
  if v <? 10 then byte_of (48 + v) else byte_of (87 + v).

(** [appendHex]: lower-case hexadecimal without leading zeros. *)
Fixpoint hexDigits (fuel : nat) (u : Z) (acc : string) : string :=
  match fuel with
  | O => acc
  | S k =>
      let acc' := String (hexDigit (u mod 16)) acc in
      if u / 16 =? 0 then acc' else hexDigits k (u / 16) acc'
  end.

Definition appendHex (u : Z) : string := hexDigits 8 u "".

(** [hexString]: two digits per byte. *)
Fixpoint hexString (b : list Byte.byte) : string :=
  match b with
  | [] => ""
  | x :: rest =>
      String (hexDigit (b2z x / 16))
        (String (hexDigit (b2z x mod 16)) (hexString rest))
  end.

(** The eight 16-bit groups of a 16-byte address. *)
Fixpoint groups (ip : list Byte.byte) : list Z :=
  match ip with
  | hi :: lo :: rest => (b2z hi * 256 + b2z lo) :: groups rest
  | _ => []
  end.

Fixpoint leadingZeros (gs : list Z) : Z :=
  match gs with
  | g :: rest => if g =? 0 then 1 + leadingZeros rest else 0
  | [] => 0
  end.

(** The longest run of at least two zero groups, the first among equals:
    [(zeroStart, zeroEnd)], both 255 when there is none. *)
Fixpoint zeroRun (gs : list Z) (i : Z) (best : Z * Z) : Z * Z :=
  match gs with
  | [] => best
  | _ :: rest =>
      let l := leadingZeros gs in
      let best' :=
        if (2 <=? l) && (snd best - fst best <? l) then (i, i + l) else best in
      zeroRun rest (i + 1) best'
  end.

Fixpoint print6 (fuel : nat) (gs : list Z) (i zeroStart zeroEnd : Z) : string :=
  match fuel with
  | O => ""
  | S k =>
      if 8 <=? i then ""
      else if i =? zeroStart then
        "::" ++
        (if 8 <=? zeroEnd then ""
         else appendHex (nth (Z.to_nat zeroEnd) gs 0) ++
              print6 k gs (zeroEnd + 1) zeroStart zeroEnd)
      else
        (if 0 <? i then ":" else "") ++
        appendHex (nth (Z.to_nat i) gs 0) ++
        print6 k gs (i + 1) zeroStart zeroEnd
  end.

Definition String_ (ip : IP) : string :=
  if Nat.eqb (List.length ip) 0 then "<nil>"
  else if negb (Nat.eqb (List.length ip) IPv4len)
          && negb (Nat.eqb (List.length ip) IPv6len)
  then "?" ++ hexString ip
  else
    match To4 ip with
    | Some p4 =>
        strconv.Itoa (idx p4 0) ++ "." ++ strconv.Itoa (idx p4 1) ++ "." ++
        strconv.Itoa (idx p4 2) ++ "." ++ strconv.Itoa (idx p4 3)
    | None =>
        let gs := groups ip in
        let '(zs, ze) := zeroRun gs 0 (255, 255) in
        print6 9 gs 0 zs ze
    end.

End net.

(* ===================================================================== *)
(** ** Package utils: the URL guard *)
(* ===================================================================== *)

Module utils.
Import gostring.

(** What [url.Parse] hands back, as far as the guard looks at it: the
    scheme and the result of the method [Hostname()]. *)
Record URL : Type := {
  Scheme : string;
  Hostname : string
}.

(** The world outside the guard: the URL parser, the resolver and the
    address parser of the standard library.  A call either fails with an
    error or returns its value. *)
Record Env : Type := {
  url_Parse : string -> error + URL;
  net_LookupHost : string -> error + list string;
  net_ParseIP : string -> option net.IP
}.

(** [net.ParseIP("169.254.169.254")]: the address in its 16-byte form. *)
Definition metadataIP : net.IP :=
  net.IPv4 Byte.xa9 Byte.xfe Byte.xa9 Byte.xfe.

Definition validateIP (ip : net.IP) : option error :=
  if net.IsLoopback ip then
    Some (Errorf ("access to loopback address " ++ net.String_ ip ++
                  " is blocked"))
  else if net.IsPrivate ip then
    Some (Errorf ("access to private network address " ++ net.String_ ip ++
                  " is blocked"))
  else if net.IsLinkLocalUnicast ip || net.IsLinkLocalMulticast ip then
    Some (Errorf ("access to link-local address " ++ net.String_ ip ++
                  " is blocked"))
  else if net.IsUnspecified ip then
    Some (Errorf ("access to unspecified address " ++ net.String_ ip ++
                  " is blocked"))
  else if net.Equal ip metadataIP then
    Some (Errorf ("access to cloud metadata endpoint " ++ net.String_ ip ++
                  " is blocked"))
  else None.

(** The address ranges the guard is meant to refuse, on the four numbers
    of an IPv4 address [a.b.c.d]: 127.0.0.0/8, 10.0.0.0/8, 172.16.0.0/12,
    192.168.0.0/16, 169.254.0.0/16, 224.0.0.0/24 and 0.0.0.0. *)
Definition blocked4 (a b c d : Z) : Prop :=
  a = 127 \/
  a = 10 \/ (a = 172 /\ 16 <= b <= 31) \/ (a = 192 /\ b = 168) \/
  (a = 169 /\ b = 254) \/
  (a = 224 /\ b = 0 /\ c = 0) \/
  (a = 0 /\ b = 0 /\ c = 0 /\ d = 0).

(** The same for an address that is not an IPv4 one: the 16-byte
    addresses ::1 and ::, fc00::/7, fe80::/10 and the multicast addresses
    of link-local scope (ff02::, ff12::, ...). *)
Definition blocked6 (ip : net.IP) : Prop :=
  List.length ip = net.IPv6len /\
  (ip = net.IPv6loopback \/ ip = net.IPv6unspecified \/
   252 <= net.idx ip 0 <= 253 \/
   (net.idx ip 0 = 254 /\ 128 <= net.idx ip 1 <= 191) \/
   (net.idx ip 0 = 255 /\ net.idx ip 1 mod 16 = 2)).

(** The kinds of address named by the errors of [validateIP]. *)
Definition kinds : list string :=
  ["loopback"; "private network"; "link-local"; "unspecified"].

(** The host names refused before any resolution, in lower case. *)
Definition localNames : list string :=
  ["localhost"; "ip6-localhost"; "ip6-loopback"].

Section Guard.
Context `{unicode.CaseTables}.
Variable env : Env.

(** [for _, ipStr := range ips { ... }]: an entry that does not parse is
    skipped, the first address that fails the check ends the loop. *)
Fixpoint checkAddresses (ips : list string) : option error :=
  match ips with
  | [] => None
  | ipStr :: rest =>
      match net_ParseIP env ipStr with
      | None => checkAddresses rest
      | Some ip =>
          match validateIP ip with
          | Some err => Some err
          | None => checkAddresses rest
          end
      end
  end.

Definition ValidateURL (urlStr : string) : option error :=
  match url_Parse env urlStr with
  | inl err => Some (Errorf ("invalid URL: " ++ Error err))
  | inr parsedURL =>
      if negb (Scheme parsedURL =? "http")%string
         && negb (Scheme parsedURL =? "https")%string
      then Some (Errorf ("only http/https URLs are allowed, got: " ++
                         Scheme parsedURL))
      else
        let host := Hostname parsedURL in
        if (host =? "")%string then Some (Errorf "missing host in URL")
        else
          let lowerHost := strings.ToLower host in
          if (lowerHost =? "localhost")%string
             || (lowerHost =? "ip6-localhost")%string
             || (lowerHost =? "ip6-loopback")%string
          then Some (Errorf "access to localhost is blocked")
          else
            match net_LookupHost env host with
            | inr ips => checkAddresses ips
            | inl err =>
                match net_ParseIP env host with
                | None =>
                    Some (Errorf ("failed to resolve host: " ++ Error err))
                | Some ip => checkAddresses [net.String_ ip]
                end
            end
  end.

End Guard.

End utils.

(* ===================================================================== *)
(** ** Package path/filepath, as on Unix *)
(* ===================================================================== *)

Module filepath.
Import gostring.

(** [os.IsPathSeparator], on a byte given as a number. *)
Definition isSep (c : Z) : bool := c =? 47.

Definition IsAbs (path : string) : bool := HasPrefix path "/".

(** The inner loop of a [..] element, entered after [out.w--]:
    [for out.w > dotdot && !os.IsPathSeparator(out.index(out.w)) { out.w-- }]. *)
Fixpoint backtrack (fuel : nat) (out : string) (w dotdot : Z) : Z :=
  match fuel with
  | O => w
  | S k =>
      if (dotdot <? w) && negb (isSep (at_ out w))
      then backtrack k out (w - 1) dotdot
      else w
  end.

(** [for ; r < n && !os.IsPathSeparator(path[r]); r++]: the end of the
    element that starts at [r]. *)
Fixpoint elemEnd (fuel : nat) (path : string) (r : Z) : Z :=
  match fuel with
  | O => r
  | S k =>
      if (r <? len path) && negb (isSep (at_ path r))
      then elemEnd k path (r + 1)
      else r
  end.

(** The main loop of [Clean]: [r] is the next byte to read, [out] what
    was written ([out.w] is its length), [dotdot] the index where [..]
    must stop. *)
Fixpoint Clean_loop (fuel : nat) (path : string) (rooted : bool) (r : Z)
    (out : string) (dotdot : Z) : string :=
  match fuel with
  | O => out
  | S k =>
      let n := len path in
      let w := len out in
      if n <=? r then out
      else if isSep (at_ path r) then
        Clean_loop k path rooted (r + 1) out dotdot
      else if (at_ path r =? 46)
              && ((r + 1 =? n) || isSep (at_ path (r + 1))) then
        Clean_loop k path rooted (r + 1) out dotdot
      else if (at_ path r =? 46) && (at_ path (r + 1) =? 46)
              && ((r + 2 =? n) || isSep (at_ path (r + 2))) then
        if dotdot <? w then
          let w' := backtrack (String.length out) out (w - 1) dotdot in
          Clean_loop k path rooted (r + 2) (slice out 0 w') dotdot
        else if negb rooted then
          let out' := (if 0 <? w then out ++ "/" else out) ++ ".." in
          Clean_loop k path rooted (r + 2) out' (len out')
        else Clean_loop k path rooted (r + 2) out dotdot
      else
        let out' :=
          if (rooted && negb (w =? 1)) || (negb rooted && negb (w =? 0))
          then out ++ "/" else out in
        let e := elemEnd (String.length path) path r in
        Clean_loop k path rooted e (out' ++ slice path r e) dotdot
  end.

(** [filepath.Clean]. *)
Definition Clean (path : string) : string :=
  if (path =? "")%string then "."
  else
    let rooted := isSep (at_ path 0) in
    let out :=
      if rooted
      then Clean_loop (String.length path) path rooted 1 "/" 1
      else Clean_loop (String.length path) path rooted 0 "" 0 in
    if len out =? 0 then "." else out.

(** [strings.Join(elem, "/")]. *)
Fixpoint joinSlash (elem : list string) : string :=
  match elem with
  | [] => ""
  | [e] => e
  | e :: rest => e ++ "/" ++ joinSlash rest
  end.

(** [filepath.Join]: the elements from the first non-empty one on,
    joined and cleaned; the empty string when all are empty. *)
Fixpoint Join (elem : list string) : string :=
  match elem with
  | [] => ""
  | e :: rest =>
      if (e =? "")%string then Join rest else Clean (joinSlash elem)
  end.

(** The index of the last separator of [path[0:i+1]], or [-1]:
    [for i >= 0 && !os.IsPathSeparator(path[i]) { i-- }]. *)
Fixpoint lastSep (fuel : nat) (path : string) (i : Z) : Z :=
  match fuel with
  | O => i
  | S k =>
      if (0 <=? i) && negb (isSep (at_ path i))
      then lastSep k path (i - 1)
      else i
  end.

(** [filepath.Dir]. *)
Definition Dir (path : string) : string :=
  let i := lastSep (String.length path) path (len path - 1) in
  Clean (slice path 0 (i + 1)).

(** [for len(path) > 0 && os.IsPathSeparator(path[len(path)-1])
    { path = path[0 : len(path)-1] }]. *)
Fixpoint stripSlashes (fuel : nat) (path : string) : string :=
  match fuel with
  | O => path
  | S k =>
      if (0 <? len path) && isSep (at_ path (len path - 1))
      then stripSlashes k (slice path 0 (len path - 1))
      else path
  end.

(** [filepath.Base]. *)
Definition Base (path : string) : string :=
  if (path =? "")%string then "."
  else
    let path := stripSlashes (String.length path) path in
    let i := lastSep (String.length path) path (len path - 1) in
    let path := if 0 <=? i then slice path (i + 1) (len path) else path in
    if (path =? "")%string then "/" else path.

End filepath.

(* ===================================================================== *)
(** ** Package tools: the workspace check of the file tools *)
(* ===================================================================== *)

Module tools.
Import gostring.

(** The file system beside the program: the working directory and the
    resolution of symbolic links, each failing with an error or
    returning a path. *)
Record FS : Type := {
  os_Getwd : error + string;
  EvalSymlinks : string -> error + string
}.

(** [filepath.Abs], as on Unix. *)
Definition Abs (fs : FS) (path : string) : error + string :=
  if filepath.IsAbs path then inr (filepath.Clean path)
  else
    match os_Getwd fs with
    | inl err => inl err
    | inr wd => inr (filepath.Join [wd; path])
    end.

Definition validatePath (fs : FS) (path workspace : string) (restrict : bool)
    : string * option error :=
  if (workspace =? "")%string then (path, None)
  else
    match Abs fs workspace with
    | inl err =>
        ("", Some (Errorf ("failed to resolve workspace path: " ++ Error err)))
    | inr absWorkspace =>
        let absPath : error + string :=
          if filepath.IsAbs path then inr (filepath.Clean path)
          else Abs fs (filepath.Join [absWorkspace; path]) in
        match absPath with
        | inl err =>
            ("", Some (Errorf ("failed to resolve file path: " ++ Error err)))
        | inr absPath =>
            if restrict then
              let realWorkspace :=
                match EvalSymlinks fs absWorkspace with
                | inr resolved => resolved
                | inl _ => absWorkspace
                end in
              let workspacePrefix := filepath.Clean realWorkspace ++ "/" in
              let realPath :=
                match EvalSymlinks fs absPath with
                | inr resolved => resolved
                | inl _ =>
                    match EvalSymlinks fs (filepath.Dir absPath) with
                    | inr resolved =>
                        filepath.Join [resolved; filepath.Base absPath]
                    | inl _ => absPath
                    end
                end in
              if negb (realPath =? filepath.Clean realWorkspace)%string
                 && negb (HasPrefix (realPath ++ "/") workspacePrefix)
                 && negb (HasPrefix realPath workspacePrefix)
              then
                ("", Some (Errorf "access denied: path is outside the workspace"))
              else (realPath, None)
            else (absPath, None)
        end
    end.

(** The names of the intermediate results, as the function calls them:
    the workspace and the target with their symbolic links resolved (for a
    target that does not exist, those of its directory), and the target
    made absolute. *)
Definition realWorkspace (fs : FS) (absWorkspace : string) : string :=
  match EvalSymlinks fs absWorkspace with
  | inr resolved => resolved
  | inl _ => absWorkspace
  end.

Definition realPath (fs : FS) (absPath : string) : string :=
  match EvalSymlinks fs absPath with
  | inr resolved => resolved
  | inl _ =>
      match EvalSymlinks fs (filepath.Dir absPath) with
      | inr resolved => filepath.Join [resolved; filepath.Base absPath]
      | inl _ => absPath
      end
  end.

Definition absPath (fs : FS) (absWorkspace path : string) : error + string :=
  if filepath.IsAbs path then inr (filepath.Clean path)
  else Abs fs (filepath.Join [absWorkspace; path]).

(** [p] is the directory [root] or lies below it. *)
Definition inside (root p : string) : Prop :=
  p = root \/ exists rest, p = root ++ "/" ++ rest.

Definition denied : string * option error :=
  ("", Some (Errorf "access denied: path is outside the workspace")).

End tools.

(* ===================================================================== *)
(** ** A parser, a resolver and file systems with fixed answers *)
(* ===================================================================== *)

Module stubs.
Import gostring.

Definition public : net.IP := net.IPv4 Byte.x5d Byte.xb8 Byte.xd8 Byte.x22.
Definition internal : net.IP := net.IPv4 Byte.x0a Byte.x00 Byte.x00 Byte.x07.

(** Two URLs parse; [example.com] resolves to a public address and to an
    entry that is no address, [intranet.example] to a public and to a
    private address; no other name resolves. *)
Definition resolver : utils.Env :=
  {| utils.url_Parse := fun urlStr =>
       if (urlStr =? "http://example.com/")%string then
         inr {| utils.Scheme := "http"; utils.Hostname := "example.com" |}
       else if (urlStr =? "https://intranet.example/")%string then
         inr {| utils.Scheme := "https"; utils.Hostname := "intranet.example" |}
       else inl (Errorf "parse error");
     utils.net_LookupHost := fun host =>
       if (host =? "example.com")%string then
         inr ["93.184.216.34"; "example.com."]
       else if (host =? "intranet.example")%string then
         inr ["93.184.216.34"; "10.0.0.7"]
       else inl (Errorf "no such host");
     utils.net_ParseIP := fun s =>
       if (s =? "93.184.216.34")%string then Some public
       else if (s =? "10.0.0.7")%string then Some internal
       else None |}.

(** A file system without symbolic links in which every path exists:
    [EvalSymlinks] returns its argument, cleaned. *)
Definition plain (wd : string) : tools.FS :=
  {| tools.os_Getwd := inr wd;
     tools.EvalSymlinks := fun path => inr (filepath.Clean path) |}.

(** The same with one symbolic link, [/ws/out], that leads to [/etc]. *)
Definition linked : tools.FS :=
  {| tools.os_Getwd := inr "/home/user";
     tools.EvalSymlinks := fun path =>
       if (path =? "/ws/out")%string then inr "/etc"
       else if (path =? "/ws/out/passwd")%string then inr "/etc/passwd"
       else inr (filepath.Clean path) |}.

(** A process whose working directory can no longer be named. *)
Definition lost : tools.FS :=
  {| tools.os_Getwd := inl (Errorf "getwd: no such file or directory");
     tools.EvalSymlinks := fun path => inr (filepath.Clean path) |}.

End stubs.

(* ===================================================================== *)
(** ** Facts about byte strings *)
(* ===================================================================== *)

Section StringFacts.
Import gostring.

Lemma sapp_nil_r (s : string) : s ++ "" = s.
Proof. induction s as [|c s IH]; simpl; [reflexivity | now rewrite IH]. Qed.

Lemma sapp_assoc (a b c : string) : (a ++ b) ++ c = a ++ (b ++ c).
Proof. induction a as [|x a IH]; simpl; [reflexivity | now rewrite IH]. Qed.

Lemma Occurs_mid (pre s post : string) : Occurs s (pre ++ s ++ post).
Proof. now exists pre, post. Qed.

Lemma Occurs_refl (s : string) : Occurs s s.
Proof. exists "", "". simpl. now rewrite sapp_nil_r. Qed.

Lemma Occurs_app_l (x a b : string) : Occurs x a -> Occurs x (a ++ b).
Proof.
  intros (pre & post & ->). exists pre, (post ++ b).
  now rewrite !sapp_assoc.
Qed.

Lemma Occurs_app_r (x a b : string) : Occurs x b -> Occurs x (a ++ b).
Proof.
  intros (pre & post & ->). exists (a ++ pre), post.
  now rewrite !sapp_assoc.
Qed.

Lemma Occurs_cons (x : string) (c : ascii) (s : string) :
  Occurs x s -> Occurs x (String c s).
Proof. intros Hx. apply (Occurs_app_r x (String c "") s Hx). Qed.

Lemma Occurs_trans (x y z : string) : Occurs x y -> Occurs y z -> Occurs x z.
Proof.
  intros Hxy (pre & post & ->).
  apply Occurs_app_r, Occurs_app_l, Hxy.
Qed.

Lemma HasPrefix_iff (s p : string) :
  HasPrefix s p = true <-> exists t, s = p ++ t.
Proof.
  revert s. induction p as [|a p IH]; intros [|b s]; simpl.
  - split; [intros _; now exists "" | reflexivity].
  - split; [intros _; now exists (String b s) | reflexivity].
  - split; [discriminate | intros (t & Ht); discriminate].
  - rewrite andb_true_iff, IH. split.
    + intros (Hab & t & ->). apply Ascii.eqb_eq in Hab as ->. now exists t.
    + intros (t & Ht). injection Ht as -> ->.
      split; [apply Ascii.eqb_refl | now exists t].
Qed.

(** [strings.Contains] decides [Occurs]. *)
Lemma Contains_iff (s sub : string) : Contains s sub = true <-> Occurs sub s.
Proof.
  induction s as [|c s IH].
  - cbn [Contains]. rewrite orb_false_r, HasPrefix_iff. split.
    + intros (t & ->). apply Occurs_app_l, Occurs_refl.
    + intros (pre & post & Heq). destruct pre; [|discriminate].
      now exists post.
  - cbn [Contains]. rewrite orb_true_iff, HasPrefix_iff, IH. split.
    + intros [(t & ->) | Hs].
      * apply Occurs_app_l, Occurs_refl.
      * now apply Occurs_cons.
    + intros (pre & post & Heq). destruct pre as [|a pre].
      * left. now exists post.
      * right. injection Heq as _ ->. apply Occurs_mid.
Qed.

Lemma Contains_false (s sub : string) : Contains s sub = false -> ~ Occurs sub s.
Proof. intros Hc Ho. apply Contains_iff in Ho. congruence. Qed.

End StringFacts.

(** Finds [x] inside a concatenation by walking its pieces. *)
Ltac occurs :=
  repeat first
    [ apply Occurs_refl
    | apply Occurs_app_l; apply Occurs_refl
    | apply Occurs_app_r
    | apply Occurs_cons ].

(* ===================================================================== *)
(** ** Mode lookup and the synchronous branches of Evaluate *)
(* ===================================================================== *)

Section Modes.
Import gostring bus security spec.

Lemma case_In (tag : string) (values : list string) :
  case_ tag values = true <-> In tag values.
Proof.
  unfold case_. rewrite existsb_exists. split.
  - intros (x & Hin & Heq). apply String.eqb_eq in Heq. now subst.
  - intros Hin. exists tag. split; [assumption | apply String.eqb_refl].
Qed.

Lemma case_single (tag value : string) :
  case_ tag [value] = (tag =? value)%string.
Proof. unfold case_. simpl. now rewrite orb_false_r. Qed.

(** C7. Mode lookup answers off for every category outside the fixed
    set, and for every category of the set whose configured string is
    neither "block" nor "approve" (the empty string and "unknown"
    included). *)
Theorem GetMode_falls_back_to_off (pe : PolicyEngine) (category : string) :
  (~ In category categories -> GetMode pe category = ModeOff) /\
  (forall raw,
      In (category, raw) (settings (config_ pe)) ->
      raw <> "block" -> raw <> "approve" ->
      GetMode pe category = ModeOff).
Proof.
  unfold GetMode, categories, settings. rewrite !case_single. split.
  - intros Hout.
    destruct (String.eqb_spec category "exec_guard") as [->|_];
      [exfalso; apply Hout; simpl; tauto|].
    destruct (String.eqb_spec category "ssrf") as [->|_];
      [exfalso; apply Hout; simpl; tauto|].
    destruct (String.eqb_spec category "path_validation") as [->|_];
      [exfalso; apply Hout; simpl; tauto|].
    destruct (String.eqb_spec category "skill_validation") as [->|_];
      [exfalso; apply Hout; simpl; tauto|].
    reflexivity.
  - intros raw Hin Hb Ha.
    assert (Hraw : (if (raw =? ModeBlock)%string then ModeBlock
                    else if (raw =? ModeApprove)%string then ModeApprove
                    else ModeOff) = ModeOff).
    { destruct (String.eqb_spec raw ModeBlock); [contradiction|].
      destruct (String.eqb_spec raw ModeApprove); [contradiction|].
      reflexivity. }
    simpl in Hin.
    destruct Hin as [Heq|[Heq|[Heq|[Heq|[]]]]]; injection Heq as <- <-;
      cbn; rewrite ?orb_false_r; exact Hraw.
Qed.

End Modes.

(** C7 at work: an unknown category, and the four categories configured
    with "unknown", "", "Block" and "approve " (trailing blank). *)
Lemma GetMode_falls_back_to_off_witness :
  security.GetMode fixtures.misconfigured "unknown_category" = security.ModeOff /\
  security.GetMode fixtures.misconfigured "exec_guard" = security.ModeOff /\
  security.GetMode fixtures.misconfigured "ssrf" = security.ModeOff.
Proof.
  split; [|split].
  - apply (proj1 (GetMode_falls_back_to_off fixtures.misconfigured
                    "unknown_category")).
    simpl. intuition discriminate.
  - apply (proj2 (GetMode_falls_back_to_off fixtures.misconfigured
                    "exec_guard") "unknown"); [simpl; tauto | discriminate ..].
  - apply (proj2 (GetMode_falls_back_to_off fixtures.misconfigured "ssrf") "");
      [simpl; tauto | discriminate ..].
Defined.

Section Synchronous.
Import gostring bus security spec.
Context `{unicode.CaseTables} {E : Type}.
Implicit Types (pe : PolicyEngine) (ctx : Run) (v : Violation.t)
  (st : World E).

(** Off mode, and the zero value of [PolicyMode], allow without touching
    the router. *)
Lemma Evaluate_off pe ctx mode v channel chatID st :
  mode = "" \/ mode = "off" ->
  Evaluate pe ctx mode v channel chatID st = (None, st).
Proof. intros [-> | ->]; reflexivity. Qed.

(** C8. In block mode Evaluate fails for every violation, channel and
    chat identifier, and the message of the failure contains the
    violation's category and its reason. *)
Theorem Evaluate_block_fails pe ctx v channel chatID st :
  exists msg,
    Evaluate pe ctx ModeBlock v channel chatID st = (Some (Errorf msg), st) /\
    Occurs (Violation.Category v) msg /\
    Occurs (Violation.Reason v) msg /\
    Contains msg (Violation.Category v) = true /\
    Contains msg (Violation.Reason v) = true.
Proof.
  eexists. split; [reflexivity|].
  assert (Hc : Occurs (Violation.Category v)
                 ("blocked by security policy [" ++ Violation.Category v ++
                  "]: " ++ Violation.Reason v)) by occurs.
  assert (Hr : Occurs (Violation.Reason v)
                 ("blocked by security policy [" ++ Violation.Category v ++
                  "]: " ++ Violation.Reason v)) by occurs.
  rewrite !Contains_iff. tauto.
Qed.

(** C6. In approve mode with an empty channel or the channel "cli",
    Evaluate fails for every violation and chat identifier with a message
    that mentions unavailability, and it returns the router as it found
    it: nothing published, nothing registered. *)
Theorem Evaluate_approve_unavailable pe ctx v channel chatID st :
  channel = "" \/ channel = "cli" ->
  exists msg,
    Evaluate pe ctx ModeApprove v channel chatID st = (Some (Errorf msg), st) /\
    Occurs "unavailable" msg /\
    Occurs (Violation.Category v) msg /\
    Occurs (Violation.Reason v) msg.
Proof.
  intros Hch.
  exists ("blocked by security policy [" ++ Violation.Category v ++
          "]: " ++ Violation.Reason v ++ " (approve mode unavailable in CLI)").
  split; [destruct Hch as [-> | ->]; reflexivity|].
  split; [|split]; [|occurs ..].
  do 4 apply Occurs_app_r.
  exists " (approve mode ", " in CLI)". reflexivity.
Qed.

(** C10. A mode value that is none of "", "off", "block", "approve"
    reaches the default branch: Evaluate allows and leaves the router
    untouched, whatever the violation, channel and chat identifier. *)
Theorem Evaluate_unrecognised_mode_allows pe ctx mode v channel chatID st :
  mode <> "" -> mode <> "off" -> mode <> "block" -> mode <> "approve" ->
  Evaluate pe ctx mode v channel chatID st = (None, st).
Proof.
  intros H0 H1 H2 H3. unfold Evaluate, IsOff, ModeOff, ModeBlock, ModeApprove.
  destruct (String.eqb_spec mode ""); [contradiction|].
  destruct (String.eqb_spec mode "off"); [contradiction|].
  destruct (String.eqb_spec mode "block"); [contradiction|].
  destruct (String.eqb_spec mode "approve"); [contradiction|].
  reflexivity.
Qed.

End Synchronous.

(** C6 at work: the call of [TestPolicyEngine_Evaluate_Approve_CLIFallback],
    and the same with no channel at all. *)
Lemma Evaluate_approve_unavailable_witness :
  (exists msg,
     security.Evaluate (fixtures.engine 5)
       {| security.arrivals := []; security.finally := security.TimerFires |}
       security.ModeApprove (fixtures.violation "exec_guard" "test")
       "cli" "direct" fixtures.fresh
     = (Some (Errorf msg), fixtures.fresh) /\
     gostring.Occurs "unavailable" msg /\
     gostring.Occurs "exec_guard" msg /\
     gostring.Occurs "test" msg) /\
  fst (security.Evaluate (fixtures.engine 5)
         {| security.arrivals := []; security.finally := security.TimerFires |}
         security.ModeApprove (fixtures.violation "exec_guard" "test")
         "" "direct" fixtures.fresh)
  = Some (Errorf
      "blocked by security policy [exec_guard]: test (approve mode unavailable in CLI)").
Proof.
  split.
  - apply (Evaluate_approve_unavailable (fixtures.engine 5)
             {| security.arrivals := []; security.finally := security.TimerFires |}
             (fixtures.violation "exec_guard" "test") "cli" "direct"
             fixtures.fresh).
    right. reflexivity.
  - reflexivity.
Defined.

(** C10 at work: the mode "unknown" of [TestPolicyMode_IsOff], handed to
    Evaluate directly. *)
Lemma Evaluate_unrecognised_mode_allows_witness :
  security.Evaluate (fixtures.engine 5)
    {| security.arrivals := []; security.finally := security.TimerFires |}
    "unknown" (fixtures.violation "exec_guard" "test")
    "telegram" "chat1" fixtures.fresh
  = (None, fixtures.fresh).
Proof.
  apply (Evaluate_unrecognised_mode_allows (fixtures.engine 5)
           {| security.arrivals := []; security.finally := security.TimerFires |}
           "unknown" (fixtures.violation "exec_guard" "test")
           "telegram" "chat1" fixtures.fresh); discriminate.
Defined.

(* ===================================================================== *)
(** ** The approval prompt *)
(* ===================================================================== *)

Section Prompt.
Import gostring bus security spec.

Lemma unlines_app (xs ys : list string) :
  unlines (xs ++ ys) = unlines xs ++ unlines ys.
Proof.
  induction xs as [|x xs IH]; simpl; [reflexivity|].
  now rewrite IH, !sapp_assoc.
Qed.

(** A line of the prompt occurs in its text, newline included. *)
Lemma Occurs_unlines (l : string) (ls : list string) :
  In l ls -> Occurs (l ++ nl) (unlines ls).
Proof.
  induction ls as [|x ls IH]; cbn [unlines In]; [tauto|].
  intros [-> | Hin].
  - rewrite <- sapp_assoc. apply Occurs_app_l, Occurs_refl.
  - apply Occurs_app_r, Occurs_app_r, IH, Hin.
Qed.

Lemma Occurs_in_line (x l : string) (ls : list string) :
  In l ls -> Occurs x l -> Occurs x (unlines ls).
Proof.
  intros Hin Hx. apply (Occurs_trans x (l ++ nl)).
  - now apply Occurs_app_l.
  - now apply Occurs_unlines.
Qed.

(** The builder of [formatApprovalMessage] writes exactly the lines of
    the specification. *)
Lemma formatApprovalMessage_lines (v : Violation.t) (timeoutSec : Z) :
  formatApprovalMessage v timeoutSec = unlines (promptLines v timeoutSec).
Proof.
  unfold formatApprovalMessage, promptLines, field.
  rewrite !unlines_app.
  destruct (Violation.Tool v =? "")%string;
    destruct (Violation.Action v =? "")%string;
    destruct (Violation.RuleName v =? "")%string;
    destruct (0 <? timeoutSec);
    unfold header, replyLine, replyLineExact, autoDenyLine, nl, dq;
    repeat (progress (rewrite ?sapp_assoc, ?sapp_nil_r; simpl));
    reflexivity.
Qed.

Lemma In_field (label value : string) :
  value <> "" -> In (label ++ value) (field label value).
Proof.
  intros Hne. unfold field.
  destruct (String.eqb_spec value ""); [contradiction | now left].
Qed.

(** C9. The prompt body is made of: the header announcing an approval
    request; the category; the tool name, the attempted action and the
    rule identifier, each when present; the reason; the instruction lines
    naming reply keywords of the ASCII and of the non-Latin set; and, if
    and only if the timeout is positive, a last line stating the
    auto-deny delay in seconds. *)
Theorem formatApprovalMessage_content (v : Violation.t) (timeoutSec : Z) :
  let body := formatApprovalMessage v timeoutSec in
  body = unlines (promptLines v timeoutSec) /\
  HasPrefix body header = true /\
  Occurs "Approval Required" body /\
  Occurs ("Category: " ++ Violation.Category v ++ nl) body /\
  (Violation.Tool v <> "" -> Occurs ("Tool: " ++ Violation.Tool v ++ nl) body) /\
  (Violation.Action v <> "" ->
   Occurs ("Action: " ++ Violation.Action v ++ nl) body) /\
  Occurs ("Reason: " ++ Violation.Reason v ++ nl) body /\
  (Violation.RuleName v <> "" ->
   Occurs ("Rule: " ++ Violation.RuleName v ++ nl) body) /\
  (Occurs (replyLine ++ nl) body /\ Occurs (replyLineExact ++ nl) body /\
   Occurs "approve" replyLine /\ isApproveKeyword "approve" = true /\
   Occurs "deny" replyLine /\ isDenyKeyword "deny" = true /\
   Occurs "批准" replyLineExact /\ isApproveKeywordCJK "批准" = true /\
   Occurs "拒绝" replyLineExact /\ isDenyKeywordCJK "拒绝" = true) /\
  (0 < timeoutSec ->
   body = formatApprovalMessage v 0 ++
          "Auto-deny in " ++ strconv.Itoa timeoutSec ++ " seconds." ++ nl) /\
  (timeoutSec <= 0 -> body = formatApprovalMessage v 0) /\
  (exists before,
     formatApprovalMessage v 0 = before ++ replyLine ++ nl ++ replyLineExact ++ nl).
Proof.
  cbv zeta. rewrite !formatApprovalMessage_lines.
  pose proof (fun l => Occurs_unlines l (promptLines v timeoutSec)) as Hline.
  split; [reflexivity|].
  split; [reflexivity|].
  split.
  { apply (Occurs_in_line _ header); [now left|].
    apply Contains_iff. reflexivity. }
  split; [rewrite <- sapp_assoc; apply Hline; simpl; tauto|].
  split.
  { intros Hne. rewrite <- sapp_assoc. apply Hline. unfold promptLines.
    rewrite !in_app_iff. right. left. now apply In_field. }
  split.
  { intros Hne. rewrite <- sapp_assoc. apply Hline. unfold promptLines.
    rewrite !in_app_iff. right. right. left. now apply In_field. }
  split.
  { rewrite <- sapp_assoc. apply Hline. unfold promptLines.
    rewrite !in_app_iff. do 3 right. left. now left. }
  split.
  { intros Hne. rewrite <- sapp_assoc. apply Hline. unfold promptLines.
    rewrite !in_app_iff. do 4 right. left. now apply In_field. }
  split.
  { split; [|split].
    - apply Hline. unfold promptLines. rewrite !in_app_iff.
      do 5 right. left. simpl. tauto.
    - apply Hline. unfold promptLines. rewrite !in_app_iff.
      do 5 right. left. simpl. tauto.
    - repeat split; try reflexivity; apply Contains_iff; reflexivity. }
  split.
  { intros Hpos. apply Z.ltb_lt in Hpos as Hpos'.
    assert (Hl : promptLines v timeoutSec =
                 (promptLines v 0 ++ [autoDenyLine timeoutSec])%list).
    { unfold promptLines. rewrite Hpos'. cbn [Z.ltb Z.compare].
      rewrite app_nil_r, <- !app_assoc. reflexivity. }
    rewrite Hl, unlines_app. cbn [unlines]. unfold autoDenyLine.
    rewrite ?sapp_assoc, ?sapp_nil_r. reflexivity. }
  split.
  { intros Hle. unfold promptLines.
    assert (Hltb : (0 <? timeoutSec) = false) by (apply Z.ltb_ge; lia).
    rewrite Hltb. reflexivity. }
  unfold promptLines. cbn [Z.ltb Z.compare].
  rewrite !app_assoc, app_nil_r.
  match goal with
  | |- context [unlines (?xs ++ [""; replyLine; replyLineExact])%list] =>
      exists (unlines xs ++ nl); rewrite unlines_app
  end.
  cbn [unlines]. rewrite ?sapp_assoc, ?sapp_nil_r. reflexivity.
Qed.

End Prompt.

(** C9 at work: the violation of [TestFormatApprovalMessage] with a
    timeout of 300 seconds, and a violation without optional fields and
    without a timeout. *)
Lemma formatApprovalMessage_content_witness :
  gostring.Occurs ("Tool: exec" ++ gostring.nl)
    (security.formatApprovalMessage fixtures.rmViolation 300) /\
  security.formatApprovalMessage fixtures.rmViolation 300 =
    security.formatApprovalMessage fixtures.rmViolation 0 ++
    "Auto-deny in 300 seconds." ++ gostring.nl /\
  security.formatApprovalMessage (fixtures.violation "ssrf" "private IP") (-1) =
    security.formatApprovalMessage (fixtures.violation "ssrf" "private IP") 0.
Proof.
  split; [|split].
  - apply (formatApprovalMessage_content fixtures.rmViolation 300).
    discriminate.
  - apply (formatApprovalMessage_content fixtures.rmViolation 300).
    reflexivity.
  - apply (formatApprovalMessage_content
             (fixtures.violation "ssrf" "private IP") (-1)).
    discriminate.
Defined.

(** [TestFormatApprovalMessage]: every checked fragment is in the text. *)
Example TestFormatApprovalMessage :
  List.forallb
    (gostring.Contains (security.formatApprovalMessage fixtures.rmViolation 300))
    ["Approval Required"; "exec_guard"; "exec"; "rm -rf /tmp";
     "dangerous pattern"; "300 seconds"; "approve"; "deny"; "批准"; "拒绝"]
  = true.
Proof. vm_compute. reflexivity. Qed.

(* ===================================================================== *)
(** ** Reply keywords and the interceptor of an approval cycle *)
(* ===================================================================== *)

Section Keywords.
Import gostring bus security spec.
Context `{unicode.CaseTables}.

(** The keyword switches are membership in the tables. *)
Lemma isApproveKeyword_In s : isApproveKeyword s = true <-> In s approveASCII.
Proof. unfold isApproveKeyword. rewrite <- case_In. now destruct case_. Qed.

Lemma isApproveKeywordCJK_In s :
  isApproveKeywordCJK s = true <-> In s approveExact.
Proof. unfold isApproveKeywordCJK. rewrite <- case_In. now destruct case_. Qed.

Lemma isDenyKeyword_In s : isDenyKeyword s = true <-> In s denyASCII.
Proof. unfold isDenyKeyword. rewrite <- case_In. now destruct case_. Qed.

Lemma isDenyKeywordCJK_In s : isDenyKeywordCJK s = true <-> In s denyExact.
Proof. unfold isDenyKeywordCJK. rewrite <- case_In. now destruct case_. Qed.

(** [strings.Map] only looks at the runes of its argument. *)
Lemma Map_ext_in (f g : Z -> Z) (s : string) :
  (forall r, In r (strings.runes (String.length s) s) -> f r = g r) ->
  strings.Map f s = strings.Map g s.
Proof.
  unfold strings.Map.
  induction (strings.runes (String.length s) s) as [|r rs IH]; intros Hfg.
  - reflexivity.
  - cbn [fold_right]. rewrite (Hfg r (or_introl eq_refl)), IH; [reflexivity|].
    intros r' Hr'. apply Hfg. now right.
Qed.

Lemma ToLower_rune_uncased (r : Z) :
  unicode.uncased r = true -> unicode.ToLower r = r.
Proof.
  intros Hr. unfold unicode.ToLower, unicode.MaxASCII.
  assert (Hhi : (r <=? 127) = false).
  { unfold unicode.uncased in Hr. apply Z.leb_gt. lia. }
  rewrite Hhi. now apply unicode.caseless.
Qed.

(** A string written with caseless runes only is its own lower case. *)
Lemma ToLower_uncased (s : string) :
  forallb (fun c => byteZ c <? utf8.RuneSelf) s = false ->
  List.forallb unicode.uncased (strings.runes (String.length s) s) = true ->
  strings.Map (fun r => r) s = s ->
  strings.ToLower s = s.
Proof.
  intros Hascii Hruns Hid. unfold strings.ToLower. rewrite Hascii.
  rewrite <- Hid at 2. apply Map_ext_in. intros r Hr.
  apply ToLower_rune_uncased.
  rewrite List.forallb_forall in Hruns. now apply Hruns.
Qed.

Lemma ToLower_exact (k : string) :
  In k (approveExact ++ denyExact)%list -> strings.ToLower k = k.
Proof.
  intros Hin. apply ToLower_uncased;
    repeat (destruct Hin as [<- | Hin]; [vm_compute; reflexivity|]);
    destruct Hin.
Qed.

Lemma ToLower_ascii_keyword (k : string) :
  In k (approveASCII ++ denyASCII)%list -> strings.ToLower k = k.
Proof.
  intros Hin.
  repeat (destruct Hin as [<- | Hin]; [reflexivity|]); destruct Hin.
Qed.

(** Matching the ASCII table up to case is looking the lower-cased reply
    up in it. *)
Lemma ci_approve (content : string) :
  (exists k, In k approveASCII /\ ci_eq content k) <->
  In (strings.ToLower content) approveASCII.
Proof.
  unfold ci_eq. split.
  - intros (k & Hk & Heq). rewrite Heq, ToLower_ascii_keyword; [assumption|].
    apply in_or_app. now left.
  - intros Hin. exists (strings.ToLower content). split; [assumption|].
    symmetry. apply ToLower_ascii_keyword, in_or_app. now left.
Qed.

Lemma ci_deny (content : string) :
  (exists k, In k denyASCII /\ ci_eq content k) <->
  In (strings.ToLower content) denyASCII.
Proof.
  unfold ci_eq. split.
  - intros (k & Hk & Heq). rewrite Heq, ToLower_ascii_keyword; [assumption|].
    apply in_or_app. now right.
  - intros Hin. exists (strings.ToLower content). split; [assumption|].
    symmetry. apply ToLower_ascii_keyword, in_or_app. now right.
Qed.

Lemma approves_iff (content : string) :
  approves content <->
  isApproveKeyword (strings.ToLower content) || isApproveKeywordCJK content
  = true.
Proof.
  unfold approves.
  now rewrite orb_true_iff, isApproveKeyword_In, isApproveKeywordCJK_In,
    ci_approve.
Qed.

Lemma denies_iff (content : string) :
  denies content <->
  isDenyKeyword (strings.ToLower content) || isDenyKeywordCJK content = true.
Proof.
  unfold denies.
  now rewrite orb_true_iff, isDenyKeyword_In, isDenyKeywordCJK_In, ci_deny.
Qed.

(** The four keyword tables have no entry in common. *)
Lemma tables_disjoint (x : string) :
  In x (approveASCII ++ approveExact)%list ->
  In x (denyASCII ++ denyExact)%list -> False.
Proof.
  intros Ha Hd. apply case_In in Hd.
  repeat (destruct Ha as [<- | Ha]; [vm_compute in Hd; discriminate Hd|]).
  destruct Ha.
Qed.

(** No reply is both an approve and a deny keyword. *)
Lemma approves_denies_exclusive (content : string) :
  approves content -> denies content -> False.
Proof.
  unfold approves, denies. rewrite ci_approve, ci_deny.
  intros [Ha | Ha] [Hd | Hd].
  - apply (tables_disjoint (strings.ToLower content)); apply in_or_app; tauto.
  - rewrite (ToLower_exact content) in Ha by (apply in_or_app; now right).
    apply (tables_disjoint content); apply in_or_app; tauto.
  - rewrite (ToLower_exact content) in Hd by (apply in_or_app; now left).
    apply (tables_disjoint content); apply in_or_app; tauto.
  - apply (tables_disjoint content); apply in_or_app; tauto.
Qed.

End Keywords.

Section Interceptor.
Import gostring bus security spec.
Context `{unicode.CaseTables} {E : Type}.

Implicit Types (msg : InboundMessage.t) (h : vars E).

(** Whether a message is an accepted reply of the cycle is decided by the
    comparisons the closure makes. *)
Lemma classic_addressed channel chatID msg :
  let content := strings.TrimSpace (InboundMessage.Content msg) in
  (addressed channel chatID msg /\ (approves content \/ denies content)) \/
  ~ (addressed channel chatID msg /\ (approves content \/ denies content)).
Proof.
  cbv zeta. unfold addressed. rewrite approves_iff, denies_iff.
  destruct (String.eqb_spec (InboundMessage.Channel msg) channel);
    [|right; tauto].
  destruct (String.eqb_spec (InboundMessage.ChatID msg) chatID);
    [|right; tauto].
  destruct (isApproveKeyword _ || isApproveKeywordCJK _); [left; tauto|].
  destruct (isDenyKeyword _ || isDenyKeywordCJK _); [left; tauto|].
  right. intuition discriminate.
Qed.

(** The three ways through the closure. *)
Lemma approvalInterceptor_approve channel chatID msg h :
  addressed channel chatID msg ->
  approves (strings.TrimSpace (InboundMessage.Content msg)) ->
  approvalInterceptor channel chatID msg h = (true, send approved h).
Proof.
  intros [Hc Hd] Ha. unfold approvalInterceptor.
  rewrite approves_iff in Ha. rewrite Ha.
  apply String.eqb_eq in Hc, Hd. now rewrite Hc, Hd.
Qed.

Lemma approvalInterceptor_deny channel chatID msg h :
  addressed channel chatID msg ->
  denies (strings.TrimSpace (InboundMessage.Content msg)) ->
  approvalInterceptor channel chatID msg h = (true, send denied h).
Proof.
  intros [Hc Hd] Hdn. unfold approvalInterceptor.
  assert (Hna : isApproveKeyword
                  (strings.ToLower
                     (strings.TrimSpace (InboundMessage.Content msg)))
                || isApproveKeywordCJK
                     (strings.TrimSpace (InboundMessage.Content msg)) = false).
  { apply not_true_is_false. rewrite <- approves_iff. intros Ha.
    exact (approves_denies_exclusive _ Ha Hdn). }
  rewrite denies_iff in Hdn. rewrite Hna, Hdn.
  apply String.eqb_eq in Hc, Hd. now rewrite Hc, Hd.
Qed.

Lemma approvalInterceptor_pass channel chatID msg h :
  ~ (addressed channel chatID msg /\
     (approves (strings.TrimSpace (InboundMessage.Content msg)) \/
      denies (strings.TrimSpace (InboundMessage.Content msg)))) ->
  approvalInterceptor channel chatID msg h = (false, h).
Proof.
  unfold addressed, approvalInterceptor. rewrite approves_iff, denies_iff.
  intros Hnot.
  destruct (String.eqb_spec (InboundMessage.Channel msg) channel);
    [|reflexivity].
  destruct (String.eqb_spec (InboundMessage.ChatID msg) chatID);
    [|reflexivity].
  cbn [negb orb].
  destruct (isApproveKeyword _ || isApproveKeywordCJK _); [exfalso; tauto|].
  destruct (isDenyKeyword _ || isDenyKeywordCJK _); [exfalso; tauto|].
  reflexivity.
Qed.

(** C1. The interceptor registered for channel [channel] and chat
    [chatID] consumes a message if and only if the message carries that
    channel and that chat identifier and its content, trimmed of white
    space, is an accepted keyword.  An approve keyword (ASCII table up to
    letter case, or the other table as written) sends the approved
    outcome on the result channel; a deny keyword sends the denied
    outcome with its reason; any other message is not consumed and leaves
    the result channel as it was. *)
Theorem approvalInterceptor_consumes (channel chatID : string) msg h :
  let content := strings.TrimSpace (InboundMessage.Content msg) in
  let accepted := approves content \/ denies content in
  let r := approvalInterceptor channel chatID msg h in
  (fst r = true <-> addressed channel chatID msg /\ accepted) /\
  (addressed channel chatID msg -> approves content ->
   r = (true, send approved h) /\ resultCh (snd r) = (resultCh h ++ [approved])%list) /\
  (addressed channel chatID msg -> denies content ->
   r = (true, send denied h) /\ resultCh (snd r) = (resultCh h ++ [denied])%list) /\
  (~ (addressed channel chatID msg /\ accepted) -> r = (false, h)).
Proof.
  cbv zeta. split; [|split; [|split]].
  - split.
    + intros Hr.
      destruct (classic_addressed channel chatID msg) as [Hyes | Hno].
      * exact Hyes.
      * rewrite (approvalInterceptor_pass _ _ _ _ Hno) in Hr. discriminate Hr.
    + intros [Haddr [Ha | Hd]].
      * now rewrite (approvalInterceptor_approve _ _ _ _ Haddr Ha).
      * now rewrite (approvalInterceptor_deny _ _ _ _ Haddr Hd).
  - intros Haddr Ha. now rewrite (approvalInterceptor_approve _ _ _ _ Haddr Ha).
  - intros Haddr Hd. now rewrite (approvalInterceptor_deny _ _ _ _ Haddr Hd).
  - apply approvalInterceptor_pass.
Qed.

End Interceptor.

(** C1 at work on the cycle of [TestPolicyEngine_Evaluate_Approve_Approved]:
    a reply in capitals with blanks around it approves, a reply written
    with the Kelvin sign approves, an ideographic space is trimmed, a
    denial as written denies; other chats and other words pass. *)
Lemma approvalInterceptor_consumes_witness :
  let h := security.captured fixtures.fresh in
  let hook := security.approvalInterceptor "telegram" "chat123" in
  hook (fixtures.inbound_ "telegram" "chat123" "  Approve ") h
    = (true, security.send spec.approved h) /\
  hook (fixtures.inbound_ "telegram" "chat123" "OK") h
    = (true, security.send spec.approved h) /\
  hook (fixtures.inbound_ "telegram" "chat123" "　拒绝") h
    = (true, security.send spec.denied h) /\
  hook (fixtures.inbound_ "telegram" "other-chat" "approve") h = (false, h) /\
  hook (fixtures.inbound_ "telegram" "chat123" "hello") h = (false, h).
Proof.
  cbv zeta. split; [|split; [|split; [|split]]].
  - apply (approvalInterceptor_consumes "telegram" "chat123"
             (fixtures.inbound_ "telegram" "chat123" "  Approve ")
             (security.captured fixtures.fresh)).
    + split; reflexivity.
    + left. exists "approve". split; [simpl; tauto | reflexivity].
  - apply (approvalInterceptor_consumes "telegram" "chat123"
             (fixtures.inbound_ "telegram" "chat123" "OK")
             (security.captured fixtures.fresh)).
    + split; reflexivity.
    + left. exists "ok". split; [simpl; tauto | reflexivity].
  - apply (approvalInterceptor_consumes "telegram" "chat123"
             (fixtures.inbound_ "telegram" "chat123" "　拒绝")
             (security.captured fixtures.fresh)).
    + split; reflexivity.
    + right. vm_compute. tauto.
  - apply (approvalInterceptor_consumes "telegram" "chat123"
             (fixtures.inbound_ "telegram" "other-chat" "approve")
             (security.captured fixtures.fresh)).
    intros [[_ Hchat] _]. discriminate Hchat.
  - apply (approvalInterceptor_consumes "telegram" "chat123"
             (fixtures.inbound_ "telegram" "chat123" "hello")
             (security.captured fixtures.fresh)).
    intros [_ Hkw].
    rewrite approves_iff, denies_iff in Hkw.
    destruct Hkw as [Hkw | Hkw]; vm_compute in Hkw; discriminate Hkw.
Defined.

(* ===================================================================== *)
(** ** The router: interceptor chain and default queue *)
(* ===================================================================== *)

Section RouterFacts.
Import bus.
Context {H : Type}.
Implicit Types (mb : MessageBus H) (h : H) (msg : InboundMessage.t)
  (chain : list (nat * InboundInterceptor H)).

(** Removing the registration just added gives the chain back. *)
Lemma remove_fresh chain (id : nat) (f : InboundInterceptor H) :
  Forall (fun i => (i < id)%nat) (List.map fst chain) ->
  filter (fun e => negb (Nat.eqb (fst e) id)) (chain ++ [(id, f)])%list = chain.
Proof.
  intros Hlt. rewrite filter_app. cbn. rewrite Nat.eqb_refl. cbn.
  rewrite app_nil_r. induction chain as [|[i g] rest IH]; [reflexivity|].
  cbn in *. apply Forall_cons_iff in Hlt as [Hi Hrest].
  destruct (Nat.eqb_spec i id); [lia|]. cbn. now rewrite IH.
Qed.

Lemma remove_absent chain (id : nat) :
  ~ In id (List.map fst (filter (fun e => negb (Nat.eqb (fst e) id)) chain)).
Proof.
  rewrite in_map_iff. intros ([i g] & Heq & Hin).
  apply filter_In in Hin as [_ Hne]. cbn in *. subst.
  now rewrite Nat.eqb_refl in Hne.
Qed.

(** The walk asks the interceptors from the head of the chain on, each
    one answering no until the one that consumes, which is asked last. *)
Lemma intercept_calls chain msg h :
  let consumed := fst (fst (intercept chain msg h)) in
  let calls := snd (intercept chain msg h) in
  (exists skipped, List.map fst chain = (List.map fst calls ++ skipped)%list /\
                   (consumed = false -> skipped = [])) /\
  (exists asked,
     calls = (List.map (fun id => (id, false)) asked ++
              (if consumed
               then [(nth (List.length asked) (List.map fst chain) O, true)]
               else []))%list).
Proof.
  cbv zeta. revert h. induction chain as [|[id f] rest IH]; intros h.
  - cbn. split; [exists []; tauto | now exists []].
  - cbn [intercept]. destruct (f msg h) as [c h1]. destruct c.
    + cbn. split; [exists (List.map fst rest); split; [reflexivity|discriminate]|].
      now exists [].
    + specialize (IH h1).
      destruct (intercept rest msg h1) as [[c h2] calls].
      cbn [fst snd] in *. destruct IH as [(skipped & Hids & Hall) (asked & Hasked)].
      split.
      * exists skipped. cbn. now rewrite Hids.
      * exists (id :: asked). cbn. now rewrite Hasked.
Qed.

Lemma intercept_consumed_iff chain msg h :
  fst (fst (intercept chain msg h)) = true <->
  exists id, In (id, true) (snd (intercept chain msg h)).
Proof.
  destruct (intercept_calls chain msg h) as [_ (asked & Hasked)].
  rewrite Hasked. destruct (fst (fst (intercept chain msg h))).
  - split; [intros _|reflexivity]. eexists. apply in_or_app. right. now left.
  - split; [discriminate|]. intros (id & Hin).
    rewrite app_nil_r, in_map_iff in Hin. destruct Hin as (x & Heq & _).
    discriminate.
Qed.

Lemma refusals_then_stop (asked : list nat) (tail before after : list (nat * bool))
    (call : nat * bool) :
  (List.length tail <= 1)%nat ->
  (List.map (fun id => (id, false)) asked ++ tail)%list
    = (before ++ call :: after)%list ->
  snd call = true -> after = [].
Proof.
  intros Hlen. revert before.
  induction asked as [|a asked IH]; intros before Heq Htrue.
  - cbn in Heq. destruct tail as [|t [|t' tail]]; cbn in Hlen; try lia.
    + now destruct before.
    + destruct before as [|b before]; [now injection Heq|].
      injection Heq as _ Heq. now destruct before.
  - destruct before as [|b before]; cbn in Heq.
    + injection Heq as <- _. discriminate.
    + injection Heq as _ Heq. now apply (IH before).
Qed.

Lemma intercept_stops chain msg h before call after :
  snd (intercept chain msg h) = (before ++ call :: after)%list ->
  snd call = true -> after = [].
Proof.
  destruct (intercept_calls chain msg h) as [_ (asked & Hasked)].
  rewrite Hasked. apply refusals_then_stop.
  destruct (fst (fst (intercept chain msg h))); cbn; lia.
Qed.

Lemma list_neq_snoc {A : Type} (l : list A) (x : A) : l <> (l ++ [x])%list.
Proof.
  intros Heq. apply (f_equal (@List.length A)) in Heq.
  rewrite length_app in Heq. cbn in Heq. lia.
Qed.

Lemma ids_removeInterceptor id mb :
  ids (removeInterceptor id mb) = filter (fun i => negb (Nat.eqb i id)) (ids mb).
Proof.
  unfold ids, removeInterceptor. cbn.
  induction (interceptors mb) as [|[i g] rest IH]; [reflexivity|].
  cbn. destruct (Nat.eqb i id); cbn; now rewrite IH.
Qed.

Lemma invoked_refusals chain :
  invoked (List.map (fun e => (fst e, false)) chain) = spec.refusals chain.
Proof. unfold invoked, spec.refusals. rewrite map_map. reflexivity. Qed.

(** The walk, told by the answers of the predicates: either every
    registration up to some first consumer refuses and that one
    consumes, or the whole chain refuses. *)
Lemma intercept_walk chain msg h :
  let consumed := fst (fst (intercept chain msg h)) in
  let h' := snd (fst (intercept chain msg h)) in
  let calls := snd (intercept chain msg h) in
  (consumed = true /\
   exists before id f after h1,
     chain = (before ++ (id, f) :: after)%list /\
     spec.refused msg before h h1 /\ f msg h1 = (true, h') /\
     calls = (List.map (fun e => (fst e, false)) before ++ [(id, true)])%list)
  \/
  (consumed = false /\ spec.refused msg chain h h' /\
   calls = List.map (fun e => (fst e, false)) chain).
Proof.
  cbv zeta. revert h. induction chain as [|[id f] rest IH]; intros h.
  - right. cbn. repeat split. constructor.
  - cbn [intercept]. destruct (f msg h) as [c h1] eqn:Hf. destruct c.
    + left. cbn [fst snd]. split; [reflexivity|].
      exists [], id, f, rest, h. repeat split; [constructor | exact Hf].
    + specialize (IH h1).
      destruct (intercept rest msg h1) as [[c h2] calls]. cbn [fst snd] in *.
      destruct IH as [(-> & before & i & g & after & ha & -> & Href & Hg & ->)
                     | (-> & Href & ->)].
      * left. split; [reflexivity|].
        exists ((id, f) :: before), i, g, after, ha.
        repeat split; [econstructor; eassumption | exact Hg].
      * right. repeat split. econstructor; eassumption.
Qed.

(** A chain that refuses as a whole has no first consumer. *)
Lemma refused_no_consumer chain msg h hn before id f after h1 h2 :
  spec.refused msg chain h hn ->
  chain = (before ++ (id, f) :: after)%list ->
  spec.refused msg before h h1 ->
  f msg h1 = (true, h2) -> False.
Proof.
  intros Hall. revert before h1.
  induction Hall as [h | i g rest h ha hb Hg Hrest IH]; intros before h1 Heq Hbefore Hf.
  - destruct before; discriminate Heq.
  - destruct before as [|[i' g'] before]; cbn in Heq; injection Heq as -> -> ->.
    + inversion Hbefore; subst. congruence.
    + inversion Hbefore as [|? ? ? ? ha' ? Hg' Hrest']; subst.
      assert (ha' = ha) by congruence. subst ha'.
      apply (IH before h1); auto.
Qed.

(** C2. Publishing an inbound message asks the registered interceptors
    in registration order, each with the captured variables as the call
    before it left them.  Either some registration is the first whose
    predicate returns true: every one before it was asked and returned
    false, it is asked last, none after it is asked, and the message does
    not reach the default queue; or every predicate returns false and the
    message is enqueued for the default consumer.  So the message is
    enqueued if and only if no interceptor present at publish time
    consumes it.  The chain is the order of registration: a new
    registration goes to its end, a removal keeps the order of the
    others, a publish leaves it alone. *)
Theorem PublishInbound_routes mb msg h :
  let mb' := fst (PublishInbound msg mb h) in
  let h' := snd (PublishInbound msg mb h) in
  ((exists before id f after h1,
      interceptors mb = (before ++ (id, f) :: after)%list /\
      spec.refused msg before h h1 /\ f msg h1 = (true, h') /\
      inbound mb' = inbound mb /\
      history mb' = (history mb ++ spec.refusals before ++ [Invoked id true])%list)
   \/
   (spec.refused msg (interceptors mb) h h' /\
    inbound mb' = (inbound mb ++ [msg])%list /\
    history mb' =
      (history mb ++ spec.refusals (interceptors mb) ++ [Enqueued msg])%list)) /\
  (inbound mb' = (inbound mb ++ [msg])%list <->
   exists hn, spec.refused msg (interceptors mb) h hn) /\
  (inbound mb' = inbound mb <->
   exists before id f after h1 h2,
     interceptors mb = (before ++ (id, f) :: after)%list /\
     spec.refused msg before h h1 /\ f msg h1 = (true, h2)) /\
  interceptors mb' = interceptors mb /\
  (forall f, interceptors (snd (AddInterceptor f mb)) =
             (interceptors mb ++ [(nextID mb, f)])%list) /\
  (forall id, ids (removeInterceptor id mb) =
              filter (fun i => negb (Nat.eqb i id)) (ids mb)).
Proof.
  cbv zeta. unfold PublishInbound.
  pose proof (intercept_walk (interceptors mb) msg h) as Hwalk.
  cbv zeta in Hwalk.
  destruct (intercept (interceptors mb) msg h) as [[consumed h'] calls].
  cbn [fst snd inbound history interceptors] in *.
  destruct Hwalk as [(-> & before & id & f & after & h1 & Hchain & Href & Hf & ->)
                    | (-> & Href & ->)].
  - split; [|split; [|split; [|split; [|split]]]].
    + left. exists before, id, f, after, h1.
      repeat split; try assumption.
      rewrite app_nil_r. unfold invoked, spec.refusals.
      rewrite map_app, map_map. reflexivity.
    + split.
      * intros Heq. exfalso. exact (list_neq_snoc _ _ Heq).
      * intros (hn & Hall). exfalso.
        exact (refused_no_consumer _ _ _ _ _ _ _ _ _ _ Hall Hchain Href Hf).
    + split; [intros _ | reflexivity].
      now exists before, id, f, after, h1, h'.
    + reflexivity.
    + intros g. reflexivity.
    + intros i. apply ids_removeInterceptor.
  - split; [|split; [|split; [|split; [|split]]]].
    + right. repeat split; [assumption|]. now rewrite invoked_refusals.
    + split; [intros _; now exists h' | reflexivity].
    + split.
      * intros Heq. exfalso. symmetry in Heq. exact (list_neq_snoc _ _ Heq).
      * intros (before & id & f & after & h1 & h2 & Hchain & Hbefore & Hf).
        exfalso.
        exact (refused_no_consumer _ _ _ _ _ _ _ _ _ _ Href Hchain Hbefore Hf).
    + reflexivity.
    + intros g. reflexivity.
    + intros i. apply ids_removeInterceptor.
Qed.

(** Once the handle was invoked, no publish calls the predicate again. *)
Lemma removed_never_invoked id mb msg h :
  ~ In id (List.map fst
             (snd (intercept (interceptors (removeInterceptor id mb)) msg h))).
Proof.
  destruct (intercept_calls (interceptors (removeInterceptor id mb)) msg h)
    as [(skipped & Hids & _) _].
  intros Hin. apply (remove_absent (interceptors mb) id).
  cbn [removeInterceptor interceptors] in Hids. rewrite Hids.
  apply in_or_app. now left.
Qed.

(** *** The identifiers in use stay below the next one *)

Lemma wf_NewMessageBus : wf (@NewMessageBus H).
Proof. constructor. Qed.

Lemma wf_AddInterceptor f mb : wf mb -> wf (snd (AddInterceptor f mb)).
Proof.
  unfold wf, ids, AddInterceptor. cbn. intros Hwf. rewrite map_app.
  apply Forall_app. split.
  - eapply Forall_impl; [|exact Hwf]. cbn. lia.
  - repeat constructor.
Qed.

Lemma wf_removeInterceptor id mb : wf mb -> wf (removeInterceptor id mb).
Proof.
  unfold wf, ids, removeInterceptor. cbn. intros Hwf.
  induction (interceptors mb) as [|[i g] rest IH]; [constructor|].
  cbn in *. apply Forall_cons_iff in Hwf as [Hi Hrest].
  destruct (Nat.eqb i id); cbn; [|constructor]; auto.
Qed.

Lemma wf_PublishInbound msg mb h : wf mb -> wf (fst (PublishInbound msg mb h)).
Proof.
  unfold wf, ids, PublishInbound.
  now destruct (intercept (interceptors mb) msg h) as [[c h'] calls].
Qed.

Lemma wf_PublishOutbound out mb : wf mb -> wf (PublishOutbound out mb).
Proof. exact (fun Hwf => Hwf). Qed.

(** Publishing a batch through one interceptor that consumes by content
    alone leaves on the default queue exactly the messages it does not
    match, in their order: of N publishes with K matches, N - K arrive. *)
Lemma publish_batch (p : InboundMessage.t -> bool) (id : nat)
    (msgs : list InboundMessage.t) mb h :
  interceptors mb = [(id, fun msg h => (p msg, h))] ->
  let final :=
    fold_left (fun st msg => PublishInbound msg (fst st) (snd st)) msgs (mb, h) in
  inbound (fst final) = (inbound mb ++ filter (fun msg => negb (p msg)) msgs)%list /\
  (List.length (inbound (fst final)) =
   List.length (inbound mb) + (List.length msgs - List.length (filter p msgs)))%nat.
Proof.
  cbv zeta. revert mb h. induction msgs as [|msg msgs IH]; intros mb h Hchain.
  - cbn. rewrite app_nil_r. split; [reflexivity | lia].
  - cbn [fold_left filter fst snd].
    assert (Hpub : PublishInbound msg mb h =
                   ({| interceptors := interceptors mb; nextID := nextID mb;
                       inbound := if p msg then inbound mb
                                  else (inbound mb ++ [msg])%list;
                       outbound := outbound mb;
                       history := (history mb ++ invoked [(id, p msg)] ++
                                   (if p msg then [] else [Enqueued msg]))%list |},
                    h)).
    { unfold PublishInbound. rewrite Hchain. cbn [intercept].
      destruct (p msg); reflexivity. }
    rewrite Hpub.
    match goal with
    | |- context [fold_left _ msgs (?m, ?k)] =>
        destruct (IH m k Hchain) as [Hq Hlen]
    end.
    rewrite Hlen, Hq. cbn [inbound].
    pose proof (filter_length_le p msgs) as Hle.
    destruct (p msg); cbn [negb List.length].
    + split; [reflexivity | lia].
    + rewrite <- app_assoc, length_app. cbn [app List.length].
      split; [reflexivity | lia].
Qed.

End RouterFacts.

(** C2 at work: [TestMessageBus_MultipleInterceptors].  The message
    "stop-at-second" is refused by the first interceptor and consumed by
    the second, and the queue stays empty; the message "pass" is refused
    by both and enqueued; in both cases the first interceptor ran before
    the second. *)
Lemma PublishInbound_routes_witness :
  let stop := fixtures.inbound_ "" "" "stop-at-second" in
  let pass := fixtures.inbound_ "" "" "pass" in
  bus.inbound (fst (bus.PublishInbound stop fixtures.twoInterceptors [])) = [] /\
  bus.inbound (fst (bus.PublishInbound pass fixtures.twoInterceptors []))
    = [pass] /\
  snd (bus.PublishInbound stop fixtures.twoInterceptors []) = ["first"; "second"] /\
  snd (bus.PublishInbound pass fixtures.twoInterceptors []) = ["first"; "second"] /\
  bus.ConsumeInbound (fst (bus.PublishInbound stop fixtures.twoInterceptors []))
    = (None, fst (bus.PublishInbound stop fixtures.twoInterceptors [])).
Proof.
  cbv zeta. split; [|split; [|split; [|split]]].
  - destruct (PublishInbound_routes fixtures.twoInterceptors
                (fixtures.inbound_ "" "" "stop-at-second") [])
      as (_ & _ & Hdropped & _).
    apply Hdropped.
    exists [(O, fixtures.logFirst)], 1%nat, fixtures.logSecond, [],
      ["first"], ["first"; "second"].
    repeat split. econstructor; [reflexivity | constructor].
  - destruct (PublishInbound_routes fixtures.twoInterceptors
                (fixtures.inbound_ "" "" "pass") [])
      as (_ & Hqueued & _).
    apply Hqueued. exists ["first"; "second"].
    econstructor; [reflexivity|].
    econstructor; [reflexivity | constructor].
  - reflexivity.
  - reflexivity.
  - reflexivity.
Defined.

(** [TestMessageBus_InterceptorRemoval]: after the handle is invoked, a
    publish reaches the default consumer and the predicate, which counts
    its calls, is not called again. *)
Example TestMessageBus_InterceptorRemoval :
  let counting : bus.InboundInterceptor nat := fun _ count => (true, S count) in
  let '(remove, mb) := bus.AddInterceptor counting bus.NewMessageBus in
  let '(mb, count) := bus.PublishInbound (fixtures.inbound_ "" "" "first") mb O in
  let mb := bus.removeInterceptor remove mb in
  let '(mb, count') := bus.PublishInbound (fixtures.inbound_ "" "" "second") mb count in
  count = 1%nat /\ count' = 1%nat /\
  fst (bus.ConsumeInbound mb) = Some (fixtures.inbound_ "" "" "second").
Proof. cbn. repeat split. Qed.

(* ===================================================================== *)
(** ** The approval cycle *)
(* ===================================================================== *)

Section CycleFacts.
Import gostring bus security spec.
Context `{unicode.CaseTables} {E : Type}.
Implicit Types (pe : PolicyEngine) (ctx : Run) (v : Violation.t)
  (st : World E) (msgs : list InboundMessage.t).

Lemma isTraffic_invoked (calls : list (nat * bool)) :
  Forall isTraffic (invoked calls).
Proof. induction calls; constructor; [exact I | assumption]. Qed.

(** While the call waits, the connectors only publish inbound messages:
    registrations, the next identifier and the outbound queue stay as
    they are, and the history grows by traffic events only. *)
Lemma await_frame msgs st :
  let st' := snd (await msgs st) in
  interceptors (mbus st') = interceptors (mbus st) /\
  nextID (mbus st') = nextID (mbus st) /\
  outbound (mbus st') = outbound (mbus st) /\
  exists traffic,
    history (mbus st') = (history (mbus st) ++ traffic)%list /\
    Forall isTraffic traffic.
Proof.
  cbv zeta. revert st. induction msgs as [|msg more IH]; intros st.
  - cbn [await]. destruct (resultCh (captured st)); cbn;
      (repeat split; exists []; now rewrite app_nil_r).
  - cbn [await]. destruct (resultCh (captured st)).
    + unfold PublishInbound.
      destruct (intercept (interceptors (mbus st)) msg (captured st))
        as [[consumed h] calls].
      match goal with
      | |- context [await more ?s] => specialize (IH s)
      end.
      cbn [mbus interceptors nextID outbound history] in IH.
      destruct IH as (Hi & Hn & Ho & traffic & Hh & Ht).
      repeat split; try assumption.
      exists (invoked calls ++ (if consumed then [] else [Enqueued msg]) ++
              traffic)%list.
      split; [rewrite Hh, <- !app_assoc; reflexivity|].
      apply Forall_app. split; [apply isTraffic_invoked|].
      apply Forall_app. split; [|assumption].
      destruct consumed; repeat constructor.
    + cbn. repeat split. exists []. now rewrite app_nil_r.
Qed.

(** [requestApproval] as three steps: reach the [select] in the state
    [pending]; wait; run the deferred removal and return. *)
Lemma requestApproval_steps pe ctx v channel chatID st :
  requestApproval pe ctx v channel chatID st =
  let waited := await (arrivals ctx) (pending pe v channel chatID st) in
  (match fst waited with
   | Some result =>
       if ApprovalResult.Approved result then None
       else Some (Errorf ("denied by user: " ++ ApprovalResult.Reason result))
   | None =>
       match finally ctx with
       | TimerFires =>
           Some (Errorf ("approval timed out after " ++
                         time.String_ (approvalTimeout pe)))
       | ContextDone e => Some (ContextErr e)
       end
   end,
   {| mbus := removeInterceptor (nextID (mbus st)) (mbus (snd waited));
      captured := captured (snd waited) |}).
Proof.
  unfold requestApproval, pending, prompt, AddInterceptor. cbn [fst snd].
  now destruct (await _ _).
Qed.

Lemma Evaluate_approve_interactive pe ctx v channel chatID st :
  interactive channel ->
  Evaluate pe ctx ModeApprove v channel chatID st =
  requestApproval pe ctx v channel chatID st.
Proof.
  intros [Hne Hcli]. unfold Evaluate. cbn.
  destruct (String.eqb_spec channel ""); [contradiction|].
  destruct (String.eqb_spec channel "cli"); [contradiction|].
  reflexivity.
Qed.

(** C3. A call to Evaluate in approve mode on an interactive channel
    registers one interceptor, publishes one outbound prompt, and removes
    that registration as the last thing before it returns, whatever ends
    the wait (a reply, the timer, the cancellation).  Between the
    registration and the removal the router sees inbound traffic only.
    On return the chain of registrations is the one the call found: no
    registration outlives its cycle. *)
Theorem Evaluate_approve_scoped pe ctx v channel chatID st :
  interactive channel ->
  wf (mbus st) ->
  let st' := snd (Evaluate pe ctx ModeApprove v channel chatID st) in
  let id := nextID (mbus st) in
  (exists traffic,
     history (mbus st') =
       (history (mbus st) ++
        [Added id; Sent (prompt pe v channel chatID)] ++
        traffic ++ [Removed id])%list /\
     Forall isTraffic traffic) /\
  outbound (mbus st') = (outbound (mbus st) ++ [prompt pe v channel chatID])%list /\
  interceptors (mbus st') = interceptors (mbus st) /\
  ~ In id (ids (mbus st')) /\
  nextID (mbus st') = S id /\
  wf (mbus st').
Proof.
  intros Hint Hwf. cbv zeta.
  rewrite (Evaluate_approve_interactive _ _ _ _ _ _ Hint), requestApproval_steps.
  cbv zeta. cbn [snd mbus].
  destruct (await_frame (arrivals ctx) (pending pe v channel chatID st))
    as (Hi & Hn & Ho & traffic & Hh & Ht).
  set (waited := snd (await (arrivals ctx) (pending pe v channel chatID st))) in *.
  unfold pending in Hi, Hn, Ho, Hh.
  cbn [mbus PublishOutbound AddInterceptor snd interceptors nextID outbound
       history] in Hi, Hn, Ho, Hh.
  assert (Hchain : interceptors (removeInterceptor (nextID (mbus st)) (mbus waited))
                   = interceptors (mbus st)).
  { cbn [removeInterceptor interceptors]. rewrite Hi. apply remove_fresh, Hwf. }
  split.
  { exists traffic. split; [|assumption].
    cbn [removeInterceptor history]. rewrite Hh, <- !app_assoc. reflexivity. }
  split; [cbn [removeInterceptor outbound]; now rewrite Ho|].
  split; [exact Hchain|].
  split; [apply remove_absent|].
  split; [cbn [removeInterceptor nextID]; now rewrite Hn|].
  unfold wf, ids. rewrite Hchain. cbn [removeInterceptor nextID]. rewrite Hn.
  eapply Forall_impl; [|exact Hwf]. cbn. lia.
Qed.

End CycleFacts.

(** C3 at work: the cycle of
    [TestPolicyEngine_Evaluate_Approve_NonMatchingMessages] on a new
    router.  One prompt was published and no registration is left. *)
Lemma Evaluate_approve_scoped_witness :
  let ctx :=
    {| security.arrivals :=
         [fixtures.inbound_ "telegram" "other-chat" "approve";
          fixtures.inbound_ "telegram" "chat100" "hello";
          fixtures.inbound_ "telegram" "chat100" "approve"];
       security.finally := security.TimerFires |} in
  let st' :=
    snd (security.Evaluate (fixtures.engine 2) ctx security.ModeApprove
           (fixtures.violation "exec_guard" "test") "telegram" "chat100"
           fixtures.fresh) in
  bus.outbound (security.mbus st') =
    [spec.prompt (fixtures.engine 2) (fixtures.violation "exec_guard" "test")
       "telegram" "chat100"] /\
  bus.interceptors (security.mbus st') = [].
Proof.
  cbv zeta.
  destruct (Evaluate_approve_scoped (fixtures.engine 2)
              {| security.arrivals :=
                   [fixtures.inbound_ "telegram" "other-chat" "approve";
                    fixtures.inbound_ "telegram" "chat100" "hello";
                    fixtures.inbound_ "telegram" "chat100" "approve"];
                 security.finally := security.TimerFires |}
              (fixtures.violation "exec_guard" "test") "telegram" "chat100"
              fixtures.fresh) as (_ & Hout & Hchain & _).
  - split; discriminate.
  - constructor.
  - split; [exact Hout | exact Hchain].
Defined.

Section Outcome.
Import gostring bus security spec.
Context `{unicode.CaseTables} {E : Type}.
Implicit Types (pe : PolicyEngine) (ctx : Run) (v : Violation.t)
  (st : World E).

Lemma wrap64_small (x : Z) : time.is_int x -> time.wrap64 x = x.
Proof.
  unfold time.is_int, time.wrap64.
  change (2 ^ 63) with 9223372036854775808.
  change (2 ^ 64) with 18446744073709551616.
  intros Hx. rewrite Z.mod_small; lia.
Qed.

(** Within the representable seconds the machine product is the product
    of the integers. *)
Lemma approvalTimeout_representable pe :
  representable (config.ApprovalTimeout (config_ pe)) -> timeoutAsConfigured pe.
Proof.
  unfold representable, timeoutAsConfigured, approvalTimeout, time.mul,
    time.Second.
  cbv zeta. intros Hrep.
  rewrite (wrap64_small (config.ApprovalTimeout (config_ pe)))
    by (unfold time.is_int; change (2 ^ 63) with 9223372036854775808; lia).
  rewrite wrap64_small
    by (unfold time.is_int; change (2 ^ 63) with 9223372036854775808; lia).
  split; intros Ht.
  - destruct (Z.leb_spec (config.ApprovalTimeout (config_ pe) * 1000000000) 0);
      [lia | reflexivity].
  - destruct (Z.leb_spec (config.ApprovalTimeout (config_ pe) * 1000000000) 0);
      [reflexivity | lia].
Qed.

(** X18. The result of a cycle follows the event that wins the wait: an
    approved resolution returns success; a denied resolution returns a
    failure carrying "denied" and the supplied reason; expiry of the
    timer returns a failure carrying "timed out" and the duration waited
    for.  That duration is the configured number of seconds, and 300
    seconds when the configured number is unset or not positive,
    provided the configured number is at most 9223372036 in absolute
    value. *)
Theorem requestApproval_outcome pe ctx v channel chatID st :
  let err := fst (requestApproval pe ctx v channel chatID st) in
  let received := resolution pe ctx v channel chatID st in
  (forall r, received = Some r -> ApprovalResult.Approved r = true ->
             err = None) /\
  (forall r, received = Some r -> ApprovalResult.Approved r = false ->
             exists msg, err = Some (Errorf msg) /\
                         Occurs "denied" msg /\
                         Occurs (ApprovalResult.Reason r) msg) /\
  (received = None -> finally ctx = TimerFires ->
   exists msg, err = Some (Errorf msg) /\
               Occurs "timed out" msg /\
               Occurs (time.String_ (approvalTimeout pe)) msg) /\
  (representable (config.ApprovalTimeout (config_ pe)) ->
   timeoutAsConfigured pe).
Proof.
  cbv zeta. rewrite requestApproval_steps. unfold resolution. cbv zeta.
  cbn [fst].
  split; [|split; [|split]].
  - intros r -> ->. reflexivity.
  - intros r -> ->. eexists. split; [reflexivity|].
    split; [apply Occurs_app_l; now exists "", " by user: " | occurs].
  - intros -> ->. eexists. split; [reflexivity|].
    split; [apply Occurs_app_l; now exists "approval ", " after " | occurs].
  - apply approvalTimeout_representable.
Qed.

End Outcome.

(** C4, where the code breaks it.  Configured with 9223372037 seconds,
    a positive [int], the prompt announces "Auto-deny in 9223372037
    seconds.", but the nanosecond count
    [time.Duration(9223372037) * time.Second] wraps around to a negative
    [Duration], the test [timeout <= 0] takes the default, and the cycle
    waits 300 seconds, as its failure says.  At the other end,
    configured with -9223372037 seconds, the count wraps around to a
    positive [Duration] of more than 292 years and the default meant for
    values that are not positive is not taken. *)
Lemma timeoutAsConfigured_overflow :
  time.is_int 9223372037 /\
  0 < config.ApprovalTimeout (security.config_ (fixtures.engine 9223372037)) /\
  time.mul (time.wrap64 9223372037) time.Second = - 9223372036709551616 /\
  security.approvalTimeout (fixtures.engine 9223372037) = 300 * time.Second /\
  fst (security.Evaluate (fixtures.engine 9223372037) (fixtures.timer [])
         security.ModeApprove (fixtures.violation "exec_guard" "test")
         "telegram" "chat789" fixtures.fresh)
    = Some (Errorf "approval timed out after 5m0s") /\
  gostring.Occurs "Auto-deny in 9223372037 seconds."
    (security.formatApprovalMessage (fixtures.violation "exec_guard" "test")
       (config.ApprovalTimeout (security.config_ (fixtures.engine 9223372037)))) /\
  ~ spec.timeoutAsConfigured (fixtures.engine 9223372037) /\
  time.is_int (- 9223372037) /\
  security.approvalTimeout (fixtures.engine (-9223372037)) = 9223372036709551616 /\
  ~ spec.timeoutAsConfigured (fixtures.engine (-9223372037)).
Proof.
  split; [|split; [|split; [|split; [|split; [|split; [|split; [|split; [|split]]]]]]]].
  - unfold time.is_int. change (2 ^ 63) with 9223372036854775808. lia.
  - reflexivity.
  - vm_compute. reflexivity.
  - vm_compute. reflexivity.
  - vm_compute. reflexivity.
  - apply Contains_iff. vm_compute. reflexivity.
  - intros [Hpos _]. specialize (Hpos eq_refl). vm_compute in Hpos.
    discriminate Hpos.
  - unfold time.is_int. change (2 ^ 63) with 9223372036854775808. lia.
  - vm_compute. reflexivity.
  - intros [_ Hneg].
    assert (Hle : config.ApprovalTimeout
                    (security.config_ (fixtures.engine (-9223372037))) <= 0)
      by (cbn; lia).
    specialize (Hneg Hle). vm_compute in Hneg. discriminate Hneg.
Qed.

(** X18 at work: denied after five seconds of patience, or timed out
    after one second. *)
Lemma requestApproval_outcome_witness :
  (exists msg,
     fst (security.requestApproval (fixtures.engine 5)
            {| security.arrivals := [fixtures.inbound_ "feishu" "chat456" "deny"];
               security.finally := security.TimerFires |}
            (fixtures.violation "ssrf" "private IP") "feishu" "chat456"
            fixtures.fresh) = Some (Errorf msg) /\
     gostring.Occurs "denied" msg /\ gostring.Occurs "denied by user" msg) /\
  (exists msg,
     fst (security.requestApproval (fixtures.engine 1)
            {| security.arrivals := []; security.finally := security.TimerFires |}
            (fixtures.violation "exec_guard" "test") "telegram" "chat789"
            fixtures.fresh) = Some (Errorf msg) /\
     gostring.Occurs "timed out" msg /\ gostring.Occurs "1s" msg) /\
  spec.timeoutAsConfigured (fixtures.engine 5).
Proof.
  split; [|split].
  - destruct (requestApproval_outcome (fixtures.engine 5)
                {| security.arrivals :=
                     [fixtures.inbound_ "feishu" "chat456" "deny"];
                   security.finally := security.TimerFires |}
                (fixtures.violation "ssrf" "private IP") "feishu" "chat456"
                fixtures.fresh) as (_ & Hdenied & _).
    apply (Hdenied spec.denied); reflexivity.
  - apply (requestApproval_outcome (fixtures.engine 1)
             {| security.arrivals := []; security.finally := security.TimerFires |}
             (fixtures.violation "exec_guard" "test") "telegram" "chat789"
             fixtures.fresh); reflexivity.
  - apply (requestApproval_outcome (fixtures.engine 5)
             {| security.arrivals := []; security.finally := security.TimerFires |}
             (fixtures.violation "exec_guard" "test") "telegram" "chat789"
             fixtures.fresh).
    unfold spec.representable. cbn. lia.
Defined.

Section Cancellation.
Import gostring bus security spec.
Context `{unicode.CaseTables} {E : Type}.
Implicit Types (pe : PolicyEngine) (ctx : Run) (v : Violation.t)
  (st : World E).

(** The message of a context error is not that of a timeout. *)
Lemma context_error_not_timeout (e : context.err) :
  Contains (context.Error e) "timed out" = false /\
  forall rest, context.Error e <> "approval timed out after " ++ rest.
Proof. destruct e; split; try reflexivity; intros rest; discriminate. Qed.

Lemma last_snoc {A : Type} (l : list A) (x d : A) : last (l ++ [x]) d = x.
Proof.
  induction l as [|a l IH]; [reflexivity|].
  cbn [app]. destruct (l ++ [x])%list eqn:Heq; [now destruct l|].
  cbn [last]. exact IH.
Qed.

(** C5. When the caller's context is cancelled before any reply has
    resolved the cycle, the wait ends, the interceptor of the cycle is
    removed as the last act of the call, and the call returns the error
    of the context itself, which carries the cause and is no timeout
    failure: neither the same error value nor the same message.  With no
    arrival at all the call returns at once. *)
Theorem requestApproval_cancelled pe ctx v channel chatID st (e : context.err) :
  interactive channel ->
  finally ctx = ContextDone e ->
  resolution pe ctx v channel chatID st = None ->
  let err := fst (Evaluate pe ctx ModeApprove v channel chatID st) in
  let st' := snd (Evaluate pe ctx ModeApprove v channel chatID st) in
  let id := nextID (mbus st) in
  err = Some (ContextErr e) /\
  Error (ContextErr e) = context.Error e /\
  ~ In id (ids (mbus st')) /\
  last (history (mbus st')) (Added id) = Removed id /\
  (forall d, ContextErr e <> Errorf ("approval timed out after " ++ time.String_ d)) /\
  (forall d, Error (ContextErr e) <> "approval timed out after " ++ time.String_ d) /\
  ~ Occurs "timed out" (Error (ContextErr e)) /\
  (arrivals ctx = [] ->
   history (mbus st') =
     (history (mbus st) ++
      [Added id; Sent (prompt pe v channel chatID); Removed id])%list).
Proof.
  intros Hint Hfin Hres. cbv zeta.
  rewrite (Evaluate_approve_interactive _ _ _ _ _ _ Hint), requestApproval_steps.
  cbv zeta. unfold resolution in Hres. rewrite Hres, Hfin. cbn [fst snd mbus].
  destruct (context_error_not_timeout e) as [Hno Hmsg].
  split; [reflexivity|].
  split; [reflexivity|].
  split; [apply remove_absent|].
  split; [cbn [removeInterceptor history]; apply last_snoc|].
  split; [discriminate|].
  split; [intros d; apply Hmsg|].
  split; [now apply Contains_false|].
  intros Harr. rewrite Harr. unfold pending. cbn.
  rewrite <- !app_assoc. reflexivity.
Qed.

End Cancellation.

(** C5 at work: a cycle whose context is cancelled while only ordinary
    conversation has arrived on the chat. *)
Lemma requestApproval_cancelled_witness :
  let ctx :=
    {| security.arrivals := [fixtures.inbound_ "telegram" "chat100" "hello"];
       security.finally := security.ContextDone context.Canceled |} in
  let result :=
    security.Evaluate (fixtures.engine 5) ctx security.ModeApprove
      (fixtures.violation "exec_guard" "test") "telegram" "chat100"
      fixtures.fresh in
  fst result = Some (ContextErr context.Canceled) /\
  ~ In O (bus.ids (security.mbus (snd result))).
Proof.
  cbv zeta.
  destruct (requestApproval_cancelled (fixtures.engine 5)
              {| security.arrivals :=
                   [fixtures.inbound_ "telegram" "chat100" "hello"];
                 security.finally := security.ContextDone context.Canceled |}
              (fixtures.violation "exec_guard" "test") "telegram" "chat100"
              fixtures.fresh context.Canceled) as (Herr & _ & Hgone & _).
  - split; discriminate.
  - reflexivity.
  - reflexivity.
  - split; [exact Herr | exact Hgone].
Defined.

(* ===================================================================== *)
(** ** A cycle on a router without other registrations *)
(* ===================================================================== *)

Section Replies.
Import gostring bus security spec.
Context `{unicode.CaseTables} {E : Type}.
Implicit Types (pe : PolicyEngine) (ctx : Run) (v : Violation.t)
  (st : World E) (mb : MessageBus (vars E)) (h : vars E)
  (msg : InboundMessage.t).

(** Ordinary conversation flows through to the default queue, in order,
    and leaves the cycle waiting. *)
Lemma await_ordinary channel chatID (id : nat) quiet rest mb h :
  interceptors mb = [(id, approvalInterceptor channel chatID)] ->
  resultCh h = [] ->
  Forall (ordinary channel chatID) quiet ->
  exists mb',
    await (quiet ++ rest) {| mbus := mb; captured := h |} =
    await rest {| mbus := mb'; captured := h |} /\
    interceptors mb' = interceptors mb /\
    inbound mb' = (inbound mb ++ quiet)%list.
Proof.
  intros Hchain Hch Hquiet. revert mb Hchain.
  induction Hquiet as [|msg quiet Hmsg _ IH]; intros mb Hchain.
  - exists mb. cbn. now rewrite app_nil_r.
  - cbn [app await captured mbus]. rewrite Hch.
    unfold PublishInbound. rewrite Hchain. cbn [intercept].
    rewrite (approvalInterceptor_pass _ _ _ _ Hmsg).
    match goal with
    | |- context [await _ {| mbus := ?m; captured := _ |}] =>
        destruct (IH m eq_refl) as (mb' & Heq & Hi & Hq)
    end.
    exists mb'. split; [exact Heq|]. split; [now rewrite Hi|].
    rewrite Hq. cbn [inbound]. now rewrite <- app_assoc.
Qed.

(** The first accepted reply resolves the cycle with its outcome. *)
Lemma await_reply channel chatID (id : nat) reply later mb h
    (result : ApprovalResult.t) :
  interceptors mb = [(id, approvalInterceptor channel chatID)] ->
  resultCh h = [] ->
  approvalInterceptor channel chatID reply h = (true, send result h) ->
  fst (await (reply :: later) {| mbus := mb; captured := h |}) = Some result /\
  inbound (mbus (snd (await (reply :: later) {| mbus := mb; captured := h |})))
    = inbound mb.
Proof.
  intros Hchain Hch Hsend.
  cbn [await captured mbus]. rewrite Hch.
  unfold PublishInbound. rewrite Hchain. cbn [intercept]. rewrite Hsend.
  destruct later; cbn [await captured mbus send resultCh]; rewrite Hch;
    cbn; split; reflexivity.
Qed.

Lemma pending_idle pe v channel chatID st :
  interceptors (mbus st) = [] ->
  interceptors (mbus (pending pe v channel chatID st))
    = [(nextID (mbus st), approvalInterceptor channel chatID)] /\
  resultCh (captured (pending pe v channel chatID st)) = [] /\
  inbound (mbus (pending pe v channel chatID st)) = inbound (mbus st).
Proof. intros Hidle. unfold pending. cbn. now rewrite Hidle. Qed.

(** An approve reply on the chat of the cycle makes Evaluate succeed;
    the conversation before it reached the default consumer untouched,
    the reply itself did not. *)
Lemma Evaluate_reply_approves pe ctx v channel chatID st quiet reply later :
  interactive channel ->
  interceptors (mbus st) = [] ->
  arrivals ctx = (quiet ++ reply :: later)%list ->
  Forall (ordinary channel chatID) quiet ->
  addressed channel chatID reply ->
  approves (strings.TrimSpace (InboundMessage.Content reply)) ->
  fst (Evaluate pe ctx ModeApprove v channel chatID st) = None /\
  inbound (mbus (snd (Evaluate pe ctx ModeApprove v channel chatID st)))
    = (inbound (mbus st) ++ quiet)%list.
Proof.
  intros Hint Hidle Harr Hquiet Haddr Happ.
  rewrite (Evaluate_approve_interactive _ _ _ _ _ _ Hint), requestApproval_steps.
  cbv zeta. cbn [fst snd mbus removeInterceptor inbound]. rewrite Harr.
  destruct (pending_idle pe v channel chatID st Hidle) as (Hchain & Hch & Hq).
  destruct (pending pe v channel chatID st) as [mb h]. cbn [mbus captured] in *.
  destruct (await_ordinary channel chatID _ quiet (reply :: later) mb h
              Hchain Hch Hquiet) as (mb' & -> & Hi & Hq').
  rewrite <- Hi in Hchain.
  destruct (await_reply channel chatID _ reply later mb' h approved Hchain Hch
              (approvalInterceptor_approve _ _ _ _ Haddr Happ)) as [-> ->].
  now rewrite Hq', Hq.
Qed.

(** A deny reply makes it fail with the denial and its reason. *)
Lemma Evaluate_reply_denies pe ctx v channel chatID st quiet reply later :
  interactive channel ->
  interceptors (mbus st) = [] ->
  arrivals ctx = (quiet ++ reply :: later)%list ->
  Forall (ordinary channel chatID) quiet ->
  addressed channel chatID reply ->
  denies (strings.TrimSpace (InboundMessage.Content reply)) ->
  fst (Evaluate pe ctx ModeApprove v channel chatID st)
    = Some (Errorf "denied by user: denied by user") /\
  inbound (mbus (snd (Evaluate pe ctx ModeApprove v channel chatID st)))
    = (inbound (mbus st) ++ quiet)%list.
Proof.
  intros Hint Hidle Harr Hquiet Haddr Hden.
  rewrite (Evaluate_approve_interactive _ _ _ _ _ _ Hint), requestApproval_steps.
  cbv zeta. cbn [fst snd mbus removeInterceptor inbound]. rewrite Harr.
  destruct (pending_idle pe v channel chatID st Hidle) as (Hchain & Hch & Hq).
  destruct (pending pe v channel chatID st) as [mb h]. cbn [mbus captured] in *.
  destruct (await_ordinary channel chatID _ quiet (reply :: later) mb h
              Hchain Hch Hquiet) as (mb' & -> & Hi & Hq').
  rewrite <- Hi in Hchain.
  destruct (await_reply channel chatID _ reply later mb' h denied Hchain Hch
              (approvalInterceptor_deny _ _ _ _ Haddr Hden)) as [-> ->].
  now rewrite Hq', Hq.
Qed.

(** Without an accepted reply the cycle is not resolved: the timer or the
    context decides, and every arrival reached the default consumer. *)
Lemma Evaluate_unanswered pe ctx v channel chatID st :
  interactive channel ->
  interceptors (mbus st) = [] ->
  Forall (ordinary channel chatID) (arrivals ctx) ->
  resolution pe ctx v channel chatID st = None /\
  fst (Evaluate pe ctx ModeApprove v channel chatID st) =
    match finally ctx with
    | TimerFires =>
        Some (Errorf ("approval timed out after " ++
                      time.String_ (approvalTimeout pe)))
    | ContextDone e => Some (ContextErr e)
    end /\
  inbound (mbus (snd (Evaluate pe ctx ModeApprove v channel chatID st)))
    = (inbound (mbus st) ++ arrivals ctx)%list.
Proof.
  intros Hint Hidle Hquiet.
  rewrite (Evaluate_approve_interactive _ _ _ _ _ _ Hint), requestApproval_steps.
  unfold resolution. cbv zeta. cbn [fst snd mbus removeInterceptor inbound].
  destruct (pending_idle pe v channel chatID st Hidle) as (Hchain & Hch & Hq).
  destruct (pending pe v channel chatID st) as [mb h]. cbn [mbus captured] in *.
  destruct (await_ordinary channel chatID _ (arrivals ctx) [] mb h
              Hchain Hch Hquiet) as (mb' & Heq & Hi & Hq').
  rewrite app_nil_r in Heq. rewrite Heq. cbn [await captured]. rewrite Hch.
  cbn [fst snd mbus]. now rewrite Hq', Hq.
Qed.

End Replies.

(* ===================================================================== *)
(** ** Letter case on ASCII replies *)
(* ===================================================================== *)

Section AsciiCase.
Import gostring spec.
Context `{unicode.CaseTables}.

Lemma map_asciiLower_id (s : string) :
  existsb strings.isUpperASCII s = false -> map asciiLower s = s.
Proof.
  induction s as [|c s IH]; cbn; [reflexivity|].
  intros Hup. apply orb_false_iff in Hup as [Hc Hs].
  unfold asciiLower at 1. now rewrite Hc, IH.
Qed.

(** On a reply made of ASCII bytes, [strings.ToLower] lowers the letters
    A to Z byte by byte and nothing else. *)
Lemma ToLower_ascii (s : string) :
  isASCII s = true -> strings.ToLower s = map asciiLower s.
Proof.
  unfold isASCII, strings.ToLower. intros ->.
  destruct (existsb strings.isUpperASCII s) eqn:Hup; cbn [negb].
  - reflexivity.
  - symmetry. now apply map_asciiLower_id.
Qed.

(** Hence two ASCII strings are equal up to letter case exactly when
    their bytes agree once the capitals are lowered. *)
Lemma ci_eq_ascii (s k : string) :
  isASCII s = true -> isASCII k = true ->
  (ci_eq s k <-> map asciiLower s = map asciiLower k).
Proof.
  intros Hs Hk. unfold ci_eq. now rewrite (ToLower_ascii s Hs), (ToLower_ascii k Hk).
Qed.

End AsciiCase.

(* ===================================================================== *)
(** ** The tests of the repository, replayed on the model *)
(* ===================================================================== *)

Section Tests.
Import gostring bus security fixtures.

Example TestPolicyMode_IsOff :
  List.map IsOff [ModeOff; "off"; ""; ModeBlock; ModeApprove; "unknown"]
  = [true; true; true; false; false; false].
Proof. reflexivity. Qed.

Example TestPolicyEngine_GetMode :
  List.map (GetMode (engine 0))
    ["exec_guard"; "ssrf"; "path_validation"; "skill_validation";
     "unknown_category"]
  = [ModeBlock; ModeApprove; ModeOff; ModeOff; ModeOff].
Proof. reflexivity. Qed.

Example TestPolicyEngine_Evaluate_Off :
  fst (Evaluate (engine 0) (timer []) ModeOff (violation "" "test")
         "telegram" "chat1" fresh) = None.
Proof. reflexivity. Qed.

Example TestPolicyEngine_Evaluate_Block :
  match fst (Evaluate (engine 0) (timer []) ModeBlock
               (violation "exec_guard" "dangerous pattern")
               "telegram" "chat1" fresh) with
  | Some err => Contains (Error err) "blocked"
  | None => false
  end = true.
Proof. reflexivity. Qed.

Example TestPolicyEngine_Evaluate_Approve_CLIFallback :
  match fst (Evaluate (engine 5) (timer []) ModeApprove
               (violation "exec_guard" "test") "cli" "direct" fresh) with
  | Some err => Contains (Error err) "unavailable in CLI"
  | None => false
  end = true.
Proof. reflexivity. Qed.

Example TestPolicyEngine_Evaluate_Approve_Approved :
  let v :=
    {| Violation.Category := "exec_guard"; Violation.Tool := "exec";
       Violation.Action := "rm -rf /tmp/test";
       Violation.Reason := "dangerous pattern"; Violation.RuleName := "" |} in
  let '(err, st) :=
    Evaluate (engine 5) (timer [inbound_ "telegram" "chat123" "approve"])
      ModeApprove v "telegram" "chat123" fresh in
  err = None /\
  match SubscribeOutbound (mbus st) with
  | (Some out, mb) =>
      Contains (OutboundMessage.Content out) "Approval Required" = true /\
      outbound mb = []
  | (None, _) => False
  end.
Proof. vm_compute. repeat split. Qed.

Example TestPolicyEngine_Evaluate_Approve_Denied :
  match fst (Evaluate (engine 5) (timer [inbound_ "feishu" "chat456" "deny"])
               ModeApprove (violation "ssrf" "private IP")
               "feishu" "chat456" fresh) with
  | Some err => Contains (Error err) "denied"
  | None => false
  end = true.
Proof. vm_compute. reflexivity. Qed.

Example TestPolicyEngine_Evaluate_Approve_Timeout :
  fst (Evaluate (engine 1) (timer []) ModeApprove
         (violation "exec_guard" "test") "telegram" "chat789" fresh)
  = Some (Errorf "approval timed out after 1s").
Proof. vm_compute. reflexivity. Qed.

Example TestPolicyEngine_Evaluate_Approve_NonMatchingMessages :
  let '(err, st) :=
    Evaluate (engine 2)
      (timer [inbound_ "telegram" "other-chat" "approve";
              inbound_ "telegram" "chat100" "hello";
              inbound_ "telegram" "chat100" "approve"])
      ModeApprove (violation "exec_guard" "test") "telegram" "chat100" fresh in
  err = None /\
  inbound (mbus st) = [inbound_ "telegram" "other-chat" "approve";
                       inbound_ "telegram" "chat100" "hello"].
Proof. vm_compute. repeat split. Qed.

(** The default of 300 seconds reads [5m0s] in the failure. *)
Example timeout_unset :
  fst (Evaluate (engine 0) (timer []) ModeApprove
         (violation "exec_guard" "test") "telegram" "chat789" fresh)
  = Some (Errorf "approval timed out after 5m0s").
Proof. vm_compute. reflexivity. Qed.

(** Two cycles in a row on the same chat: the first times out, the second
    is approved by a fresh reply; one prompt each, no registration left. *)
Example sequential_cycles :
  let v := violation "exec_guard" "test" in
  let '(err1, st1) :=
    Evaluate (engine 1) (timer [inbound_ "telegram" "chat1" "hello"])
      ModeApprove v "telegram" "chat1" fresh in
  let '(err2, st2) :=
    Evaluate (engine 1) (timer [inbound_ "telegram" "chat1" "y"])
      ModeApprove v "telegram" "chat1" st1 in
  err1 = Some (Errorf "approval timed out after 1s") /\
  err2 = None /\
  List.length (outbound (mbus st2)) = 2%nat /\
  interceptors (mbus st2) = [] /\
  inbound (mbus st2) = [inbound_ "telegram" "chat1" "hello"].
Proof. vm_compute. repeat split. Qed.

Example TestIsApproveKeyword :
  List.map isApproveKeyword ["approve"; "yes"; "allow"; "ok"; "y"]
    = [true; true; true; true; true] /\
  List.map isApproveKeyword ["deny"; "no"; "hello"; ""]
    = [false; false; false; false].
Proof. split; reflexivity. Qed.

Example TestIsApproveKeywordCJK :
  List.map isApproveKeywordCJK
    ["批准"; "允许"; "通过"; "是"; "承認"; "許可"; "はい"]
    = [true; true; true; true; true; true; true] /\
  List.map isApproveKeywordCJK ["拒绝"; "否决"; "hello"; ""]
    = [false; false; false; false].
Proof. split; reflexivity. Qed.

Example TestIsDenyKeyword :
  List.map isDenyKeyword ["deny"; "no"; "reject"; "block"; "n"]
    = [true; true; true; true; true] /\
  List.map isDenyKeyword ["approve"; "yes"; "hello"; ""]
    = [false; false; false; false].
Proof. split; reflexivity. Qed.

Example TestIsDenyKeywordCJK :
  List.map isDenyKeywordCJK ["拒绝"; "否决"; "不"; "拒否"; "いいえ"]
    = [true; true; true; true; true] /\
  List.map isDenyKeywordCJK ["批准"; "允许"; "hello"; ""]
    = [false; false; false; false].
Proof. split; reflexivity. Qed.

End Tests.

(* ===================================================================== *)
(** ** More on the policy engine *)
(* ===================================================================== *)

Section EngineMore.
Import gostring bus security spec.
Context `{unicode.CaseTables} {E : Type}.
Implicit Types (pe : PolicyEngine) (ctx : Run) (v : Violation.t)
  (st : World E).

Lemma history_grows {A : Type} (l more : list A) :
  more <> [] -> l <> (l ++ more)%list.
Proof.
  intros Hne Heq. apply (f_equal (@List.length A)) in Heq.
  rewrite length_app in Heq. destruct more; [contradiction | cbn in Heq; lia].
Qed.

(** X1. Evaluate leaves the router and the captured variables exactly as
    it found them unless the mode is "approve" and the channel is
    interactive; in that one case the router history grows. *)
Theorem Evaluate_touches_router_iff_asking pe ctx mode v channel chatID st :
  snd (Evaluate pe ctx mode v channel chatID st) = st <->
  ~ (mode = ModeApprove /\ interactive channel).
Proof.
  split.
  - intros Hsame [-> Hint].
    rewrite (Evaluate_approve_interactive _ _ _ _ _ _ Hint),
      requestApproval_steps in Hsame.
    cbv zeta in Hsame. cbn [snd] in Hsame.
    apply (f_equal (fun w => history (mbus w))) in Hsame.
    cbn [mbus removeInterceptor history] in Hsame.
    destruct (await_frame (arrivals ctx) (pending pe v channel chatID st))
      as (_ & _ & _ & traffic & Hh & _).
    rewrite Hh in Hsame. unfold pending in Hsame.
    cbn [mbus PublishOutbound AddInterceptor snd history] in Hsame.
    rewrite <- !app_assoc in Hsame. symmetry in Hsame.
    revert Hsame. apply history_grows. discriminate.
  - intros Hnot. unfold Evaluate, IsOff, ModeOff, ModeBlock.
    destruct (String.eqb_spec mode ""); [reflexivity|].
    destruct (String.eqb_spec mode "off"); [reflexivity|]. cbn [orb].
    destruct (String.eqb_spec mode "block"); [reflexivity|].
    destruct (String.eqb_spec mode ModeApprove) as [Hm|]; [|reflexivity].
    destruct (String.eqb_spec channel ""); [reflexivity|].
    destruct (String.eqb_spec channel "cli"); [reflexivity|].
    exfalso. apply Hnot. now repeat split.
Qed.

(** X2. Whatever number of seconds is configured, the duration
    [requestApproval] waits for is positive and fits a [Duration]: a
    value that is zero, negative or wrapped around to a non-positive
    count is replaced by 300 seconds before the timer is set. *)
Theorem approvalTimeout_positive pe :
  0 < approvalTimeout pe < 2 ^ 63.
Proof.
  unfold approvalTimeout, time.mul, time.Second.
  set (x := time.wrap64 (config.ApprovalTimeout (config_ pe)) * 1000000000).
  assert (Hb : - 2 ^ 63 <= time.wrap64 x < 2 ^ 63).
  { unfold time.wrap64.
    change (2 ^ 63) with 9223372036854775808.
    change (2 ^ 64) with 18446744073709551616.
    pose proof (Z.mod_pos_bound (x + 9223372036854775808) 18446744073709551616).
    lia. }
  change (2 ^ 63) with 9223372036854775808 in *.
  destruct (Z.leb_spec (time.wrap64 x) 0); lia.
Qed.

(** X3. The two tests of the interceptor never hold together: no reply
    is at once an approve keyword (of either table) and a deny keyword
    (of either table), so the order of the two tests decides nothing. *)
Theorem keyword_tests_exclusive (content : string) :
  (isApproveKeyword (strings.ToLower content) || isApproveKeywordCJK content)
  && (isDenyKeyword (strings.ToLower content) || isDenyKeywordCJK content)
  = false.
Proof.
  apply not_true_is_false. intros Hboth.
  apply andb_true_iff in Hboth as [Ha Hd].
  apply approves_iff in Ha. apply denies_iff in Hd.
  exact (approves_denies_exclusive content Ha Hd).
Qed.

(** X4. On a router without other registrations, the first accepted
    reply on the chat of the cycle decides the call: an approve keyword
    makes Evaluate succeed, a deny keyword makes it fail with "denied by
    user".  The ordinary conversation that arrived before it has reached
    the default queue, in order; the reply itself has not, and whatever
    arrives after it plays no part. *)
Theorem first_accepted_reply_decides pe ctx v channel chatID st
    quiet reply later :
  interactive channel ->
  interceptors (mbus st) = [] ->
  arrivals ctx = (quiet ++ reply :: later)%list ->
  Forall (ordinary channel chatID) quiet ->
  addressed channel chatID reply ->
  let content := strings.TrimSpace (InboundMessage.Content reply) in
  let result := Evaluate pe ctx ModeApprove v channel chatID st in
  (approves content -> fst result = None) /\
  (denies content ->
   fst result = Some (Errorf "denied by user: denied by user")) /\
  (approves content \/ denies content ->
   inbound (mbus (snd result)) = (inbound (mbus st) ++ quiet)%list).
Proof.
  intros Hint Hidle Harr Hquiet Haddr. cbv zeta.
  split; [|split].
  - intros Ha.
    apply (Evaluate_reply_approves pe ctx v channel chatID st quiet reply later);
      assumption.
  - intros Hd.
    apply (Evaluate_reply_denies pe ctx v channel chatID st quiet reply later);
      assumption.
  - intros [Ha | Hd].
    + apply (Evaluate_reply_approves pe ctx v channel chatID st quiet reply
               later); assumption.
    + apply (Evaluate_reply_denies pe ctx v channel chatID st quiet reply
               later); assumption.
Qed.

(** X5. On a router without other registrations, a cycle that sees only
    ordinary conversation (other chats, other channels, words that are no
    keyword) consumes none of it: every arrival is on the default queue
    in its order, and the call ends by the timer with a "timed out"
    failure or by the context with the context's error. *)
Theorem unanswered_cycle_passes_conversation pe ctx v channel chatID st :
  interactive channel ->
  interceptors (mbus st) = [] ->
  Forall (ordinary channel chatID) (arrivals ctx) ->
  let result := Evaluate pe ctx ModeApprove v channel chatID st in
  inbound (mbus (snd result)) = (inbound (mbus st) ++ arrivals ctx)%list /\
  interceptors (mbus (snd result)) = [] /\
  (finally ctx = TimerFires ->
   exists msg, fst result = Some (Errorf msg) /\
               HasPrefix msg "approval timed out after " = true) /\
  (forall e, finally ctx = ContextDone e -> fst result = Some (ContextErr e)).
Proof.
  intros Hint Hidle Hquiet. cbv zeta.
  destruct (Evaluate_unanswered pe ctx v channel chatID st Hint Hidle Hquiet)
    as (_ & Herr & Hq).
  split; [exact Hq|].
  split.
  { rewrite (Evaluate_approve_interactive _ _ _ _ _ _ Hint),
      requestApproval_steps.
    cbv zeta. cbn [snd mbus removeInterceptor interceptors].
    destruct (await_frame (arrivals ctx) (pending pe v channel chatID st))
      as (Hi & _).
    rewrite Hi. unfold pending.
    cbn [mbus PublishOutbound AddInterceptor snd interceptors].
    rewrite Hidle. cbn. now rewrite Nat.eqb_refl. }
  split.
  - intros Hfin. rewrite Hfin in Herr. eexists. split; [exact Herr|].
    apply HasPrefix_iff. eexists. reflexivity.
  - intros e Hfin. now rewrite Hfin in Herr.
Qed.

(** X6. With a timeout that is unset or not positive (down to
    -9223372036 seconds) the prompt the cycle publishes ends with the
    instruction lines and announces no delay, yet the wait is still
    bounded: left unanswered, the call fails with "approval timed out
    after 5m0s". *)
Theorem unannounced_default_timeout pe ctx v channel chatID st :
  interactive channel ->
  - 9223372036 <= config.ApprovalTimeout (config_ pe) <= 0 ->
  arrivals ctx = [] ->
  finally ctx = TimerFires ->
  let result := Evaluate pe ctx ModeApprove v channel chatID st in
  fst result = Some (Errorf "approval timed out after 5m0s") /\
  exists out before,
    outbound (mbus (snd result)) = (outbound (mbus st) ++ [out])%list /\
    OutboundMessage.Content out = before ++ replyLine ++ nl ++ replyLineExact ++ nl.
Proof.
  intros Hint Ht Harr Hfin. cbv zeta.
  rewrite (Evaluate_approve_interactive _ _ _ _ _ _ Hint), requestApproval_steps.
  cbv zeta. rewrite Harr, Hfin. cbn [await pending captured resultCh fst snd].
  split.
  - destruct (approvalTimeout_representable pe) as [_ Hdef];
      [unfold representable; lia|].
    rewrite (Hdef (proj2 Ht)). reflexivity.
  - exists (prompt pe v channel chatID).
    exists (unlines
              ([header; ""; "Category: " ++ Violation.Category v] ++
               field "Tool: " (Violation.Tool v) ++
               field "Action: " (Violation.Action v) ++
               ["Reason: " ++ Violation.Reason v] ++
               field "Rule: " (Violation.RuleName v)) ++ nl).
    split; [reflexivity|].
    unfold prompt. cbn [OutboundMessage.Content].
    rewrite formatApprovalMessage_lines. unfold promptLines.
    assert (Hltb : (0 <? config.ApprovalTimeout (config_ pe)) = false)
      by (apply Z.ltb_ge; lia).
    rewrite Hltb, !unlines_app.
    cbn [unlines]. rewrite ?sapp_assoc, ?sapp_nil_r. reflexivity.
Qed.

End EngineMore.

Lemma first_accepted_reply_decides_witness :
  let quiet := [fixtures.inbound_ "telegram" "chat999" "approve"] in
  let reply := fixtures.inbound_ "telegram" "chat100" "  YES " in
  let later := [fixtures.inbound_ "telegram" "chat100" "no"] in
  let result :=
    security.Evaluate (fixtures.engine 5)
      (fixtures.timer (quiet ++ reply :: later)) security.ModeApprove
      (fixtures.violation "exec_guard" "test") "telegram" "chat100"
      fixtures.fresh in
  fst result = None /\
  bus.inbound (security.mbus (snd result)) = quiet.
Proof.
  cbv zeta.
  destruct (first_accepted_reply_decides (fixtures.engine 5)
              (fixtures.timer
                 ([fixtures.inbound_ "telegram" "chat999" "approve"] ++
                  fixtures.inbound_ "telegram" "chat100" "  YES " ::
                  [fixtures.inbound_ "telegram" "chat100" "no"]))
              (fixtures.violation "exec_guard" "test") "telegram" "chat100"
              fixtures.fresh
              [fixtures.inbound_ "telegram" "chat999" "approve"]
              (fixtures.inbound_ "telegram" "chat100" "  YES ")
              [fixtures.inbound_ "telegram" "chat100" "no"])
    as (Hok & _ & Hq).
  - split; discriminate.
  - reflexivity.
  - reflexivity.
  - constructor; [|constructor]. intros [[_ Hchat] _]. discriminate Hchat.
  - split; reflexivity.
  - assert (Hyes : spec.approves
                     (strings.TrimSpace
                        (bus.InboundMessage.Content
                           (fixtures.inbound_ "telegram" "chat100" "  YES "))))
      by (left; exists "yes"; split; [right; left; reflexivity | reflexivity]).
    split; [exact (Hok Hyes) | exact (Hq (or_introl Hyes))].
Defined.

Lemma unanswered_cycle_passes_conversation_witness :
  let talk :=
    [fixtures.inbound_ "telegram" "chat100" "hello";
     fixtures.inbound_ "slack" "chat100" "yes"] in
  let result :=
    security.Evaluate (fixtures.engine 5) (fixtures.timer talk)
      security.ModeApprove (fixtures.violation "exec_guard" "test")
      "telegram" "chat100" fixtures.fresh in
  bus.inbound (security.mbus (snd result)) = talk /\
  bus.interceptors (security.mbus (snd result)) = [] /\
  fst result = Some (Errorf "approval timed out after 5s").
Proof.
  cbv zeta.
  destruct (unanswered_cycle_passes_conversation (fixtures.engine 5)
              (fixtures.timer
                 [fixtures.inbound_ "telegram" "chat100" "hello";
                  fixtures.inbound_ "slack" "chat100" "yes"])
              (fixtures.violation "exec_guard" "test") "telegram" "chat100"
              fixtures.fresh)
    as (Hq & Hchain & _ & _).
  - split; discriminate.
  - reflexivity.
  - constructor; [|constructor; [|constructor]].
    + intros [_ [Ha | Hd]].
      * apply approves_iff in Ha. discriminate Ha.
      * apply denies_iff in Hd. discriminate Hd.
    + intros [[Hchan _] _]. discriminate Hchan.
  - split; [exact Hq | split; [exact Hchain | reflexivity]].
Defined.

Lemma unannounced_default_timeout_witness :
  let result :=
    security.Evaluate (fixtures.engine 0) (fixtures.timer [])
      security.ModeApprove (fixtures.violation "exec_guard" "test")
      "telegram" "chat100" fixtures.fresh in
  fst result = Some (Errorf "approval timed out after 5m0s") /\
  exists out before,
    bus.outbound (security.mbus (snd result)) = [out] /\
    bus.OutboundMessage.Content out =
      before ++ spec.replyLine ++ gostring.nl ++ spec.replyLineExact ++
      gostring.nl.
Proof.
  cbv zeta.
  apply (unannounced_default_timeout (fixtures.engine 0) (fixtures.timer [])
           (fixtures.violation "exec_guard" "test") "telegram" "chat100"
           fixtures.fresh).
  - split; discriminate.
  - cbn. lia.
  - reflexivity.
  - reflexivity.
Defined.

Section ModesMore.
Import gostring security spec.

(** X7. Mode lookup returns "block" exactly when the category is one of
    the four and its configured string is "block", "approve" exactly when
    it is one of the four and its configured string is "approve", and
    "off" in every other case; it never returns anything else, so the
    default branch of Evaluate is not reached through it. *)
Theorem GetMode_exact (pe : PolicyEngine) (category : string) :
  (GetMode pe category = ModeBlock <->
   In (category, "block") (settings (config_ pe))) /\
  (GetMode pe category = ModeApprove <->
   In (category, "approve") (settings (config_ pe))) /\
  (GetMode pe category = ModeOff <->
   ~ In (category, "block") (settings (config_ pe)) /\
   ~ In (category, "approve") (settings (config_ pe))).
Proof.
  assert (Hraw : forall raw,
             let m := if case_ raw [ModeBlock] then ModeBlock
                      else if case_ raw [ModeApprove] then ModeApprove
                      else ModeOff in
             (m = ModeBlock <-> raw = "block") /\
             (m = ModeApprove <-> raw = "approve") /\
             (m = ModeOff <-> raw <> "block" /\ raw <> "approve")).
  { intros raw. cbv zeta. rewrite !case_single.
    unfold ModeBlock, ModeApprove, ModeOff.
    destruct (String.eqb_spec raw "block") as [->|Hb].
    - repeat split; try discriminate; intuition congruence.
    - destruct (String.eqb_spec raw "approve") as [->|Ha].
      + repeat split; try discriminate; intuition congruence.
      + repeat split; try discriminate; intuition congruence. }
  unfold GetMode, settings. rewrite !case_single. cbn [In].
  destruct (String.eqb_spec category "exec_guard") as [->|H1].
  { specialize (Hraw (config.ExecGuard (config_ pe))). cbv zeta in Hraw.
    destruct Hraw as (Hb & Ha & Ho). rewrite Hb, Ha, Ho.
    repeat split; intros; intuition (try discriminate; try congruence). }
  destruct (String.eqb_spec category "ssrf") as [->|H2].
  { specialize (Hraw (config.SSRFProtection (config_ pe))). cbv zeta in Hraw.
    destruct Hraw as (Hb & Ha & Ho). rewrite Hb, Ha, Ho.
    repeat split; intros; intuition (try discriminate; try congruence). }
  destruct (String.eqb_spec category "path_validation") as [->|H3].
  { specialize (Hraw (config.PathValidation (config_ pe))). cbv zeta in Hraw.
    destruct Hraw as (Hb & Ha & Ho). rewrite Hb, Ha, Ho.
    repeat split; intros; intuition (try discriminate; try congruence). }
  destruct (String.eqb_spec category "skill_validation") as [->|H4].
  { specialize (Hraw (config.SkillValidation (config_ pe))). cbv zeta in Hraw.
    destruct Hraw as (Hb & Ha & Ho). rewrite Hb, Ha, Ho.
    repeat split; intros; intuition (try discriminate; try congruence). }
  unfold ModeOff, ModeBlock, ModeApprove.
  repeat split; intros; try discriminate;
    intuition (try discriminate; try congruence).
Qed.

End ModesMore.

(* ===================================================================== *)
(** ** The substring search of the tests *)
(* ===================================================================== *)

Section Search.
Import gostring security_test.

Lemma drop_length (i : nat) (s : string) :
  String.length (drop i s) = (String.length s - i)%nat.
Proof.
  revert s. induction i as [|i IH]; intros [|c s]; cbn [drop String.length];
    try reflexivity. apply IH.
Qed.

Lemma drop_step (i : nat) (s : string) :
  (i < String.length s)%nat ->
  exists c, drop i s = String c (drop (S i) s).
Proof.
  revert s. induction i as [|i IH]; intros [|c s] Hlt; cbn [String.length] in Hlt;
    try lia.
  - now exists c.
  - cbn [drop]. apply IH. lia.
Qed.

Lemma substring_drop (i n : nat) (s : string) :
  String.substring i n s = String.substring 0 n (drop i s).
Proof.
  revert s. induction i as [|i IH]; intros [|c s]; cbn [drop]; try reflexivity.
  - destruct n; reflexivity.
  - cbn [String.substring]. apply IH.
Qed.

Lemma substring_prefix (s sub : string) :
  (String.length sub <= String.length s)%nat ->
  (String.substring 0 (String.length sub) s =? sub)%string = HasPrefix s sub.
Proof.
  revert s. induction sub as [|a sub IH]; intros [|b s] Hle;
    cbn [String.length] in Hle; try lia.
  - reflexivity.
  - reflexivity.
  - cbn [String.length String.substring HasPrefix String.eqb].
    rewrite IH by lia. rewrite (Ascii.eqb_sym b a). reflexivity.
Qed.

Lemma HasPrefix_short (s sub : string) :
  (String.length s < String.length sub)%nat -> HasPrefix s sub = false.
Proof.
  revert s. induction sub as [|a sub IH]; intros [|b s] Hlt;
    cbn [String.length] in Hlt; try lia; cbn [HasPrefix]; [reflexivity|].
  rewrite IH by lia. apply andb_false_r.
Qed.

Lemma Contains_short (s sub : string) :
  (String.length s < String.length sub)%nat -> Contains s sub = false.
Proof.
  induction s as [|c s IH]; intros Hlt; cbn [Contains].
  - now rewrite HasPrefix_short.
  - rewrite HasPrefix_short by exact Hlt. cbn [String.length] in Hlt.
    rewrite IH by lia. reflexivity.
Qed.

Lemma HasPrefix_refl (s : string) : HasPrefix s s = true.
Proof. apply HasPrefix_iff. exists "". now rewrite sapp_nil_r. Qed.

(** The loop, started at [i] with enough fuel to reach the end, searches
    the suffix of [s] that starts at [i]. *)
Lemma containsHelper_loop_drop (s sub : string) (fuel i : nat) :
  (i <= String.length s)%nat ->
  (String.length s < i + fuel)%nat ->
  containsHelper_loop fuel s sub (Z.of_nat i) = Contains (drop i s) sub.
Proof.
  revert i. induction fuel as [|fuel IH]; intros i Hi Hfuel; [lia|].
  cbn [containsHelper_loop]. unfold len.
  destruct (Z.leb_spec (Z.of_nat i)
              (Z.of_nat (String.length s) - Z.of_nat (String.length sub)))
    as [Hfit | Hover].
  - unfold slice.
    replace (Z.of_nat i + Z.of_nat (String.length sub) - Z.of_nat i)
      with (Z.of_nat (String.length sub)) by lia.
    rewrite !Nat2Z.id, substring_drop, substring_prefix
      by (rewrite drop_length; lia).
    destruct (Nat.eq_dec i (String.length s)) as [-> | Hne].
    + assert (Hsub : sub = "") by (destruct sub; [reflexivity | cbn in Hfit; lia]).
      subst sub. destruct (drop (String.length s) s); reflexivity.
    + destruct (drop_step i s) as (c & Hc); [lia|].
      rewrite Hc at 2. cbn [Contains]. rewrite <- Hc.
      destruct (HasPrefix (drop i s) sub); [reflexivity|]. cbn [orb].
      replace (Z.of_nat i + 1) with (Z.of_nat (S i)) by lia.
      apply IH; lia.
  - symmetry. apply Contains_short. rewrite drop_length. lia.
Qed.

(** X8. The substring search written for the tests agrees with
    [strings.Contains] on all inputs, the empty strings included: it
    answers true exactly when [sub] occurs inside [s]. *)
Theorem containsSubstring_is_Contains (s sub : string) :
  containsSubstring s sub = Contains s sub /\
  (containsSubstring s sub = true <-> Occurs sub s).
Proof.
  assert (Heq : containsSubstring s sub = Contains s sub).
  { unfold containsSubstring, containsHelper, len.
    change 0 with (Z.of_nat 0) at 2.
    rewrite (containsHelper_loop_drop s sub (S (String.length s)) 0) by lia.
    cbn [drop].
    destruct (Z.leb_spec (Z.of_nat (String.length sub))
                (Z.of_nat (String.length s))) as [Hle | Hgt]; cbn [andb].
    - destruct (String.eqb_spec s sub) as [-> | Hne]; cbn [orb].
      + destruct sub; cbn [Contains]; now rewrite HasPrefix_refl.
      + destruct (Z.ltb_spec 0 (Z.of_nat (String.length s))) as [Hpos | Hzero];
          [reflexivity|].
        exfalso. apply Hne.
        destruct s; [|cbn in Hzero; lia].
        destruct sub; [reflexivity | cbn in Hle; lia].
    - symmetry. apply Contains_short. lia. }
  split; [exact Heq|]. rewrite Heq. apply Contains_iff.
Qed.

End Search.

(* ===================================================================== *)
(** ** The address check of the URL guard *)
(* ===================================================================== *)

Section Addresses.
Import gostring net utils.

Lemma b2z_range (b : Byte.byte) : 0 <= b2z b < 256.
Proof. destruct b; vm_compute; split; congruence. Qed.

Lemma b2z_inj (x y : Byte.byte) : b2z x = b2z y -> x = y.
Proof.
  unfold b2z. intros Heq. apply N2Z.inj in Heq.
  apply (f_equal Byte.of_N) in Heq. rewrite !Byte.of_to_N in Heq.
  now injection Heq.
Qed.

Lemma byte_eqb_b2z (x y : Byte.byte) : Byte.eqb x y = (b2z x =? b2z y).
Proof.
  destruct (Z.eqb_spec (b2z x) (b2z y)) as [Heq | Hne].
  - apply b2z_inj in Heq. subst y. apply Byte.byte_dec_lb. reflexivity.
  - destruct (Byte.eqb x y) eqn:E; [|reflexivity].
    apply Byte.byte_dec_bl in E. now subst y.
Qed.

Lemma bytesEqual_eq (x y : list Byte.byte) : bytesEqual x y = true <-> x = y.
Proof.
  revert y. induction x as [|a x IH]; intros [|b y]; cbn [bytesEqual];
    try (split; [discriminate | discriminate]); [tauto|].
  rewrite andb_true_iff, IH. split.
  - intros [Hab ->]. apply Byte.byte_dec_bl in Hab. now subst.
  - intros [= -> ->]. split; [apply Byte.byte_dec_lb|]; reflexivity.
Qed.

Lemma land_240 (b : Byte.byte) :
  (Z.land (b2z b) 240 =? 16) = (16 <=? b2z b) && (b2z b <=? 31).
Proof. destruct b; reflexivity. Qed.

Lemma land_254 (b : Byte.byte) :
  (Z.land (b2z b) 254 =? 252) = (252 <=? b2z b) && (b2z b <=? 253).
Proof. destruct b; reflexivity. Qed.

Lemma land_192 (b : Byte.byte) :
  (Z.land (b2z b) 192 =? 128) = (128 <=? b2z b) && (b2z b <=? 191).
Proof. destruct b; reflexivity. Qed.

Lemma land_15 (b : Byte.byte) :
  (Z.land (b2z b) 15 =? 2) = (b2z b mod 16 =? 2).
Proof. destruct b; reflexivity. Qed.


Lemma length4 {A : Type} (l : list A) :
  List.length l = 4%nat -> exists a b c d, l = [a; b; c; d].
Proof.
  destruct l as [|a [|b [|c [|d [|e l]]]]]; try discriminate.
  intros _. now exists a, b, c, d.
Qed.

Lemma isZeros_repeat (p : list Byte.byte) :
  isZeros p = true -> p = repeat Byte.x00 (List.length p).
Proof.
  induction p as [|x p IH]; cbn [isZeros forallb List.length repeat];
    [reflexivity|].
  intros Hz. apply andb_true_iff in Hz as [Hx Hp].
  apply Z.eqb_eq in Hx. change 0 with (b2z Byte.x00) in Hx.
  apply b2z_inj in Hx. subst x. f_equal. apply IH, Hp.
Qed.

(** An address has a 4-byte form exactly when it is written on four
    bytes or is the 16-byte form of an IPv4 address. *)
Lemma To4_Some (ip ip4 : IP) :
  To4 ip = Some ip4 ->
  exists a b c d,
    ip4 = [a; b; c; d] /\ (ip = [a; b; c; d] \/ ip = IPv4 a b c d).
Proof.
  unfold To4.
  destruct (Nat.eqb_spec (List.length ip) IPv4len) as [H4 | H4].
  - intros [= <-]. destruct (length4 ip H4) as (a & b & c & d & ->).
    exists a, b, c, d. split; [reflexivity | now left].
  - destruct (Nat.eqb_spec (List.length ip) IPv6len) as [H16 | H16];
      [|discriminate]. cbn [andb].
    destruct (isZeros (firstn 10 ip)) eqn:Hz; [|discriminate]. cbn [andb].
    destruct (Z.eqb_spec (idx ip 10) 255) as [H10 | H10]; [|discriminate].
    destruct (Z.eqb_spec (idx ip 11) 255) as [H11 | H11]; [|discriminate].
    cbn [andb]. intros [= <-].
    apply isZeros_repeat in Hz.
    do 16 (destruct ip as [|? ip]; [discriminate H16|]).
    destruct ip; [|discriminate H16].
    cbn [firstn List.length repeat] in Hz. injection Hz as -> -> -> -> -> -> -> -> -> ->.
    unfold idx in H10, H11. cbn [nth] in H10, H11.
    change 255 with (b2z Byte.xff) in H10, H11.
    apply b2z_inj in H10, H11. subst.
    cbn [skipn firstn]. do 4 eexists. split; [reflexivity | now right].
Qed.

Lemma To4_four (a b c d : Byte.byte) : To4 [a; b; c; d] = Some [a; b; c; d].
Proof. reflexivity. Qed.

Lemma To4_IPv4 (a b c d : Byte.byte) : To4 (IPv4 a b c d) = Some [a; b; c; d].
Proof. reflexivity. Qed.

(** Equality with the 16-byte form of an IPv4 address. *)
Lemma Equal_IPv4 (ip : IP) (a b c d : Byte.byte) :
  Equal ip (IPv4 a b c d) = true <-> ip = [a; b; c; d] \/ ip = IPv4 a b c d.
Proof.
  split.
  - unfold Equal. change (List.length (IPv4 a b c d)) with 16%nat.
    destruct (Nat.eqb_spec (List.length ip) 16) as [H16 | H16].
    + intros Heq. apply bytesEqual_eq in Heq. now right.
    + destruct (Nat.eqb_spec (List.length ip) IPv4len) as [H4 | H4].
      * cbn [andb Nat.eqb IPv6len]. intros Heq.
        apply andb_true_iff in Heq as [_ Heq].
        apply bytesEqual_eq in Heq. now left.
      * cbn [andb]. rewrite andb_false_r. discriminate.
  - intros [-> | ->]; unfold Equal; cbn [List.length IPv4 app v4InV6Prefix repeat Nat.eqb IPv4len IPv6len andb firstn skipn].
    + apply andb_true_iff. split; apply bytesEqual_eq; reflexivity.
    + apply bytesEqual_eq. reflexivity.
Qed.

(** Equality with a 16-byte address that is not an IPv4 one. *)
Lemma Equal_v6 (ip x : IP) :
  List.length x = IPv6len -> To4 x = None ->
  (Equal ip x = true <-> ip = x).
Proof.
  intros Hx Hnot. split.
  - unfold Equal. rewrite Hx.
    destruct (Nat.eqb_spec (List.length ip) IPv6len) as [H16 | H16].
    + apply bytesEqual_eq.
    + destruct (Nat.eqb_spec (List.length ip) IPv4len) as [H4 | H4].
      * cbn [andb Nat.eqb IPv6len]. intros Heq.
        apply andb_true_iff in Heq as [Hpre Heq].
        apply bytesEqual_eq in Hpre.
        exfalso. unfold To4 in Hnot. rewrite Hx in Hnot.
        cbn [Nat.eqb IPv6len IPv4len andb] in Hnot.
        do 16 (destruct x as [|? x]; [discriminate Hx|]).
        destruct x; [|discriminate Hx].
        cbn [firstn] in Hpre. unfold v4InV6Prefix in Hpre.
        cbn [repeat app] in Hpre.
        injection Hpre as -> -> -> -> -> -> -> -> -> -> -> ->.
        discriminate Hnot.
      * cbn [andb]. discriminate.
  - intros ->. unfold Equal. rewrite Nat.eqb_refl. now apply bytesEqual_eq.
Qed.


Lemma validateIP_None (ip : IP) :
  validateIP ip = None <->
  IsLoopback ip = false /\ IsPrivate ip = false /\
  IsLinkLocalUnicast ip = false /\ IsLinkLocalMulticast ip = false /\
  IsUnspecified ip = false /\ Equal ip metadataIP = false.
Proof.
  unfold validateIP.
  destruct (IsLoopback ip), (IsPrivate ip), (IsLinkLocalUnicast ip),
    (IsLinkLocalMulticast ip), (IsUnspecified ip), (Equal ip metadataIP);
    cbn [orb]; split; try discriminate; try tauto;
    intros (? & ? & ? & ? & ? & ?); discriminate.
Qed.

(** The metadata address is a link-local one. *)
Lemma metadata_link_local (ip : IP) :
  Equal ip metadataIP = true -> IsLinkLocalUnicast ip = true.
Proof.
  intros Heq. apply Equal_IPv4 in Heq as [-> | ->]; reflexivity.
Qed.

Lemma unspecified4 (ip : IP) (a b c d : Byte.byte) :
  ip = [a; b; c; d] \/ ip = IPv4 a b c d ->
  (IsUnspecified ip = true <->
   b2z a = 0 /\ b2z b = 0 /\ b2z c = 0 /\ b2z d = 0).
Proof.
  intros Hip. unfold IsUnspecified. rewrite orb_true_iff.
  assert (Hnot6 : Equal ip IPv6unspecified = true <-> False).
  { rewrite Equal_v6 by reflexivity.
    split; [|tauto]. destruct Hip as [-> | ->]; discriminate. }
  rewrite Hnot6. unfold IPv4zero. rewrite Equal_IPv4.
  change 0 with (b2z Byte.x00). split.
  - intros [[Heq | Heq] | []]; subst ip.
    + destruct Hip as [Hip | Hip]; [|discriminate Hip].
      now injection Hip as <- <- <- <-.
    + destruct Hip as [Hip | Hip]; [discriminate Hip|].
      now injection Hip as <- <- <- <-.
  - intros (Ha & Hb & Hc & Hd).
    apply b2z_inj in Ha, Hb, Hc, Hd. subst. left. exact Hip.
Qed.

(** X9. For an IPv4 address, on four bytes or in its 16-byte form, the
    check passes exactly when the address lies outside 127.0.0.0/8,
    10.0.0.0/8, 172.16.0.0/12, 192.168.0.0/16, 169.254.0.0/16,
    224.0.0.0/24 and is not 0.0.0.0.  Both forms are judged alike, so
    an IPv4-mapped IPv6 address gets no other treatment than the IPv4
    address inside it. *)
Theorem validateIP_ipv4_ranges (ip ip4 : IP) :
  To4 ip = Some ip4 ->
  (validateIP ip = None <->
   ~ blocked4 (idx ip4 0) (idx ip4 1) (idx ip4 2) (idx ip4 3)).
Proof.
  intros H4. destruct (To4_Some ip ip4 H4) as (a & b & c & d & -> & Hip).
  rewrite validateIP_None.
  pose proof (unspecified4 ip a b c d Hip) as Hun.
  assert (Hmeta : Equal ip metadataIP = true -> IsLinkLocalUnicast ip = true)
    by apply metadata_link_local.
  unfold IsLoopback, IsPrivate, IsLinkLocalUnicast, IsLinkLocalMulticast in *.
  rewrite H4 in *. unfold idx in *. cbn [nth] in *.
  rewrite land_240.
  pose proof (b2z_range a). pose proof (b2z_range b).
  pose proof (b2z_range c). pose proof (b2z_range d).
  destruct (IsUnspecified ip) eqn:Eun.
  { split; [intros (_ & _ & _ & _ & Hf & _); discriminate|].
    intros Hnot. exfalso. apply Hnot. unfold blocked4.
    destruct Hun as [Hun _]. specialize (Hun eq_refl). tauto. }
  assert (Hnz : ~ (b2z a = 0 /\ b2z b = 0 /\ b2z c = 0 /\ b2z d = 0))
    by (intros Hz; apply Hun in Hz; discriminate).
  destruct (Equal ip metadataIP) eqn:Emeta.
  { specialize (Hmeta eq_refl). split.
    - intros (_ & _ & _ & _ & _ & Hf). discriminate.
    - intros Hnot. exfalso. apply Hnot. unfold blocked4.
      apply andb_true_iff in Hmeta as [Ha Hb].
      apply Z.eqb_eq in Ha, Hb. tauto. }
  unfold blocked4. clear Hun Hmeta Eun Emeta H4 Hip.
  revert Hnz H H0 H1 H2.
  generalize (b2z a) (b2z b) (b2z c) (b2z d). clear a b c d.
  intros a b c d Hnz Ha Hb Hc Hd.
  rewrite ?orb_false_iff, ?andb_false_iff, ?Z.eqb_neq, ?Z.leb_gt.
  (split; [intros (H1 & (H2 & H3) & H4 & H5 & _) [?|[?|[?|[?|[?|[?|?]]]]]]; lia | intros Hnot; repeat split; lia]).
Qed.


(** X10. The check names four kinds of address in its errors, never a
    fifth: the test for the cloud metadata endpoint comes after the test
    for link-local addresses, which 169.254.169.254 is, so that address
    is refused as a link-local one and the last branch is never taken. *)
Theorem validateIP_never_reports_metadata (ip : IP) :
  (validateIP ip = None \/
   exists kind, In kind kinds /\
     validateIP ip =
       Some (Errorf ("access to " ++ kind ++ " address " ++ String_ ip ++
                     " is blocked"))) /\
  (Equal ip metadataIP = true ->
   validateIP ip =
     Some (Errorf "access to link-local address 169.254.169.254 is blocked")).
Proof.
  split.
  - pose proof (metadata_link_local ip) as Hmeta. unfold validateIP, kinds.
    destruct (IsLoopback ip).
    { right. exists "loopback". split; [cbn; tauto | reflexivity]. }
    destruct (IsPrivate ip).
    { right. exists "private network". split; [cbn; tauto | reflexivity]. }
    destruct (IsLinkLocalUnicast ip).
    { right. exists "link-local". split; [cbn; tauto | reflexivity]. }
    destruct (IsLinkLocalMulticast ip).
    { right. exists "link-local". split; [cbn; tauto | reflexivity]. }
    cbn [orb]. destruct (IsUnspecified ip).
    { right. exists "unspecified". split; [cbn; tauto | reflexivity]. }
    destruct (Equal ip metadataIP); [|now left].
    discriminate (Hmeta eq_refl).
  - intros Heq. apply Equal_IPv4 in Heq as [-> | ->]; reflexivity.
Qed.

Lemma To4_None_not_IPv4 (ip : IP) (a b c d : Byte.byte) :
  To4 ip = None -> Equal ip (IPv4 a b c d) = false.
Proof.
  intros Hnot. apply not_true_is_false. intros Heq.
  apply Equal_IPv4 in Heq as [-> | ->]; discriminate Hnot.
Qed.

(** X11. For an address that is not an IPv4 one, the check passes
    exactly when it is none of: ::1, ::, an address of fc00::/7 or of
    fe80::/10, a multicast address of link-local scope.  In particular
    everything that is neither 4 nor 16 bytes long passes. *)
Theorem validateIP_ipv6_ranges (ip : IP) :
  To4 ip = None ->
  (validateIP ip = None <-> ~ blocked6 ip).
Proof.
  intros Hnot. rewrite validateIP_None.
  unfold IsUnspecified, IPv4zero, metadataIP.
  rewrite !(To4_None_not_IPv4 ip _ _ _ _ Hnot). cbn [orb].
  unfold IsLoopback, IsPrivate, IsLinkLocalUnicast, IsLinkLocalMulticast.
  rewrite Hnot.
  pose proof (Equal_v6 ip IPv6loopback eq_refl eq_refl) as Hlo.
  pose proof (Equal_v6 ip IPv6unspecified eq_refl eq_refl) as Hun.
  unfold blocked6.
  destruct (Nat.eqb_spec (List.length ip) IPv6len) as [H16 | H16]; cbn [andb].
  - unfold idx. rewrite land_254, land_192, land_15.
    pose proof (b2z_range (nth 0 ip Byte.x00)) as Hr0.
    pose proof (b2z_range (nth 1 ip Byte.x00)) as Hr1.
    revert Hr0 Hr1.
    generalize (b2z (nth 0 ip Byte.x00)) (b2z (nth 1 ip Byte.x00)).
    intros x y Hx Hy.
    destruct (Equal ip IPv6loopback).
    { split; [intros (Hf & _); discriminate|].
      intros Hb. exfalso. apply Hb. split; [exact H16|]. left. now apply Hlo. }
    destruct (Equal ip IPv6unspecified).
    { split; [intros (_ & _ & _ & _ & Hf & _); discriminate|].
      intros Hb. exfalso. apply Hb. split; [exact H16|]. right. left.
      now apply Hun. }
    assert (Hl : ip <> IPv6loopback) by (intros Hip; apply Hlo in Hip; discriminate).
    assert (Hu : ip <> IPv6unspecified) by (intros Hip; apply Hun in Hip; discriminate).
    rewrite ?andb_false_iff, ?Z.eqb_neq, ?Z.leb_gt.
    split.
    + intros (_ & H1 & H2 & H3 & _) (_ & [? | [? | [? | [? | ?]]]]);
        try contradiction; lia.
    + intros Hb. repeat split; try reflexivity.
      * destruct (Z_le_gt_dec 252 x) as [Hle | Hgt]; [|left; lia].
        destruct (Z_le_gt_dec x 253) as [Hle' | Hgt']; [|right; lia].
        exfalso. apply Hb. split; [exact H16|]. right. right. left. lia.
      * destruct (Z.eq_dec x 254) as [-> | Hne]; [|left; exact Hne].
        destruct (Z_le_gt_dec 128 y) as [Hle | Hgt]; [|right; left; lia].
        destruct (Z_le_gt_dec y 191) as [Hle' | Hgt']; [|right; right; lia].
        exfalso. apply Hb. split; [exact H16|]. do 3 right. left. lia.
      * destruct (Z.eq_dec x 255) as [-> | Hne]; [|left; exact Hne].
        destruct (Z.eq_dec (y mod 16) 2) as [Hy2 | Hne]; [|right; exact Hne].
        exfalso. apply Hb. split; [exact H16|]. do 4 right. lia.
  - destruct (Equal ip IPv6loopback).
    { exfalso. apply H16. rewrite (proj1 Hlo eq_refl). reflexivity. }
    destruct (Equal ip IPv6unspecified).
    { exfalso. apply H16. rewrite (proj1 Hun eq_refl). reflexivity. }
    split; [intros _ (Hlen & _); contradiction | intros _; repeat split].
Qed.

End Addresses.

Lemma validateIP_ipv4_ranges_witness :
  utils.validateIP (net.IPv4 Byte.x08 Byte.x08 Byte.x08 Byte.x08) = None /\
  utils.validateIP (net.IPv4 Byte.xac Byte.x14 Byte.x00 Byte.x01) <> None.
Proof.
  split.
  - apply (proj2 (validateIP_ipv4_ranges
                    (net.IPv4 Byte.x08 Byte.x08 Byte.x08 Byte.x08)
                    [Byte.x08; Byte.x08; Byte.x08; Byte.x08] eq_refl)).
    unfold utils.blocked4, net.idx, net.b2z. cbn [nth Byte.to_N Z.of_N]. lia.
  - intros Hpass.
    apply (proj1 (validateIP_ipv4_ranges
                    (net.IPv4 Byte.xac Byte.x14 Byte.x00 Byte.x01)
                    [Byte.xac; Byte.x14; Byte.x00; Byte.x01] eq_refl)) in Hpass.
    apply Hpass. unfold utils.blocked4, net.idx, net.b2z. cbn [nth Byte.to_N Z.of_N]. lia.
Defined.

Lemma validateIP_ipv6_ranges_witness :
  utils.validateIP
    [Byte.x20; Byte.x01; Byte.x0d; Byte.xb8; Byte.x00; Byte.x00; Byte.x00;
     Byte.x00; Byte.x00; Byte.x00; Byte.x00; Byte.x00; Byte.x00; Byte.x00;
     Byte.x00; Byte.x01] = None /\
  utils.validateIP
    [Byte.xfd; Byte.x00; Byte.x00; Byte.x00; Byte.x00; Byte.x00; Byte.x00;
     Byte.x00; Byte.x00; Byte.x00; Byte.x00; Byte.x00; Byte.x00; Byte.x00;
     Byte.x00; Byte.x01] <> None.
Proof.
  split.
  - apply (proj2 (validateIP_ipv6_ranges
                    [Byte.x20; Byte.x01; Byte.x0d; Byte.xb8; Byte.x00;
                     Byte.x00; Byte.x00; Byte.x00; Byte.x00; Byte.x00;
                     Byte.x00; Byte.x00; Byte.x00; Byte.x00; Byte.x00;
                     Byte.x01] eq_refl)).
    intros (_ & [Hip | [Hip | Hnum]]); [discriminate Hip | discriminate Hip |].
    unfold net.idx, net.b2z in Hnum. cbn [nth Byte.to_N Z.of_N] in Hnum. lia.
  - intros Hpass.
    apply (proj1 (validateIP_ipv6_ranges
                    [Byte.xfd; Byte.x00; Byte.x00; Byte.x00; Byte.x00;
                     Byte.x00; Byte.x00; Byte.x00; Byte.x00; Byte.x00;
                     Byte.x00; Byte.x00; Byte.x00; Byte.x00; Byte.x00;
                     Byte.x01] eq_refl)) in Hpass.
    apply Hpass. split; [reflexivity|]. right. right. left.
    unfold net.idx, net.b2z. cbn [nth Byte.to_N Z.of_N]. lia.
Defined.

(* ===================================================================== *)
(** ** The URL guard *)
(* ===================================================================== *)

Section UrlGuard.
Import gostring net utils.
Context `{unicode.CaseTables}.
Variable env : Env.

(** The loop over the resolved addresses finds nothing exactly when
    every entry that parses passes the address check. *)
Lemma checkAddresses_None (ips : list string) :
  checkAddresses env ips = None <->
  (forall s ip, In s ips -> net_ParseIP env s = Some ip ->
                validateIP ip = None).
Proof.
  induction ips as [|s ips IH]; cbn [checkAddresses In].
  - split; [intros _ ? ? [] | reflexivity].
  - destruct (net_ParseIP env s) as [ip|] eqn:Hparse.
    + destruct (validateIP ip) as [err|] eqn:Hcheck.
      * split; [discriminate|]. intros Hall.
        rewrite (Hall s ip (or_introl eq_refl) Hparse) in Hcheck.
        discriminate.
      * rewrite IH. split.
        -- intros Hall s' ip' [<- | Hin] Hp; [congruence | eauto].
        -- intros Hall s' ip' Hin. apply Hall. now right.
    + rewrite IH. split.
      * intros Hall s' ip' [<- | Hin] Hp; [congruence | eauto].
      * intros Hall s' ip' Hin. apply Hall. now right.
Qed.

(** X12. The guard accepts a URL exactly when it parses, its scheme is
    http or https, its host is not empty and not a local name in any
    letter case, and then: if the host resolves, every resolved entry
    that parses as an address passes the address check (an entry that
    does not parse is skipped); if it does not resolve, the host itself
    parses as an address and that address, printed and parsed again,
    passes the check. *)
Theorem ValidateURL_accepts_iff (urlStr : string) :
  ValidateURL env urlStr = None <->
  exists parsedURL,
    url_Parse env urlStr = inr parsedURL /\
    (Scheme parsedURL = "http" \/ Scheme parsedURL = "https") /\
    Hostname parsedURL <> "" /\
    ~ In (strings.ToLower (Hostname parsedURL)) localNames /\
    match net_LookupHost env (Hostname parsedURL) with
    | inr ips =>
        forall s ip, In s ips -> net_ParseIP env s = Some ip ->
                     validateIP ip = None
    | inl _ =>
        exists literal,
          net_ParseIP env (Hostname parsedURL) = Some literal /\
          forall ip, net_ParseIP env (String_ literal) = Some ip ->
                     validateIP ip = None
    end.
Proof.
  unfold ValidateURL, localNames.
  destruct (url_Parse env urlStr) as [err | p].
  { split; [discriminate | intros (p & Hp & _); discriminate]. }
  destruct (String.eqb_spec (Scheme p) "http") as [Hhttp | Hhttp];
    destruct (String.eqb_spec (Scheme p) "https") as [Hhttps | Hhttps];
    cbn [negb andb];
    try (split; [discriminate|];
         intros (q & [= <-] & [Hs | Hs] & _); contradiction).
  all: destruct (String.eqb_spec (Hostname p) "") as [Hempty | Hhost];
    [split; [discriminate | intros (q & [= <-] & _ & Hne & _); contradiction]|].
  all: destruct (String.eqb_spec (strings.ToLower (Hostname p)) "localhost")
         as [Hl1 | Hl1]; cbn [orb];
    [split; [discriminate|];
     intros (q & [= <-] & _ & _ & Hloc & _); exfalso; apply Hloc;
     match goal with Hl : strings.ToLower _ = _ |- _ => rewrite Hl end;
     cbn [In]; auto|].
  all: destruct (String.eqb_spec (strings.ToLower (Hostname p)) "ip6-localhost")
         as [Hl2 | Hl2]; cbn [orb];
    [split; [discriminate|];
     intros (q & [= <-] & _ & _ & Hloc & _); exfalso; apply Hloc;
     match goal with Hl : strings.ToLower _ = _ |- _ => rewrite Hl end;
     cbn [In]; auto|].
  all: destruct (String.eqb_spec (strings.ToLower (Hostname p)) "ip6-loopback")
         as [Hl3 | Hl3];
    [split; [discriminate|];
     intros (q & [= <-] & _ & _ & Hloc & _); exfalso; apply Hloc;
     match goal with Hl : strings.ToLower _ = _ |- _ => rewrite Hl end;
     cbn [In]; auto|].
  all: assert (Hnames : ~ In (strings.ToLower (Hostname p))
                          ["localhost"; "ip6-localhost"; "ip6-loopback"])
    by (cbn [In]; intros [Hn | [Hn | [Hn | []]]]; congruence).
  all: destruct (net_LookupHost env (Hostname p)) as [err | ips] eqn:Hlookup.
  all: try (rewrite checkAddresses_None; split;
            [ intros Hall; exists p; rewrite Hlookup; repeat split; auto
            | intros (q & [= <-] & _ & _ & _ & Hall); rewrite Hlookup in Hall;
              exact Hall ]).
  all: destruct (net_ParseIP env (Hostname p)) as [literal|] eqn:Hlit;
    [ rewrite checkAddresses_None; split;
      [ intros Hall; exists p; rewrite Hlookup; repeat split; auto;
        exists literal; split; [exact Hlit|];
        intros ip Hip; apply (Hall (String_ literal) ip); [now left | exact Hip]
      | intros (q & [= <-] & _ & _ & _ & Hall); rewrite Hlookup in Hall;
        destruct Hall as (lit & Hlit' & Hall);
        rewrite Hlit in Hlit'; injection Hlit' as <-;
        intros s ip [<- | []] Hip; now apply Hall ]
    | split; [discriminate|];
      intros (q & [= <-] & _ & _ & _ & Hall); rewrite Hlookup in Hall;
      destruct Hall as (lit & Hlit' & _); congruence ].
Qed.

(** X13. When the host resolves, the guard fails with the error of the
    first resolved address that does not pass the address check: the
    entries before it that pass or do not parse are stepped over, the
    entries after it are not looked at. *)
Theorem ValidateURL_reports_first_refusal (urlStr : string) (parsedURL : URL)
    (passing rest : list string) (s : string) (ip : IP) (err : error) :
  url_Parse env urlStr = inr parsedURL ->
  Scheme parsedURL = "http" \/ Scheme parsedURL = "https" ->
  Hostname parsedURL <> "" ->
  ~ In (strings.ToLower (Hostname parsedURL)) localNames ->
  net_LookupHost env (Hostname parsedURL) = inr (passing ++ s :: rest)%list ->
  (forall s' ip', In s' passing -> net_ParseIP env s' = Some ip' ->
                  validateIP ip' = None) ->
  net_ParseIP env s = Some ip ->
  validateIP ip = Some err ->
  ValidateURL env urlStr = Some err.
Proof.
  intros Hparse Hscheme Hhost Hlocal Hlookup Hpass Hs Herr.
  unfold ValidateURL. rewrite Hparse.
  assert (Hsch : negb (Scheme parsedURL =? "http")%string
                 && negb (Scheme parsedURL =? "https")%string = false).
  { destruct Hscheme as [-> | ->]; reflexivity. }
  rewrite Hsch.
  destruct (String.eqb_spec (Hostname parsedURL) ""); [contradiction|].
  unfold localNames in Hlocal. cbn [In] in Hlocal.
  destruct (String.eqb_spec (strings.ToLower (Hostname parsedURL)) "localhost");
    [exfalso; apply Hlocal; auto|].
  destruct (String.eqb_spec (strings.ToLower (Hostname parsedURL))
              "ip6-localhost"); [exfalso; apply Hlocal; auto|].
  destruct (String.eqb_spec (strings.ToLower (Hostname parsedURL))
              "ip6-loopback"); [exfalso; apply Hlocal; auto|].
  cbn [orb]. rewrite Hlookup. clear Hlookup.
  induction passing as [|s0 passing IH]; cbn [app checkAddresses].
  - now rewrite Hs, Herr.
  - destruct (net_ParseIP env s0) as [ip0|] eqn:Hp0.
    + rewrite (Hpass s0 ip0 (or_introl eq_refl) Hp0).
      apply IH. intros s' ip' Hin. apply Hpass. now right.
    + apply IH. intros s' ip' Hin. apply Hpass. now right.
Qed.

End UrlGuard.

Lemma ValidateURL_reports_first_refusal_witness :
  utils.ValidateURL stubs.resolver "https://intranet.example/" =
    Some (Errorf "access to private network address 10.0.0.7 is blocked").
Proof.
  apply (ValidateURL_reports_first_refusal stubs.resolver
           "https://intranet.example/"
           {| utils.Scheme := "https"; utils.Hostname := "intranet.example" |}
           ["93.184.216.34"] [] "10.0.0.7" stubs.internal).
  - reflexivity.
  - right. reflexivity.
  - discriminate.
  - cbn. intros [Hn | [Hn | [Hn | []]]]; discriminate Hn.
  - reflexivity.
  - intros s' ip' [<- | []] Hp. injection Hp as <-. reflexivity.
  - reflexivity.
  - reflexivity.
Defined.

(* ===================================================================== *)
(** ** Cleaned paths *)
(* ===================================================================== *)

Section Cleaning.
Import gostring filepath.

Lemma HasPrefix_app (a b p : string) :
  HasPrefix a p = true -> HasPrefix (a ++ b) p = true.
Proof.
  rewrite !HasPrefix_iff. intros (t & ->). exists (t ++ b).
  now rewrite sapp_assoc.
Qed.

Lemma backtrack_ge (fuel : nat) (out : string) (w dotdot : Z) :
  dotdot <= w -> dotdot <= backtrack fuel out w dotdot.
Proof.
  revert w. induction fuel as [|fuel IH]; intros w Hw; cbn [backtrack];
    [exact Hw|].
  destruct (Z.ltb_spec dotdot w); cbn [andb]; [|exact Hw].
  destruct (negb (isSep (at_ out w))); [apply IH; lia | exact Hw].
Qed.

Lemma slice_keeps_root (out : string) (w : Z) :
  HasPrefix out "/" = true -> 1 <= w -> HasPrefix (slice out 0 w) "/" = true.
Proof.
  rewrite !HasPrefix_iff. intros (t & ->) Hw. unfold slice.
  destruct (Z.to_nat (w - 0)) as [|k] eqn:Hk; [lia|].
  now exists (String.substring 0 k t).
Qed.

(** The loop of [Clean] on a rooted path never gives up the leading
    separator. *)
Lemma Clean_loop_rooted (fuel : nat) (path : string) (r : Z) (out : string) :
  HasPrefix out "/" = true ->
  HasPrefix (Clean_loop fuel path true r out 1) "/" = true.
Proof.
  revert r out. induction fuel as [|fuel IH]; intros r out Hout;
    cbn [Clean_loop]; [exact Hout|]. cbv zeta. cbn [negb andb orb].
  destruct (len path <=? r); [exact Hout|].
  destruct (isSep (at_ path r)); [now apply IH|].
  destruct ((at_ path r =? 46)
            && ((r + 1 =? len path) || isSep (at_ path (r + 1))));
    [now apply IH|].
  destruct ((at_ path r =? 46) && (at_ path (r + 1) =? 46)
            && ((r + 2 =? len path) || isSep (at_ path (r + 2)))).
  - destruct (Z.ltb_spec 1 (len out)) as [Hlong | Hshort]; [|now apply IH].
    apply IH, slice_keeps_root; [exact Hout|].
    apply backtrack_ge. lia.
  - apply IH, HasPrefix_app.
    destruct (negb (len out =? 1)); [now apply HasPrefix_app | exact Hout].
Qed.

Lemma Clean_rooted (path : string) :
  IsAbs path = true -> IsAbs (Clean path) = true.
Proof.
  unfold IsAbs. intros Habs.
  apply HasPrefix_iff in Habs as (t & ->). unfold Clean.
  change (("/" ++ t =? "")%string) with false.
  change (isSep (at_ ("/" ++ t) 0)) with true. cbv iota.
  pose proof (Clean_loop_rooted (String.length ("/" ++ t)) ("/" ++ t) 1 "/"
                eq_refl) as Hloop.
  destruct (Clean_loop (String.length ("/" ++ t)) ("/" ++ t) true 1 "/" 1)
    as [|c out]; [discriminate Hloop | exact Hloop].
Qed.

(** Joining onto an absolute directory gives an absolute path. *)
Lemma Join_rooted (dir name : string) :
  IsAbs dir = true -> IsAbs (Join [dir; name]) = true.
Proof.
  intros Habs. cbn [Join].
  destruct (String.eqb_spec dir "") as [-> | _]; [discriminate Habs|].
  apply Clean_rooted. cbn [joinSlash]. unfold IsAbs in *.
  now apply HasPrefix_app.
Qed.

Lemma HasPrefix_nil (s : string) : HasPrefix s "" = true.
Proof. now destruct s. Qed.

Lemma HasPrefix_slash (c : ascii) (t : string) :
  HasPrefix (String c t) "/" = Ascii.eqb "/" c.
Proof. cbn [HasPrefix]. now rewrite HasPrefix_nil, andb_true_r. Qed.

Lemma no_slash_extend (a b : string) :
  a <> "" -> HasPrefix a "/" = false -> HasPrefix (a ++ b) "/" = false.
Proof.
  destruct a as [|c a]; [contradiction|].
  intros _ Ha. cbn [append]. now rewrite HasPrefix_slash in *.
Qed.

Lemma no_slash_prefix (k : nat) (t : string) :
  HasPrefix t "/" = false -> HasPrefix (String.substring 0 k t) "/" = false.
Proof.
  destruct t as [|c t]; destruct k; cbn [String.substring]; try reflexivity.
  now rewrite !HasPrefix_slash.
Qed.

Lemma substring_head (n k : nat) (s : string) (c : ascii) :
  String.get n s = Some c ->
  exists rest, String.substring n (S k) s = String c rest.
Proof.
  revert s. induction n as [|n IH]; intros [|d s]; cbn [String.get];
    try discriminate.
  - intros [= ->]. now eexists.
  - intros Hget. cbn [String.substring]. now apply IH.
Qed.

Lemma elemEnd_ge (fuel : nat) (path : string) (r : Z) :
  r <= elemEnd fuel path r.
Proof.
  revert r. induction fuel as [|fuel IH]; intros r; cbn [elemEnd]; [lia|].
  destruct ((r <? len path) && negb (isSep (at_ path r))); [|lia].
  specialize (IH (r + 1)). lia.
Qed.

(** An element of the path, read where the byte is no separator, is not
    empty and does not begin with a separator. *)
Lemma element_no_slash (path : string) (r : Z) :
  0 <= r < len path ->
  isSep (at_ path r) = false ->
  HasPrefix (slice path r (elemEnd (String.length path) path r)) "/" = false
  /\ slice path r (elemEnd (String.length path) path r) <> "".
Proof.
  intros Hr Hsep. unfold slice.
  assert (Hend : r + 1 <= elemEnd (String.length path) path r).
  { destruct (String.length path) as [|fuel] eqn:Hlen;
      [unfold len in Hr; lia|].
    cbn [elemEnd]. destruct (Z.ltb_spec r (len path)); [|lia].
    rewrite Hsep. cbn [negb andb].
    pose proof (elemEnd_ge fuel path (r + 1)). lia. }
  destruct (Z.to_nat (elemEnd (String.length path) path r - r)) as [|k] eqn:Hk;
    [lia|].
  unfold at_ in Hsep.
  destruct (String.get (Z.to_nat r) path) as [c|] eqn:Hget.
  - destruct (substring_head (Z.to_nat r) k path c Hget) as (rest & ->).
    split; [|discriminate]. rewrite HasPrefix_slash.
    destruct (Ascii.eqb_spec "/" c) as [<- | _]; [discriminate Hsep | reflexivity].
  - exfalso. apply String.get_correct in Hget || idtac.
    revert Hget. clear -Hr. unfold len in Hr.
    assert (Hlt : (Z.to_nat r < String.length path)%nat) by lia.
    revert Hlt. generalize (Z.to_nat r). clear Hr.
    induction path as [|d path IH]; intros n Hlt; cbn [String.length] in Hlt;
      [lia|].
    destruct n; cbn [String.get]; [discriminate|]. apply IH. lia.
Qed.

(** On a rooted path the loop of [Clean] keeps one separator in front
    and never a second one behind it. *)
Lemma Clean_loop_rooted_tidy (fuel : nat) (path : string) (r : Z) (t : string) :
  0 <= r ->
  HasPrefix t "/" = false ->
  exists t', Clean_loop fuel path true r ("/" ++ t) 1 = "/" ++ t' /\
             HasPrefix t' "/" = false.
Proof.
  revert r t. induction fuel as [|fuel IH]; intros r t Hr Ht;
    cbn [Clean_loop]; [now exists t|]. cbv zeta. cbn [negb andb orb].
  destruct (Z.leb_spec (len path) r) as [|Hin]; [now exists t|].
  destruct (isSep (at_ path r)) eqn:Hsep; [apply IH; [lia | exact Ht]|].
  destruct ((at_ path r =? 46)
            && ((r + 1 =? len path) || isSep (at_ path (r + 1))));
    [apply IH; [lia | exact Ht]|].
  destruct ((at_ path r =? 46) && (at_ path (r + 1) =? 46)
            && ((r + 2 =? len path) || isSep (at_ path (r + 2)))).
  - destruct (Z.ltb_spec 1 (len ("/" ++ t))) as [Hlong | Hshort];
      [|apply IH; [lia | exact Ht]].
    pose proof (backtrack_ge (String.length ("/" ++ t)) ("/" ++ t)
                  (len ("/" ++ t) - 1) 1 ltac:(lia)) as Hback.
    unfold slice.
    destruct (Z.to_nat
                (backtrack (String.length ("/" ++ t)) ("/" ++ t)
                   (len ("/" ++ t) - 1) 1 - 0)) as [|k] eqn:Hk; [lia|].
    cbn [append String.substring Z.to_nat].
    apply (IH (r + 2) (String.substring 0 k t)); [lia|].
    now apply no_slash_prefix.
  - destruct (element_no_slash path r ltac:(lia) Hsep) as [Helem _].
    destruct (Z.eqb_spec (len ("/" ++ t)) 1) as [Hone | Hmore];
      cbn [negb orb]; cbv iota.
    + assert (t = "") as -> by (destruct t; [reflexivity | cbn in Hone; lia]).
      cbn [append].
      apply (IH _ (slice path r (elemEnd (String.length path) path r)));
        [|exact Helem].
      pose proof (elemEnd_ge (String.length path) path r). lia.
    + rewrite !sapp_assoc.
      apply (IH _ (t ++ "/" ++
                   slice path r (elemEnd (String.length path) path r))).
      * pose proof (elemEnd_ge (String.length path) path r). lia.
      * destruct t as [|c t]; [cbn in Hmore; lia|].
        cbn [append]. now rewrite HasPrefix_slash in *.
Qed.

(** On a path that is not rooted the loop never writes a separator in
    front. *)
Lemma Clean_loop_relative (fuel : nat) (path : string) (r : Z) (out : string)
    (dotdot : Z) :
  0 <= r -> 0 <= dotdot ->
  HasPrefix out "/" = false ->
  HasPrefix (Clean_loop fuel path false r out dotdot) "/" = false.
Proof.
  revert r out dotdot. induction fuel as [|fuel IH]; intros r out dotdot Hr Hd Hout;
    cbn [Clean_loop]; [exact Hout|]. cbv zeta. cbn [negb andb orb].
  destruct (Z.leb_spec (len path) r) as [|Hin]; [exact Hout|].
  destruct (isSep (at_ path r)) eqn:Hsep; [apply IH; [lia | lia | exact Hout]|].
  destruct ((at_ path r =? 46)
            && ((r + 1 =? len path) || isSep (at_ path (r + 1))));
    [apply IH; [lia | lia | exact Hout]|].
  destruct ((at_ path r =? 46) && (at_ path (r + 1) =? 46)
            && ((r + 2 =? len path) || isSep (at_ path (r + 2)))).
  - destruct (Z.ltb_spec dotdot (len out)) as [Hlong | Hshort].
    + apply IH; [lia | lia |]. unfold slice. now apply no_slash_prefix.
    + apply IH; [lia | unfold len; lia |].
      destruct (Z.ltb_spec 0 (len out)) as [Hpos | Hzero].
      * rewrite sapp_assoc. apply no_slash_extend; [|exact Hout].
        intros ->. cbn in Hpos. lia.
      * destruct out; [reflexivity | cbn in Hzero; lia].
  - destruct (element_no_slash path r ltac:(lia) Hsep) as [Helem _].
    apply IH; [pose proof (elemEnd_ge (String.length path) path r); lia | lia |].
    destruct (Z.eqb_spec (len out) 0) as [Hzero | Hpos];
      cbn [negb orb]; cbv iota.
    + destruct out; [exact Helem | cbn in Hzero; lia].
    + rewrite sapp_assoc. apply no_slash_extend; [|exact Hout].
      intros ->. now apply Hpos.
Qed.

(** A cleaned path does not begin with two separators. *)
Lemma Clean_tidy (path : string) : HasPrefix (Clean path) "//" = false.
Proof.
  unfold Clean. destruct (String.eqb_spec path ""); [reflexivity|].
  destruct (isSep (at_ path 0)).
  - destruct (Clean_loop_rooted_tidy (String.length path) path 1 ""
                ltac:(lia) eq_refl) as (t & Heq & Ht).
    change ("/" ++ "") with "/" in Heq. rewrite Heq.
    change (len ("/" ++ t) =? 0) with false. cbv iota.
    destruct t as [|c t]; [reflexivity|].
    rewrite HasPrefix_slash in Ht. cbn [append HasPrefix].
    rewrite Ht. now rewrite andb_false_r || reflexivity.
  - pose proof (Clean_loop_relative (String.length path) path 0 "" 0
                  ltac:(lia) ltac:(lia) eq_refl) as Hrel.
    destruct (len (Clean_loop (String.length path) path false 0 "" 0) =? 0);
      [reflexivity|].
    destruct (Clean_loop (String.length path) path false 0 "" 0) as [|c out];
      [reflexivity|].
    rewrite HasPrefix_slash in Hrel. cbn [HasPrefix]. now rewrite Hrel.
Qed.

(** Joined paths are cleaned ones, or empty. *)
Lemma Join_tidy (elem : list string) : HasPrefix (Join elem) "//" = false.
Proof.
  induction elem as [|e rest IH]; cbn [Join]; [reflexivity|].
  destruct (e =? "")%string; [exact IH | apply Clean_tidy].
Qed.

End Cleaning.

(* ===================================================================== *)
(** ** The workspace check of the file tools *)
(* ===================================================================== *)

Section Workspace.
Import gostring filepath tools.

Lemma sapp_length (a b : string) :
  String.length (a ++ b) = (String.length a + String.length b)%nat.
Proof. induction a as [|c a IH]; cbn; [reflexivity | now rewrite IH]. Qed.

Lemma sapp_inv_head (a b c : string) : a ++ b = a ++ c -> b = c.
Proof. induction a as [|x a IH]; cbn; [tauto | intros [= Heq]; auto]. Qed.

Lemma snoc_inj (a b : string) (x y : ascii) :
  a ++ String x "" = b ++ String y "" -> a = b /\ x = y.
Proof.
  revert b. induction a as [|c a IH]; intros [|d b]; cbn.
  - intros [= ->]. now split.
  - intros [= -> Heq]. destruct b; discriminate Heq.
  - intros [= -> Heq]. destruct a; discriminate Heq.
  - intros [= -> Heq]. destruct (IH b Heq) as [-> ->]. now split.
Qed.

Lemma snoc_cases (t : string) :
  t = "" \/ exists t' c, t = t' ++ String c "".
Proof.
  induction t as [|c t IH]; [now left|]. right.
  destruct IH as [-> | (t' & c' & ->)].
  - now exists "", c.
  - now exists (String c t'), c'.
Qed.

(** The three comparisons of the check amount to one question: is the
    path the root or below it?  The middle comparison adds nothing to
    the other two. *)
Lemma check_inside (root p : string) :
  negb (p =? root)%string
  && negb (HasPrefix (p ++ "/") (root ++ "/"))
  && negb (HasPrefix p (root ++ "/")) = false <->
  inside root p.
Proof.
  unfold inside. split.
  - intros Hcheck.
    destruct (String.eqb_spec p root) as [Heq | Hne]; [now left|].
    cbn [negb andb] in Hcheck.
    destruct (HasPrefix p (root ++ "/")) eqn:Hbelow.
    + apply HasPrefix_iff in Hbelow as (t & ->). right. exists t.
      now rewrite sapp_assoc.
    + rewrite andb_true_r in Hcheck. apply negb_false_iff in Hcheck.
      apply HasPrefix_iff in Hcheck as (t & Heq).
      destruct (snoc_cases t) as [-> | (t' & c & ->)].
      * rewrite sapp_nil_r in Heq. apply snoc_inj in Heq as [-> _].
        now left.
      * rewrite <- sapp_assoc in Heq. apply snoc_inj in Heq as [-> _].
        right. exists t'. now rewrite sapp_assoc.
  - intros [-> | (rest & ->)].
    + now rewrite String.eqb_refl.
    + assert (Hbelow : HasPrefix (root ++ "/" ++ rest) (root ++ "/") = true)
        by (apply HasPrefix_iff; exists rest; now rewrite sapp_assoc).
      rewrite Hbelow. cbn [negb]. apply andb_false_r.
Qed.

Lemma check_outside (root p : string) :
  negb (p =? root)%string
  && negb (HasPrefix (p ++ "/") (root ++ "/"))
  && negb (HasPrefix p (root ++ "/")) = true <->
  ~ inside root p.
Proof.
  rewrite <- check_inside.
  destruct (negb (p =? root)%string
            && negb (HasPrefix (p ++ "/") (root ++ "/"))
            && negb (HasPrefix p (root ++ "/")));
    split; congruence.
Qed.

(** The function, once the workspace and the target are absolute. *)
Lemma validatePath_steps (fs : FS) (path workspace absW absP : string) :
  workspace <> "" ->
  Abs fs workspace = inr absW ->
  absPath fs absW path = inr absP ->
  validatePath fs path workspace true =
    let root := Clean (realWorkspace fs absW) in
    let target := realPath fs absP in
    if negb (target =? root)%string
       && negb (HasPrefix (target ++ "/") (root ++ "/"))
       && negb (HasPrefix target (root ++ "/"))
    then denied else (target, None).
Proof.
  intros Hws Habs Hpath. unfold validatePath.
  destruct (String.eqb_spec workspace ""); [contradiction|].
  rewrite Habs. unfold absPath in Hpath. rewrite Hpath. reflexivity.
Qed.

(** X14. In restricted mode, with the workspace and the target made
    absolute, the call succeeds exactly when the target, symbolic links
    resolved, is the resolved workspace directory or lies below it, and
    then returns the resolved target; otherwise it fails with "access
    denied".  Of the three comparisons the function makes, the one on
    the target with a separator appended never decides. *)
Theorem validatePath_restricted (fs : FS) (path workspace absW absP : string) :
  workspace <> "" ->
  Abs fs workspace = inr absW ->
  absPath fs absW path = inr absP ->
  let root := Clean (realWorkspace fs absW) in
  let target := realPath fs absP in
  (inside root target ->
   validatePath fs path workspace true = (target, None)) /\
  (~ inside root target ->
   validatePath fs path workspace true = denied) /\
  validatePath fs path workspace true =
    (if negb (target =? root)%string && negb (HasPrefix target (root ++ "/"))
     then denied else (target, None)).
Proof.
  intros Hws Habs Hpath. cbv zeta.
  rewrite (validatePath_steps fs path workspace absW absP Hws Habs Hpath).
  cbv zeta.
  set (root := Clean (realWorkspace fs absW)).
  set (target := realPath fs absP).
  split; [|split].
  - intros Hin. apply check_inside in Hin. now rewrite Hin.
  - intros Hout. apply check_outside in Hout. now rewrite Hout.
  - destruct (String.eqb_spec target root) as [Heq | Hne]; [reflexivity|].
    cbn [negb andb].
    destruct (HasPrefix target (root ++ "/")) eqn:Hbelow;
      [now rewrite andb_false_r|].
    rewrite andb_true_r.
    assert (Hout : ~ inside root target).
    { intros [Heq | (rest & Heq)]; [contradiction|].
      assert (Hp : HasPrefix target (root ++ "/") = true)
        by (apply HasPrefix_iff; exists rest; now rewrite sapp_assoc).
      congruence. }
    apply check_outside in Hout.
    destruct (String.eqb_spec target root) as [|_] in Hout; [contradiction|].
    rewrite Hbelow in Hout. cbn [negb andb] in Hout.
    rewrite andb_true_r in Hout. now rewrite Hout.
Qed.

(** X15. A resolved target that merely starts with the name of the
    workspace, such as a sibling directory [/workspace2] of [/workspace],
    is refused: what follows the workspace in the target has to begin
    with a separator. *)
Theorem validatePath_refuses_siblings (fs : FS)
    (path workspace absW absP more : string) :
  workspace <> "" ->
  Abs fs workspace = inr absW ->
  absPath fs absW path = inr absP ->
  realPath fs absP = Clean (realWorkspace fs absW) ++ more ->
  more <> "" ->
  HasPrefix more "/" = false ->
  validatePath fs path workspace true = denied.
Proof.
  intros Hws Habs Hpath Hreal Hmore Hsep.
  rewrite (validatePath_steps fs path workspace absW absP Hws Habs Hpath).
  cbv zeta. rewrite Hreal.
  set (root := Clean (realWorkspace fs absW)).
  assert (Hout : ~ inside root (root ++ more)).
  { intros [Heq | (rest & Heq)].
    - rewrite <- (sapp_nil_r root) in Heq at 2.
      apply sapp_inv_head in Heq. contradiction.
    - apply sapp_inv_head in Heq. subst more.
      assert (Hp : HasPrefix ("/" ++ rest) "/" = true)
        by (apply HasPrefix_iff; now exists rest).
      congruence. }
  apply check_outside in Hout. now rewrite Hout.
Qed.

Lemma Abs_tidy (fs : FS) (path abs : string) :
  Abs fs path = inr abs -> HasPrefix abs "//" = false.
Proof.
  unfold Abs. destruct (IsAbs path).
  - intros [= <-]. apply Clean_tidy.
  - destruct (os_Getwd fs) as [|wd]; [discriminate|]. intros Heq.
    assert (Habs : abs = Join [wd; path]) by congruence.
    rewrite Habs. apply Join_tidy.
Qed.

Lemma realPath_tidy (fs : FS) (absW path absP : string) :
  (forall p r, EvalSymlinks fs p = inr r -> exists q, r = Clean q) ->
  absPath fs absW path = inr absP ->
  HasPrefix (realPath fs absP) "//" = false.
Proof.
  intros Hclean Hpath. unfold realPath.
  destruct (EvalSymlinks fs absP) as [|r] eqn:Hr.
  - destruct (EvalSymlinks fs (Dir absP)) as [|d] eqn:Hd.
    + unfold absPath in Hpath. destruct (IsAbs path).
      * injection Hpath as <-. apply Clean_tidy.
      * exact (Abs_tidy _ _ _ Hpath).
    + apply Join_tidy.
  - destruct (Hclean _ _ Hr) as (q & ->). apply Clean_tidy.
Qed.

(** X16. When the resolved workspace is the root directory, the prefix
    the function compares with is [//], which no cleaned path begins
    with.  On a file system whose [EvalSymlinks] returns cleaned paths,
    as the library's does, restricted mode then accepts the target [/]
    alone and refuses every other path. *)
Theorem validatePath_root_workspace (fs : FS)
    (path workspace absW absP : string) :
  workspace <> "" ->
  Abs fs workspace = inr absW ->
  absPath fs absW path = inr absP ->
  (forall p r, EvalSymlinks fs p = inr r -> exists q, r = Clean q) ->
  Clean (realWorkspace fs absW) = "/" ->
  validatePath fs path workspace true =
    if (realPath fs absP =? "/")%string then ("/", None) else denied.
Proof.
  intros Hws Habs Hpath Hclean Hroot.
  rewrite (validatePath_steps fs path workspace absW absP Hws Habs Hpath).
  cbv zeta. rewrite Hroot.
  pose proof (realPath_tidy fs absW path absP Hclean Hpath) as Htidy.
  destruct (String.eqb_spec (realPath fs absP) "/") as [Heq | Hne].
  - now rewrite Heq.
  - assert (Hout : ~ inside "/" (realPath fs absP)).
    { intros [Heq | (rest & Heq)]; [contradiction|].
      assert (Hp : HasPrefix (realPath fs absP) "//" = true)
        by (apply HasPrefix_iff; now exists rest).
      congruence. }
    apply check_outside in Hout.
    destruct (String.eqb_spec (realPath fs absP) "/") as [|_] in Hout;
      [contradiction|].
    exact (f_equal (fun b : bool => if b then denied else (realPath fs absP, None)) Hout).
Qed.

(** X17. The function fails in two ways only: with "failed to resolve
    workspace path" when the workspace is relative and the working
    directory cannot be determined, and, in restricted mode, with
    "access denied".  The failure "failed to resolve file path" does not
    occur while the working directory answers the same throughout the
    call: an absolute workspace stays absolute when cleaned and joined
    onto, so the working directory is not asked for, and with a relative
    workspace it has answered once already.  The path returned with an
    error is empty. *)
Theorem validatePath_errors (fs : FS) (path workspace : string)
    (restrict : bool) (p : string) (e : error) :
  validatePath fs path workspace restrict = (p, Some e) ->
  p = "" /\
  ((exists err,
      os_Getwd fs = inl err /\ IsAbs workspace = false /\
      e = Errorf ("failed to resolve workspace path: " ++ Error err)) \/
   (restrict = true /\
    e = Errorf "access denied: path is outside the workspace")).
Proof.
  unfold validatePath.
  destruct (workspace =? "")%string; [discriminate|].
  unfold Abs at 1.
  destruct (IsAbs workspace) eqn:Hws.
  - assert (HabsW : IsAbs (Clean workspace) = true) by now apply Clean_rooted.
    destruct (IsAbs path).
    + destruct restrict; [|discriminate].
      match goal with
      | |- (if ?c then _ else _) = _ -> _ => destruct c
      end; [|discriminate].
      intros [= <- <-]. split; [reflexivity | right; now split].
    + unfold Abs. rewrite (Join_rooted _ path HabsW).
      destruct restrict; [|discriminate].
      match goal with
      | |- (if ?c then _ else _) = _ -> _ => destruct c
      end; [|discriminate].
      intros [= <- <-]. split; [reflexivity | right; now split].
  - destruct (os_Getwd fs) as [err | wd] eqn:Hwd.
    + intros [= <- <-]. split; [reflexivity|]. left. now exists err.
    + destruct (IsAbs path).
      * destruct restrict; [|discriminate].
        match goal with
        | |- (if ?c then _ else _) = _ -> _ => destruct c
        end; [|discriminate].
        intros [= <- <-]. split; [reflexivity | right; now split].
      * unfold Abs. rewrite Hwd.
        destruct (IsAbs (Join [Join [wd; workspace]; path]));
          (destruct restrict; [|discriminate]);
          match goal with
          | |- (if ?c then _ else _) = _ -> _ => destruct c
          end; try discriminate;
          intros [= <- <-]; (split; [reflexivity | right; now split]).
Qed.

End Workspace.

Lemma validatePath_restricted_witness :
  tools.validatePath stubs.linked "notes/a.txt" "/ws" true =
    ("/ws/notes/a.txt", None) /\
  tools.validatePath stubs.linked "out/passwd" "/ws" true = tools.denied.
Proof.
  split.
  - apply (proj1 (validatePath_restricted stubs.linked "notes/a.txt" "/ws"
                    "/ws" "/ws/notes/a.txt"
                    ltac:(discriminate) eq_refl eq_refl)).
    right. exists "notes/a.txt". reflexivity.
  - apply (proj1 (proj2 (validatePath_restricted stubs.linked "out/passwd"
                           "/ws" "/ws" "/ws/out/passwd"
                           ltac:(discriminate) eq_refl eq_refl))).
    intros [Heq | (rest & Heq)]; discriminate Heq.
Defined.

Lemma validatePath_refuses_siblings_witness :
  tools.validatePath (stubs.plain "/") "/workspace2/secret.txt" "/workspace"
    true = tools.denied.
Proof.
  apply (validatePath_refuses_siblings (stubs.plain "/")
           "/workspace2/secret.txt" "/workspace" "/workspace"
           "/workspace2/secret.txt" "2/secret.txt").
  - discriminate.
  - reflexivity.
  - reflexivity.
  - reflexivity.
  - discriminate.
  - reflexivity.
Defined.

Lemma validatePath_root_workspace_witness :
  tools.validatePath (stubs.plain "/") "etc/hosts" "/" true = tools.denied.
Proof.
  apply (validatePath_root_workspace (stubs.plain "/") "etc/hosts" "/" "/"
           "/etc/hosts").
  - discriminate.
  - reflexivity.
  - reflexivity.
  - intros p r [= <-]. now exists p.
  - reflexivity.
Defined.

Lemma validatePath_errors_witness :
  exists err,
    tools.os_Getwd stubs.lost = inl err /\
    tools.validatePath stubs.lost "a.txt" "ws" false =
      ("", Some (Errorf ("failed to resolve workspace path: " ++ Error err))).
Proof.
  destruct (validatePath_errors stubs.lost "a.txt" "ws" false ""
              (Errorf "failed to resolve workspace path: getwd: no such file or directory")
              eq_refl) as (_ & [(err & Hwd & _ & Herr) | (Hr & _)]).
  - exists err. split; [exact Hwd|]. injection Herr as Herr.
    rewrite <- Herr. reflexivity.
  - discriminate Hr.
Defined.
